(** * Colour mapping for a seven-colour e-ink panel

    A shallow embedding of [color_mapping.py] (class [SevenColorMapper]):
    the sRGB -> CIE LAB conversion, the two colour differences, the
    nearest-colour matcher with its eagerly built lookup table, the
    nearest-colour quantiser, the error-diffusion ditherer with serpentine
    scanning, the seeded random-threshold mode, the palette handed to the
    display driver, and the module's utilities: the colour statistics and,
    over an imaging library taken as a parameter, the preview and the
    side-by-side comparison.

    Conventions of the model.
    - Python [int] is [Z]; [//] and [%] are [Z.div] and [Z.modulo] (both
      floor towards minus infinity, as in Python).
    - Python and NumPy floats are modelled by the real numbers [R]: rounding
      is not modelled.  [float('inf')] is a separate constructor, see
      [bound].
    - A raised exception is a value of [exn]; code that can raise lives in
      the [result] monad.
    - [dict]s iterated in insertion order are association lists; the large
      lookup table and the per-call memo are [gmap]s.
    - A [height] x [width] array is a list of rows. *)

From Stdlib Require Import Reals Lra Lia ZArith List Sorted.
From stdpp Require Import gmap strings list.

Local Open Scope Z_scope.

(** ** Exceptions and the result monad *)

Inductive exn : Type :=
  | NameError (name : string)
  | ZeroDivisionError
  | TypeError
  | KeyError (key : string)
  | IndexError
  | BackendError (msg : string).

Inductive result (A : Type) : Type :=
  | Ok (a : A)
  | Raise (e : exn).

Arguments Ok {A} a.
Arguments Raise {A} e.

Definition bind {A B} (k : A -> result B) (c : result A) : result B :=
  match c with
  | Ok a => k a
  | Raise e => Raise e
  end.

#[export] Instance result_ret : MRet result := fun _ a => Ok a.
#[export] Instance result_bind : MBind result := fun _ _ k c => bind k c.

(** [for x in xs: body], threading the loop state. *)
Fixpoint for_each {A S} (xs : list A) (body : A -> S -> result S) (s : S)
  : result S :=
  match xs with
  | [] => Ok s
  | x :: xs' => s' ← body x s; for_each xs' body s'
  end.

(** [try: c  except Exception as e: h e]. *)
Definition try_except {A} (c : result A) (h : exn -> result A) : result A :=
  match c with
  | Ok a => Ok a
  | Raise e => h e
  end.

(** [range(start, stop, step)] for a positive step, and
    [range(start, -1, -1)]. *)
Definition py_range (start stop step : Z) : list Z :=
  map (fun i => start + Z.of_nat i * step)
      (seq 0 (Z.to_nat ((stop - start + step - 1) / step))).

Definition py_range_down (start : Z) : list Z :=
  map (fun i => start - Z.of_nat i) (seq 0 (Z.to_nat (start + 1))).

(** ** Scalars *)

Definition Rltb (x y : R) : bool := if Rlt_dec x y then true else false.

(** Python's [x ** y] on floats, for the non-integral exponents this
    program uses (2.4 and 1/3).  A zero base with a negative exponent raises
    [ZeroDivisionError]; a negative base gives a complex number, on which
    the ordering tests that follow raise [TypeError]. *)
Definition float_pow (x y : R) : result R :=
  if Rlt_dec 0 x then Ok (Rpower x y)
  else if Rlt_dec x 0 then Raise TypeError
  else if Rlt_dec y 0 then Raise ZeroDivisionError
  else Ok 0%R.

(** Python's two-argument [max(a, b)]: [b] when [b > a], else [a]. *)
Definition py_max (a b : R) : R := if Rlt_dec a b then b else a.

(** [np.clip(v, lo, hi)] is [minimum(maximum(v, lo), hi)]. *)
Definition np_clip (v lo hi : R) : R := Rmin (Rmax v lo) hi.

(** [astype(int)] truncates towards zero. *)
Definition astype_int (v : R) : Z :=
  if Rlt_dec v 0 then - Int_part (- v) else Int_part v.

(** ** Colours *)

Abbreviation rgb := (Z * Z * Z)%type.
Abbreviation lab := (R * R * R)%type.

(** The class constants; a [dict] keeps insertion order. *)
Definition EINK_COLORS : list (string * rgb) :=
  [ ("BLACK", (0, 0, 0));
    ("WHITE", (255, 255, 255));
    ("GREEN", (0, 255, 0));
    ("BLUE", (0, 0, 255));
    ("RED", (255, 0, 0));
    ("YELLOW", (255, 255, 0));
    ("ORANGE", (255, 165, 0)) ]%string.

Definition COLOR_INDICES : list (string * Z) :=
  [ ("BLACK", 0); ("WHITE", 1); ("GREEN", 2); ("BLUE", 3);
    ("RED", 4); ("YELLOW", 5); ("ORANGE", 6) ]%string.

(** [d[key]]. *)
Fixpoint dict_get {V} (d : list (string * V)) (key : string) : result V :=
  match d with
  | [] => Raise (KeyError key)
  | (k, v) :: d' => if String.eqb k key then Ok v else dict_get d' key
  end.

(** ** sRGB to CIE LAB *)

Section RgbToLab.
Local Open Scope R_scope.

Definition gamma_correct (c : R) : result R :=
  if Rlt_dec 0.04045 c then float_pow ((c + 0.055) / 1.055) 2.4
  else Ok (c / 12.92).

Definition lab_f (t : R) : result R :=
  if Rlt_dec 0.008856 t then float_pow t (1 / 3)
  else Ok (7.787 * t + 16 / 116).

Definition _rgb_to_lab (c : rgb) : result lab :=
  let '(r0, g0, b0) := c in
  let r := IZR r0 / 255 in
  let g := IZR g0 / 255 in
  let b := IZR b0 / 255 in
  r ← gamma_correct r;
  g ← gamma_correct g;
  b ← gamma_correct b;
  let x := r * 0.4124564 + g * 0.3575761 + b * 0.1804375 in
  let y := r * 0.2126729 + g * 0.7151522 + b * 0.0721750 in
  let z := r * 0.0193339 + g * 0.1191920 + b * 0.9503041 in
  let x := x / 0.95047 in
  let y := y / 1.00000 in
  let z := z / 1.08883 in
  fx ← lab_f x;
  fy ← lab_f y;
  fz ← lab_f z;
  let L := 116 * fy - 16 in
  let a := 500 * (fx - fy) in
  let b := 200 * (fy - fz) in
  Ok (L, a, b).

(** The conversion as the specification words it: total, on reals. *)
Definition spec_gamma_decode (c : R) : R :=
  if Rlt_dec 0.04045 c then Rpower ((c + 0.055) / 1.055) 2.4
  else c / 12.92.

Definition spec_cie_f (t : R) : R :=
  if Rlt_dec 0.008856 t then Rpower t (1 / 3)
  else 7.787 * t + 16 / 116.

Definition spec_rgb_to_lab (c : rgb) : lab :=
  let '(r0, g0, b0) := c in
  let rl := spec_gamma_decode (IZR r0 / 255) in
  let gl := spec_gamma_decode (IZR g0 / 255) in
  let bl := spec_gamma_decode (IZR b0 / 255) in
  let X := rl * 0.4124564 + gl * 0.3575761 + bl * 0.1804375 in
  let Y := rl * 0.2126729 + gl * 0.7151522 + bl * 0.0721750 in
  let Z' := rl * 0.0193339 + gl * 0.1191920 + bl * 0.9503041 in
  let fx := spec_cie_f (X / 0.95047) in
  let fy := spec_cie_f (Y / 1.0) in
  let fz := spec_cie_f (Z' / 1.08883) in
  (116 * fy - 16, 500 * (fx - fy), 200 * (fy - fz)).
End RgbToLab.

(** ** Colour differences *)

Section DeltaE.
Local Open Scope R_scope.

Definition _delta_e_cie76 (lab1 lab2 : lab) : R :=
  let '(L1, a1, b1) := lab1 in
  let '(L2, a2, b2) := lab2 in
  sqrt ((L2 - L1) ^ 2 + (a2 - a1) ^ 2 + (b2 - b1) ^ 2).

Definition _delta_e_ciede2000 (lab1 lab2 : lab) : R :=
  let '(L1, a1, b1) := lab1 in
  let '(L2, a2, b2) := lab2 in
  let C1 := sqrt (a1 ^ 2 + b1 ^ 2) in
  let C2 := sqrt (a2 ^ 2 + b2 ^ 2) in
  let dL := L2 - L1 in
  let dC := C2 - C1 in
  let da := a2 - a1 in
  let db := b2 - b1 in
  let dH2 := da ^ 2 + db ^ 2 - dC ^ 2 in
  let dH := sqrt (py_max 0 dH2) in
  let kL := 1.0 in
  let kC := 1.0 in
  let kH := 1.0 in
  sqrt ((dL / kL) ^ 2 + (dC / kC) ^ 2 + (dH / kH) ^ 2).

(** The simplified metric as the specification words it. *)
Definition spec_simplified_ciede2000 (lab1 lab2 : lab) : R :=
  let '(L1, a1, b1) := lab1 in
  let '(L2, a2, b2) := lab2 in
  let C1 := sqrt (a1 * a1 + b1 * b1) in
  let C2 := sqrt (a2 * a2 + b2 * b2) in
  let dL := L2 - L1 in
  let dC := C2 - C1 in
  let da := a2 - a1 in
  let db := b2 - b1 in
  let dH := sqrt (Rmax 0 (da * da + db * db - dC * dC)) in
  sqrt (dL * dL + dC * dC + dH * dH).
End DeltaE.

(** ** Arrays *)

Abbreviation grid A := (list (list A)).

(** [arr.shape] as [(height, width)]. *)
Definition shape {A} (g : grid A) : Z * Z :=
  (Z.of_nat (length g),
   match g with
   | [] => 0
   | row :: _ => Z.of_nat (length row)
   end).

(** [arr[y, x]] and [arr[y, x] = v].  The program only indexes with
    coordinates from [range]s or after a bounds test, never with negative
    ones; NumPy's wrap-around of negative indices is not modelled. *)
Definition grid_get {A} (g : grid A) (y x : Z) : result A :=
  if (y <? 0) || (x <? 0) then Raise IndexError
  else match g !! Z.to_nat y with
       | Some row =>
           match row !! Z.to_nat x with
           | Some v => Ok v
           | None => Raise IndexError
           end
       | None => Raise IndexError
       end.

Definition grid_set {A} (g : grid A) (y x : Z) (v : A) : result (grid A) :=
  if (y <? 0) || (x <? 0) then Raise IndexError
  else match g !! Z.to_nat y with
       | Some row =>
           if decide (Z.to_nat x < length row)%nat
           then Ok (<[Z.to_nat y := <[Z.to_nat x := v]> row]> g)
           else Raise IndexError
       | None => Raise IndexError
       end.

(** [np.zeros((height, width, 3), dtype=np.uint8)]. *)
Definition np_zeros (height width : Z) : grid rgb :=
  replicate (Z.to_nat height) (replicate (Z.to_nat width) (0, 0, 0)).

(** ** The mapper object *)

Abbreviation palette_entry := (string * rgb * lab)%type.

(** What the matcher returns: [(color_name, rgb_value, color_index)]. *)
Abbreviation match_entry := (string * rgb * Z)%type.

(** The optional accelerated ditherer, an extension module outside this
    file: its two entry points take the float array and return the output
    array or raise. *)
Record backend : Type := {
  jarvis_judice_ninke_dither : grid (R * R * R) -> result (grid rgb);
  floyd_steinberg_dither : grid (R * R * R) -> result (grid rgb)
}.

Record SevenColorMapper : Type := {
  eink_color_list : list palette_entry;
  _color_cache : gmap rgb match_entry;
  fast_ditherer : option backend
}.

(** The names bound at module level: the imports of the file (the line
    [import logging] is commented out), [fast_dither] when its import
    succeeded, the flag, the class and the two utility functions. *)
Definition module_globals (fast_dither_imported : bool) : list string :=
  [ "np"; "Image"; "Tuple"; "List"; "Dict"; "colorsys" ]%string
  ++ (if fast_dither_imported then [ "fast_dither"%string ] else [])
  ++ [ "FAST_DITHER_AVAILABLE"; "SevenColorMapper";
       "analyze_image_colors"; "create_color_comparison" ]%string.

(** Evaluating a global name that no function binds locally. *)
Definition load_global (globals : list string) (name : string) : result unit :=
  if existsb (String.eqb name) globals then Ok () else Raise (NameError name).

(** [logging.warning(...)] and [logging.error(...)]: the name [logging] is
    looked up first; the call itself only writes to the log. *)
Definition logging_call (globals : list string) : result unit :=
  load_global globals "logging".

(** [min_distance]: [float('inf')] or a finite distance. *)
Inductive bound : Type :=
  | inf
  | fin (d : R).

(** [distance < min_distance]. *)
Definition below (distance : R) (min_distance : bound) : bool :=
  match min_distance with
  | inf => true
  | fin m => Rltb distance m
  end.

(** [a, b, c = value]: unpacking [None] raises [TypeError]. *)
Definition unpack {A} (value : option A) : result A :=
  match value with
  | Some t => Ok t
  | None => Raise TypeError
  end.

Definition delta_e_func (use_ciede2000 : bool) : lab -> lab -> R :=
  if use_ciede2000 then _delta_e_ciede2000 else _delta_e_cie76.

Definition _find_closest_eink_color_direct (self : SevenColorMapper)
    (c : rgb) (use_ciede2000 : bool) : result (option match_entry) :=
  target_lab ← _rgb_to_lab c;
  '(_, closest_color) ←
    for_each (eink_color_list self)
      (fun '(name, rgb_val, lab_val) '(min_distance, closest_color) =>
         let distance := delta_e_func use_ciede2000 target_lab lab_val in
         if below distance min_distance then
           index ← dict_get COLOR_INDICES name;
           Ok (fin distance, Some (name, rgb_val, index))
         else Ok (min_distance, closest_color))
      (inf, None);
  Ok closest_color.

Definition set_color_cache (self : SevenColorMapper)
    (cache : gmap rgb match_entry) : SevenColorMapper :=
  {| eink_color_list := eink_color_list self;
     _color_cache := cache;
     fast_ditherer := fast_ditherer self |}.

(** ['time' in globals()] is false (the module never imports [time] at top
    level), so the timing lines do nothing; the three nested loops remain. *)
Definition _build_color_lookup_table (self : SevenColorMapper)
  : result SevenColorMapper :=
  let step := 4 in
  for_each (py_range 0 256 step) (fun r self =>
    for_each (py_range 0 256 step) (fun g self =>
      for_each (py_range 0 256 step) (fun b self =>
        let c := (r, g, b) in
        closest ← _find_closest_eink_color_direct self c true;
        '(closest_name, closest_rgb, closest_index) ← unpack closest;
        Ok (set_color_cache self
              (<[c := (closest_name, closest_rgb, closest_index)]>
                 (_color_cache self))))
      self)
    self)
  self.

(** The second definition of [find_closest_eink_color] in the class body,
    which replaces the first one. *)
Definition find_closest_eink_color (self : SevenColorMapper)
    (c : rgb) (use_ciede2000 : bool) : result (option match_entry) :=
  let '(r, g, b) := c in
  let cache_r := (r / 4) * 4 in
  let cache_g := (g / 4) * 4 in
  let cache_b := (b / 4) * 4 in
  let cache_key := (cache_r, cache_g, cache_b) in
  match _color_cache self !! cache_key with
  | Some e => Ok (Some e)
  | None => _find_closest_eink_color_direct self c use_ciede2000
  end.

(** [SevenColorMapper()].  [fast_dither] is [None] when the extension
    module could not be imported, and otherwise what its constructor
    [FastSevenColorDitherer()] does. *)
Definition __init__ (fast_dither : option (result backend))
  : result SevenColorMapper :=
  color_list ←
    for_each EINK_COLORS
      (fun '(name, c) acc => l ← _rgb_to_lab c; Ok (acc ++ [(name, c, l)]))
      [];
  let self := {| eink_color_list := color_list;
                 _color_cache := ∅;
                 fast_ditherer := None |} in
  self ← _build_color_lookup_table self;
  fd ← match fast_dither with
       | Some constructor =>
           try_except (b ← constructor; Ok (Some b))
             (fun e => _ ← logging_call (module_globals true); Ok None)
       | None => Ok None
       end;
  Ok {| eink_color_list := eink_color_list self;
        _color_cache := _color_cache self;
        fast_ditherer := fd |}.

(** ** Nearest-colour quantisation *)

(** The distance of the ['simple'] method: the sum of the squared channel
    differences, starting from [sum]'s [0], under the square root.  The
    channels are taken as unbounded integers; the fixed-width arithmetic
    NumPy may apply to [uint8] scalars is not modelled. *)
Definition rgb_distance (c1 c2 : rgb) : R :=
  let '(r1, g1, b1) := c1 in
  let '(r2, g2, b2) := c2 in
  sqrt (IZR (0 + (r1 - r2) ^ 2 + (g1 - g2) ^ 2 + (b1 - b2) ^ 2)).

Definition simple_closest (c : rgb) : rgb :=
  snd (fold_left
         (fun '(min_distance, closest_rgb) '(_, eink_rgb) =>
            let distance := rgb_distance c eink_rgb in
            if below distance min_distance then (fin distance, eink_rgb)
            else (min_distance, closest_rgb))
         EINK_COLORS (inf, (0, 0, 0))).

(** The image is an array of RGB pixels already: [image.convert('RGB')],
    [np.array] and [Image.fromarray] do nothing on the model. *)
Definition quantize_image (self : SevenColorMapper) (image : grid rgb)
    (method : string) : result (grid rgb) :=
  let img_array := image in
  let '(height, width) := shape img_array in
  let output_array := np_zeros height width in
  if String.eqb method "perceptual" then
    for_each (py_range 0 height 1) (fun y output_array =>
      for_each (py_range 0 width 1) (fun x output_array =>
        c ← grid_get img_array y x;
        closest ← find_closest_eink_color self c true;
        '(_, closest_rgb, _) ← unpack closest;
        grid_set output_array y x closest_rgb)
      output_array)
    output_array
  else
    for_each (py_range 0 height 1) (fun y output_array =>
      for_each (py_range 0 width 1) (fun x output_array =>
        c ← grid_get img_array y x;
        let closest_rgb := simple_closest c in
        grid_set output_array y x closest_rgb)
      output_array)
    output_array.

(** ** Error-diffusion dithering *)

Abbreviation rgbf := (R * R * R)%type.

Definition to_float (c : rgb) : rgbf :=
  let '(r, g, b) := c in (IZR r, IZR g, IZR b).

(** [np.array(image, dtype=np.float32)]. *)
Definition np_array_float32 (image : grid rgb) : grid rgbf :=
  map (map to_float) image.

Definition clip_px (v : rgbf) : rgbf :=
  let '(r, g, b) := v in (np_clip r 0 255, np_clip g 0 255, np_clip b 0 255).

Definition astype_int_px (v : rgbf) : rgb :=
  let '(r, g, b) := v in (astype_int r, astype_int g, astype_int b).

Definition px_sub (v w : rgbf) : rgbf :=
  let '(r1, g1, b1) := v in
  let '(r2, g2, b2) := w in
  (r1 - r2, g1 - g2, b1 - b2)%R.

(** [v + error_rgb * weight]. *)
Definition px_add_scaled (v error_rgb : rgbf) (weight : R) : rgbf :=
  let '(r, g, b) := v in
  let '(er, eg, eb) := error_rgb in
  (r + er * weight, g + eg * weight, b + eb * weight)%R.

Definition floyd_steinberg_kernel : list (Z * Z * R) :=
  [ (1, 0, (7 / 16)%R); (-1, 1, (3 / 16)%R); (0, 1, (5 / 16)%R); (1, 1, (1 / 16)%R) ].

Definition jarvis_judice_ninke_kernel : list (Z * Z * R) :=
  [ (1, 0, (7 / 48)%R); (2, 0, (5 / 48)%R);
    (-2, 1, (3 / 48)%R); (-1, 1, (5 / 48)%R); (0, 1, (7 / 48)%R); (1, 1, (5 / 48)%R);
    (2, 1, (3 / 48)%R);
    (-2, 2, (1 / 48)%R); (-1, 2, (3 / 48)%R); (0, 2, (5 / 48)%R); (1, 2, (3 / 48)%R);
    (2, 2, (1 / 48)%R) ].

Definition error_kernel (method : string) : list (Z * Z * R) :=
  if String.eqb method "floyd_steinberg_7color" then floyd_steinberg_kernel
  else if String.eqb method "jarvis_judice_ninke_7color"
       then jarvis_judice_ninke_kernel
       else floyd_steinberg_kernel.

(** The columns of row [y] in the order the inner loop visits them. *)
Definition x_range (y width : Z) : list Z :=
  if y mod 2 =? 0 then py_range 0 width 1 else py_range_down (width - 1).

(** The pixel a kernel entry [(dx, dy, _)] sends error to from [(x, y)]. *)
Definition neighbor (x y dx dy : Z) : Z * Z :=
  let nx := x + dx in
  let ny := y + dy in
  let nx := if y mod 2 =? 1 then x - dx else nx in
  (nx, ny).

(** One turn of the loop over the kernel: the bounds test, the in-place
    addition and the in-place clip of the target pixel. *)
Definition distribute_error (width height x y : Z) (error_rgb : rgbf)
    (k : Z * Z * R) (img_array : grid rgbf) : result (grid rgbf) :=
  let '(dx, dy, weight) := k in
  let '(nx, ny) := neighbor x y dx dy in
  if (0 <=? nx) && (nx <? width) && (0 <=? ny) && (ny <? height) then
    v ← grid_get img_array ny nx;
    img_array ← grid_set img_array ny nx (px_add_scaled v error_rgb weight);
    v ← grid_get img_array ny nx;
    grid_set img_array ny nx (clip_px v)
  else Ok img_array.

(** The state of the pixel loop.  The counters [cache_hits],
    [cache_misses] and [processed_pixels] only feed the progress messages
    and are left out. *)
Record dither_state : Type := {
  img_array : grid rgbf;
  output_array : grid rgb;
  local_cache : gmap rgb rgb
}.

Definition dither_pixel (self : SevenColorMapper) (kernel : list (Z * Z * R))
    (width height y x : Z) (st : dither_state) : result dither_state :=
  v ← grid_get (img_array st) y x;
  let current_rgb := astype_int_px (clip_px v) in
  '(closest_rgb, cache) ←
    match local_cache st !! current_rgb with
    | Some c => Ok (c, local_cache st)
    | None =>
        closest ← find_closest_eink_color self current_rgb true;
        '(_, c, _) ← unpack closest;
        Ok (c, <[current_rgb := c]> (local_cache st))
    end;
  out ← grid_set (output_array st) y x closest_rgb;
  v ← grid_get (img_array st) y x;
  let error_rgb := px_sub v (to_float closest_rgb) in
  arr ← for_each kernel (distribute_error width height x y error_rgb)
          (img_array st);
  Ok {| img_array := arr; output_array := out; local_cache := cache |}.

(** The test that guards the progress message of row [y]:
    [current_time - last_progress_time >= 3.0 or y % (height // 4) == 0].
    [elapsed y] says whether three seconds have passed; when they have
    not, the remainder is evaluated, and a zero divisor raises. *)
Definition progress_due (elapsed : Z -> bool) (y height : Z) : result bool :=
  if elapsed y then Ok true
  else if height / 4 =? 0 then Raise ZeroDivisionError
  else Ok (y mod (height / 4) =? 0).

(** The rows loop of the Python path, from a given state. *)
Definition dither_rows (self : SevenColorMapper) (elapsed : Z -> bool)
    (kernel : list (Z * Z * R)) (width height : Z) (rows : list Z)
    (st : dither_state) : result dither_state :=
  for_each rows (fun y st =>
    _ ← progress_due elapsed y height;
    for_each (x_range y width) (dither_pixel self kernel width height y) st)
  st.

Definition python_dithering (self : SevenColorMapper) (elapsed : Z -> bool)
    (image : grid rgb) (method : string) : result (grid rgb) :=
  let buffer := np_array_float32 image in
  let '(height, width) := shape buffer in
  let zeros := np_zeros height width in
  if String.eqb method "simple" then quantize_image self image "simple"
  else
    let kernel := error_kernel method in
    st ← dither_rows self elapsed kernel width height (py_range 0 height 1)
           {| img_array := buffer;
              output_array := zeros;
              local_cache := ∅ |};
    Ok (output_array st).

(** The accelerated attempt: [Some out] when the backend returned, [None]
    when the handler ran to its end and control falls through. *)
Definition fast_attempt (fd : backend) (img_array : grid rgbf)
    (method : string) : result (option (grid rgb)) :=
  try_except
    (out ←
       (if String.eqb method "jarvis_judice_ninke_7color"
        then jarvis_judice_ninke_dither fd img_array
        else if String.eqb method "floyd_steinberg_7color"
             then floyd_steinberg_dither fd img_array
             else jarvis_judice_ninke_dither fd img_array);
     Ok (Some out))
    (fun e => _ ← logging_call (module_globals true); Ok None).

Definition quantize_image_advanced_dithering (self : SevenColorMapper)
    (elapsed : Z -> bool) (image : grid rgb) (method : string)
  : result (grid rgb) :=
  let img_array := np_array_float32 image in
  fast ← match fast_ditherer self with
         | Some fd => fast_attempt fd img_array method
         | None => Ok None
         end;
  match fast with
  | Some out => Ok out
  | None => python_dithering self elapsed image method
  end.

(** ** Random-threshold mode *)

Definition rgb_ltb (c1 c2 : rgb) : bool :=
  let '(r1, g1, b1) := c1 in
  let '(r2, g2, b2) := c2 in
  if r1 =? r2 then (if g1 =? g2 then b1 <? b2 else g1 <? g2) else r1 <? r2.

(** [t1 < t2] on the tuples [(distance, name, eink_rgb)]: the first
    component that differs decides. *)
Definition distance_entry_ltb (t1 t2 : R * string * rgb) : bool :=
  let '(d1, n1, c1) := t1 in
  let '(d2, n2, c2) := t2 in
  if Req_dec_T d1 d2
  then (if String.eqb n1 n2 then rgb_ltb c1 c2 else String.ltb n1 n2)
  else Rltb d1 d2.

Fixpoint insert_sorted (t : R * string * rgb) (l : list (R * string * rgb))
  : list (R * string * rgb) :=
  match l with
  | [] => [t]
  | h :: l' =>
      if distance_entry_ltb t h then t :: h :: l' else h :: insert_sorted t l'
  end.

(** [distances.sort()]: a stable sort. *)
Definition list_sort (l : list (R * string * rgb)) : list (R * string * rgb) :=
  fold_left (fun acc t => insert_sorted t acc) l [].

(** [l[i]]. *)
Definition list_index {A} (l : list A) (i : nat) : result A :=
  match l !! i with
  | Some a => Ok a
  | None => Raise IndexError
  end.

Section BlueNoise.
(** NumPy's global generator: its state, [np.random.seed] and
    [np.random.random]. *)
Variable rng_state : Type.
Variable np_random_seed : Z -> rng_state.
Variable np_random_random : rng_state -> R * rng_state.

Definition two_closest (c : rgb)
  : result ((R * string * rgb) * (R * string * rgb)) :=
  distances ←
    for_each EINK_COLORS
      (fun '(name, eink_rgb) distances =>
         lab1 ← _rgb_to_lab c;
         lab2 ← _rgb_to_lab eink_rgb;
         let distance := _delta_e_ciede2000 lab1 lab2 in
         Ok (distances ++ [(distance, name, eink_rgb)]))
      [];
  let distances := list_sort distances in
  closest ← list_index distances 0;
  second_closest ←
    (if (1 <? length distances)%nat then list_index distances 1
     else list_index distances 0);
  Ok (closest, second_closest).

(** The generator is global state: the function takes the state it finds
    and returns the state it leaves. *)
Definition quantize_image_blue_noise (self : SevenColorMapper)
    (rng : rng_state) (image : grid rgb) : result (grid rgb * rng_state) :=
  let img_array := image in
  let '(height, width) := shape img_array in
  let output_array := np_zeros height width in
  let rng := np_random_seed 42 in
  for_each (py_range 0 height 1) (fun y st =>
    for_each (py_range 0 width 1) (fun x '(output_array, rng) =>
      c ← grid_get img_array y x;
      '(closest, second_closest) ← two_closest c;
      let '(threshold, rng) := np_random_random rng in
      output_array ←
        (if Rltb threshold 0.7 then grid_set output_array y x (snd closest)
         else grid_set output_array y x (snd second_closest));
      Ok (output_array, rng))
    st)
  (output_array, rng).
End BlueNoise.

(** ** The palette for the display driver *)

(** [list(self.COLOR_INDICES.values())]. *)
Definition get_palette_for_waveshare : list Z := map snd COLOR_INDICES.

(** ** Colour statistics *)

(** [colors.sort(key=lambda x: x[0], reverse=True)]: a stable sort by
    decreasing count; entries of equal count keep their order. *)
Fixpoint insert_by_count (t : Z * rgb) (l : list (Z * rgb))
  : list (Z * rgb) :=
  match l with
  | [] => [t]
  | h :: l' =>
      if fst h <? fst t then t :: h :: l' else h :: insert_by_count t l'
  end.

Definition sort_by_count_reverse (colors : list (Z * rgb)) : list (Z * rgb) :=
  fold_left (fun acc t => insert_by_count t acc) colors [].

(** [l[:stop]]: a negative [stop] counts from the end. *)
Definition py_slice_to {A} (l : list A) (stop : Z) : list A :=
  if stop <? 0 then take (length l - Z.to_nat (- stop)) l
  else take (Z.to_nat stop) l.

(** [analyze_image_colors(image, top_n)].  The image is an RGB image and
    enters through its method [getcolors], which returns [None] or a list
    of [(count, colour)] pairs. *)
Definition analyze_image_colors (getcolors : Z -> option (list (Z * rgb)))
    (top_n : Z) : list (rgb * Z) :=
  match getcolors (256 * 256 * 256) with
  | None => []
  | Some colors =>
      let colors := sort_by_count_reverse colors in
      map (fun color => (snd color, fst color)) (py_slice_to colors top_n)
  end.

(** ** Preview and comparison images *)

Section Pillow.
(** The imaging library: its image type, [Image.new('RGB', size, color)]
    (which can raise), [image.size], [image.paste(other, (x, y))] as the
    image it leaves, and [image.getpixel((x, y))]. *)
Variable Image : Type.
Variable Image_new : Z * Z -> rgb -> result Image.
Variable Image_size : Image -> Z * Z.
Variable Image_paste : Image -> Image -> Z * Z -> Image.
Variable Image_getpixel : Image -> Z * Z -> option rgb.

(** [create_color_preview(width, height)]; ['white'] is (255, 255, 255). *)
Definition create_color_preview (width height : Z) : result Image :=
  preview ← Image_new (width, height) (255, 255, 255);
  let color_width := width / Z.of_nat (length EINK_COLORS) in
  let x_offset := 0 in
  '(preview, _) ←
    for_each EINK_COLORS
      (fun '(name, c) '(preview, x_offset) =>
         color_block ← Image_new (color_width, height) c;
         let preview := Image_paste preview color_block (x_offset, 0) in
         Ok (preview, x_offset + color_width))
      (preview, x_offset);
  Ok preview.

(** [create_color_comparison(original, quantized)]. *)
Definition create_color_comparison (original quantized : Image)
  : result Image :=
  let '(width, height) := Image_size original in
  comparison ← Image_new (width * 2, height) (255, 255, 255);
  let comparison := Image_paste comparison original (0, 0) in
  let comparison := Image_paste comparison quantized (width, 0) in
  Ok comparison.
End Pillow.

(** ** The scan order *)

(** The pixels [(x, y)] in the order in which the rows loop and the columns
    loop of the Python path visit them. *)
Definition scan_order (width height : Z) : list (Z * Z) :=
  concat (map (fun y => map (fun x => (x, y)) (x_range y width))
              (py_range 0 height 1)).

(** The rank of [(x, y)] in that order. *)
Definition scan_index (width x y : Z) : Z :=
  y * width + (if y mod 2 =? 0 then x else width - 1 - x).

(** ** Predicates used in the statements *)

(** What the matcher can return: a palette colour with its index. *)
Definition is_palette_entry (e : match_entry) : Prop :=
  let '(n, c, i) := e in (n, c) ∈ EINK_COLORS /\ dict_get COLOR_INDICES n = Ok i.

Definition valid_color_list (l : list palette_entry) : Prop :=
  Forall (fun '(n, c, _) => (n, c) ∈ EINK_COLORS) l.

(** Every stored entry is what the direct scan with the default metric
    returns on its key. *)
Definition cache_sound (self0 : SevenColorMapper)
    (cache : gmap rgb match_entry) : Prop :=
  forall k e, cache !! k = Some e ->
    _find_closest_eink_color_direct self0 k true = Ok (Some e).

Definition cache_covers (D : rgb -> Prop) (cache : gmap rgb match_entry)
  : Prop :=
  forall k, D k -> is_Some (cache !! k).

(** The keys of the lookup table: every channel in [range(0, 256, 4)]. *)
Definition table_key (k : rgb) : Prop :=
  let '(r, g, b) := k in
  r ∈ py_range 0 256 4 /\ g ∈ py_range 0 256 4 /\ b ∈ py_range 0 256 4.

Definition build_inv (self0 : SevenColorMapper) (D : rgb -> Prop)
    (self : SevenColorMapper) : Prop :=
  eink_color_list self = eink_color_list self0
  /\ fast_ditherer self = fast_ditherer self0
  /\ cache_sound self0 (_color_cache self)
  /\ cache_covers D (_color_cache self).

(** A mapper as the constructor leaves it. *)
Definition wf_mapper (self : SevenColorMapper) : Prop :=
  valid_color_list (eink_color_list self)
  /\ eink_color_list self <> []
  /\ cache_sound self (_color_cache self)
  /\ cache_covers table_key (_color_cache self).

(** Every row of the array has [w] columns. *)
Definition rectangular {A} (w : nat) (g : grid A) : Prop :=
  Forall (fun row => length row = w) g.

(** One of the seven palette colours. *)
Definition palette_rgb (c : rgb) : Prop := c ∈ map snd EINK_COLORS.

(** A working value inside the valid channel range. *)
Definition in_range (v : R) : Prop := (0 <= v <= 255)%R.

Definition in_range_px (v : rgbf) : Prop :=
  let '(r, g, b) := v in in_range r /\ in_range g /\ in_range b.

(** An 8-bit pixel. *)
Definition u8 (c : rgb) : Prop :=
  let '(r, g, b) := c in 0 <= r <= 255 /\ 0 <= g <= 255 /\ 0 <= b <= 255.

(** The body of the pixel loop, on a position of the scan order. *)
Definition pixel_step (self : SevenColorMapper) (kernel : list (Z * Z * R))
    (width height : Z) (p : Z * Z) (st : dither_state) : result dither_state :=
  dither_pixel self kernel width height (snd p) (fst p) st.

(** The state of the pixel loop before the first pixel. *)
Definition initial_state (image : grid rgb) : dither_state :=
  {| img_array := np_array_float32 image;
     output_array :=
       np_zeros (fst (shape (np_array_float32 image)))
                (snd (shape (np_array_float32 image)));
     local_cache := ∅ |}.

(** Both arrays of the pixel loop keep the shape [h] x [w]. *)
Definition dither_inv (w h : nat) (st : dither_state) : Prop :=
  length (img_array st) = h /\ rectangular w (img_array st)
  /\ length (output_array st) = h /\ rectangular w (output_array st).

(** The mapper of a process in which [fast_dither] could not be imported. *)
Definition default_mapper : SevenColorMapper :=
  match __init__ None with
  | Ok self => self
  | Raise _ =>
      {| eink_color_list := []; _color_cache := ∅; fast_ditherer := None |}
  end.

(** A mapper built in a process where the extension module imports and
    its constructor behaves as [fast_dither] says. *)
Definition constructed_mapper (fast_dither : option (result backend))
  : SevenColorMapper :=
  match __init__ fast_dither with
  | Ok self => self
  | Raise _ =>
      {| eink_color_list := []; _color_cache := ∅; fast_ditherer := None |}
  end.

(** The state of the direct scan after the entries [done]: the running
    minimum is the distance [D] of the first entry that attains the least
    distance among them. *)
Definition scan_inv (D : lab -> R) (done : list palette_entry)
    (st : bound * option match_entry) : Prop :=
  match st with
  | (inf, None) => done = []
  | (fin d, Some (name, rgb_val, index)) =>
      exists before lab_val after,
        done = before ++ (name, rgb_val, lab_val) :: after
        /\ d = D lab_val
        /\ dict_get COLOR_INDICES name = Ok index
        /\ (forall e, e ∈ before -> (D lab_val < D e.2)%R)
        /\ (forall e, e ∈ after -> (D lab_val <= D e.2)%R)
  | _ => False
  end.

(** A LAB triple inside a box. *)
Definition lab_box (l : lab) (L1 L2 a1 a2 b1 b2 : R) : Prop :=
  (L1 <= l.1.1 <= L2 /\ a1 <= l.1.2 <= a2 /\ b1 <= l.2 <= b2)%R.

(** The key under which the cached matcher looks a colour up:
    [(rgb[i] // 4) * 4] on the three channels. *)
Definition cache_key_of (c : rgb) : rgb :=
  let '(r, g, b) := c in (r / 4 * 4, g / 4 * 4, b / 4 * 4).

(** The pixel of row [y], column [x], if there is one. *)
Definition pixel_at {A} (g : grid A) (y x : nat) : option A :=
  match g !! y with
  | Some row => row !! x
  | None => None
  end.

(** The output pixel at [(y, x)] is what [choose] makes of the input pixel
    there. *)
Definition chosen_at (choose : rgb -> result rgb) (image out : grid rgb)
    (y x : nat) : Prop :=
  forall c, pixel_at image y x = Some c ->
    exists c', choose c = Ok c' /\ pixel_at out y x = Some c'.

(** The sum of the weights of a kernel. *)
Definition total_weight (kernel : list (Z * Z * R)) : R :=
  fold_right Rplus 0%R (map snd kernel).

(** Every entry of the per-call memo is what the cached matcher answers
    on its key. *)
Definition memo_agrees (self : SevenColorMapper) (cache : gmap rgb rgb)
  : Prop :=
  forall k c, cache !! k = Some c ->
    exists name index,
      find_closest_eink_color self k true = Ok (Some (name, c, index)).

(** What the pixel loop keeps, on top of the shapes: working values in
    range, a memo that agrees with the matcher, palette colours only in the
    output. *)
Definition dither_sound (self : SevenColorMapper) (w h : nat)
    (st : dither_state) : Prop :=
  dither_inv w h st
  /\ Forall (Forall in_range_px) (img_array st)
  /\ memo_agrees self (local_cache st)
  /\ Forall (Forall palette_rgb) (output_array st).

(** The order of [distances.sort()] on the first component. *)
Definition distance_le (t1 t2 : R * string * rgb) : Prop :=
  (t1.1.1 <= t2.1.1)%R.

(** The entry of [distances] for the palette colour [(name, eink_rgb)]. *)
Definition distance_entry (c : rgb) (name : string) (eink_rgb : rgb)
  : R * string * rgb :=
  (_delta_e_ciede2000 (spec_rgb_to_lab c) (spec_rgb_to_lab eink_rgb),
   name, eink_rgb).

(** ** Concrete inputs *)

(** An accelerated backend whose two entry points raise. *)
Definition failing_backend : backend :=
  {| jarvis_judice_ninke_dither := fun _ => Raise (BackendError "MemoryError");
     floyd_steinberg_dither := fun _ => Raise (BackendError "MemoryError") |}.

(** Two mid-grey pixels side by side: width 2, height 1. *)
Definition gray_2x1 : grid rgb := [ [ (128, 128, 128); (128, 128, 128) ] ].

(** A run in which no row waits three seconds for its progress message. *)
Definition never_elapsed : Z -> bool := fun _ => false.

(** A small linear congruential generator, to instantiate the statements
    about the random-threshold mode at a concrete generator. *)
Definition lcg_seed (seed : Z) : Z := seed mod 2147483648.

Definition lcg_random (state : Z) : R * Z :=
  let state' := (1103515245 * state + 12345) mod 2147483648 in
  ((IZR state' / 2147483648)%R, state').

(** An accelerated backend whose two entry points return an all-black
    array of the input's shape. *)
Definition black_backend : backend :=
  {| jarvis_judice_ninke_dither :=
       fun arr => Ok (np_zeros (fst (shape arr)) (snd (shape arr)));
     floyd_steinberg_dither :=
       fun arr => Ok (np_zeros (fst (shape arr)) (snd (shape arr))) |}.

(** A concrete raster image, to instantiate the statements about the
    imaging library: a size and a colour for every position. *)
Definition raster : Type := Z * Z * (Z -> Z -> rgb).

Definition raster_new (size : Z * Z) (c : rgb) : result raster :=
  let '(w, h) := size in
  if (0 <=? w) && (0 <=? h) then Ok (w, h, fun _ _ => c)
  else Raise (BackendError "ValueError").

Definition raster_size (im : raster) : Z * Z := im.1.

Definition raster_paste (dst src : raster) (box : Z * Z) : raster :=
  let '(x0, y0) := box in
  let '(w, h, px) := src in
  let '(W, H, PX) := dst in
  (W, H,
   fun x y =>
     if (x0 <=? x) && (x <? x0 + w) && (y0 <=? y) && (y <? y0 + h)
     then px (x - x0) (y - y0) else PX x y).

Definition raster_getpixel (im : raster) (xy : Z * Z) : option rgb :=
  let '(x, y) := xy in
  let '(w, h, px) := im in
  if (0 <=? x) && (x <? w) && (0 <=? y) && (y <? h) then Some (px x y)
  else None.

(** * Properties *)

Ltac rsimpl := cbn [mbind result_bind mret result_ret bind].

(** Linear integer arithmetic with [//] and [%] by constants. *)
Ltac zlia := Z.to_euclidean_division_equations; lia.

Section Conversion.
Local Open Scope R_scope.

Lemma float_pow_pos (x y : R) : 0 < x -> float_pow x y = Ok (Rpower x y).
Proof. intros Hx. unfold float_pow. destruct (Rlt_dec 0 x); [done | lra]. Qed.

Lemma gamma_correct_total (c : R) : gamma_correct c = Ok (spec_gamma_decode c).
Proof.
  unfold gamma_correct, spec_gamma_decode.
  destruct (Rlt_dec 0.04045 c) as [Hc | Hc]; [| done].
  apply float_pow_pos. apply Rdiv_lt_0_compat; lra.
Qed.

Lemma lab_f_total (t : R) : lab_f t = Ok (spec_cie_f t).
Proof.
  unfold lab_f, spec_cie_f.
  destruct (Rlt_dec 0.008856 t) as [Ht | Ht]; [| done].
  apply float_pow_pos. lra.
Qed.

Lemma rgb_to_lab_total (c : rgb) : _rgb_to_lab c = Ok (spec_rgb_to_lab c).
Proof.
  destruct c as [[r g] b]. unfold _rgb_to_lab, spec_rgb_to_lab.
  rewrite !gamma_correct_total. rsimpl.
  rewrite !lab_f_total. rsimpl.
  replace 1.00000 with 1.0 by lra. reflexivity.
Qed.

(** C3: on every triple of integer channels (in particular on every 8-bit
    triple) [_rgb_to_lab] raises nothing and returns exactly the value of
    the specified algorithm: normalisation by 255, sRGB gamma decoding,
    the sRGB to XYZ matrix, division by the D65 white point, the CIE
    [f] nonlinearity, and [L = 116 fy - 16], [a = 500 (fx - fy)],
    [b = 200 (fy - fz)]. *)
Theorem rgb_to_lab_refines_spec (c : rgb) :
  _rgb_to_lab c = Ok (spec_rgb_to_lab c).
Proof. apply rgb_to_lab_total. Qed.
End Conversion.

Section Metric.
Local Open Scope R_scope.

Lemma py_max_Rmax (a b : R) : py_max a b = Rmax a b.
Proof.
  unfold py_max, Rmax.
  destruct (Rlt_dec a b), (Rle_dec a b); try reflexivity; lra.
Qed.

Lemma unit_weight (x : R) : x / 1.0 = x.
Proof. lra. Qed.

Lemma pow2_mult (x : R) : x ^ 2 = x * x.
Proof. ring. Qed.

Lemma delta_e_ciede2000_unfold (lab1 lab2 : lab) :
  _delta_e_ciede2000 lab1 lab2 = spec_simplified_ciede2000 lab1 lab2.
Proof.
  destruct lab1 as [[L1 a1] b1], lab2 as [[L2 a2] b2].
  unfold _delta_e_ciede2000, spec_simplified_ciede2000.
  cbv zeta. rewrite py_max_Rmax, !unit_weight, !pow2_mult. reflexivity.
Qed.

(** C4: the metric the code calls CIEDE2000 is exactly the simplified
    formula: chroma [C = sqrt (a^2 + b^2)], [dL = L2 - L1],
    [dC = C2 - C1], [dH = sqrt (max 0 (da^2 + db^2 - dC^2))], result
    [sqrt (dL^2 + dC^2 + dH^2)] with unit weights and no rotation or
    neutral-colour term. *)
Theorem delta_e_ciede2000_is_simplified (lab1 lab2 : lab) :
  _delta_e_ciede2000 lab1 lab2 = spec_simplified_ciede2000 lab1 lab2.
Proof. apply delta_e_ciede2000_unfold. Qed.
End Metric.

(** ** Loops *)

Section Loops.
Context {A S : Type}.

(** The invariant rule for a [for] loop whose body never raises: [P done]
    holds of the state after the elements [done] have been processed. *)
Lemma for_each_invariant (P : list A -> S -> Prop)
    (body : A -> S -> result S) (xs : list A) (s : S) :
  P [] s ->
  (forall done x s, P done s -> x ∈ xs ->
     exists s', body x s = Ok s' /\ P (done ++ [x]) s') ->
  exists s', for_each xs body s = Ok s' /\ P xs s'.
Proof.
  revert P s. induction xs as [| x xs IH]; intros P s H0 Hstep.
  - exists s. done.
  - destruct (Hstep [] x s H0) as (s1 & E1 & P1); [left |].
    destruct (IH (fun done => P (x :: done)) s1) as (s2 & E2 & P2).
    + exact P1.
    + intros done y s' HP Hy.
      destruct (Hstep (x :: done) y s' HP) as (s'' & ? & ?); [by right |].
      by exists s''.
    + exists s2. cbn [for_each]. rewrite E1. rsimpl. done.
Qed.

Lemma for_each_app (body : A -> S -> result S) (xs ys : list A) (s : S) :
  for_each (xs ++ ys) body s = (s' ← for_each xs body s; for_each ys body s').
Proof.
  revert s. induction xs as [| x xs IH]; intros s; [done |].
  cbn [for_each app]. destruct (body x s) as [s1 | e]; rsimpl; [apply IH | done].
Qed.
End Loops.

(** ** The direct scan *)

Lemma palette_name_has_index (n : string) (c : rgb) :
  (n, c) ∈ EINK_COLORS -> exists i, dict_get COLOR_INDICES n = Ok i.
Proof.
  unfold EINK_COLORS. rewrite !elem_of_cons, elem_of_nil.
  intros H. repeat destruct H as [H | H]; try done;
    injection H as -> _; eexists; reflexivity.
Qed.

Lemma direct_total (self : SevenColorMapper) (c : rgb) (use_ciede2000 : bool) :
  valid_color_list (eink_color_list self) ->
  eink_color_list self <> [] ->
  exists e, _find_closest_eink_color_direct self c use_ciede2000 = Ok (Some e)
            /\ is_palette_entry e.
Proof.
  intros Hv Hne. unfold _find_closest_eink_color_direct.
  rewrite rgb_to_lab_total. rsimpl.
  match goal with
  | |- context [@for_each ?A ?S _ ?body ?s0] =>
      destruct (for_each_invariant (A:=A) (S:=S)
        (fun done st =>
           match st with
           | (inf, None) => done = []
           | (fin _, Some e) => is_palette_entry e
           | _ => False
           end) body (eink_color_list self) s0) as (st & E & HP)
  end.
  - done.
  - intros done [[n rgb_val] lab_val] [m cl] HP Hin.
    unfold valid_color_list in Hv. rewrite Forall_forall in Hv.
    specialize (Hv _ Hin). cbn in Hv.
    destruct (palette_name_has_index _ _ Hv) as [i Hi].
    destruct (below _ m) eqn:Hb.
    + rewrite Hi. rsimpl. eexists. split; [done |]. cbn. done.
    + eexists. split; [done |].
      destruct m as [| d]; [done |]. destruct cl; done.
  - destruct st as [[| d] [e |]]; try done.
    exists e. rewrite E. done.
Qed.

Lemma direct_depends_on_list (self self' : SevenColorMapper) (c : rgb)
    (use_ciede2000 : bool) :
  eink_color_list self = eink_color_list self' ->
  _find_closest_eink_color_direct self c use_ciede2000
  = _find_closest_eink_color_direct self' c use_ciede2000.
Proof. intros E. unfold _find_closest_eink_color_direct. by rewrite E. Qed.

(** ** Building the lookup table *)

Section BuildTable.
Variable self0 : SevenColorMapper.
Hypothesis Hvalid : valid_color_list (eink_color_list self0).
Hypothesis Hne : eink_color_list self0 <> [].

Lemma build_inv_weaken (D D' : rgb -> Prop) (self : SevenColorMapper) :
  (forall k, D' k -> D k) -> build_inv self0 D self -> build_inv self0 D' self.
Proof.
  intros HD (Hl & Hf & Hs & Hc). repeat split; try done.
  intros k Hk. apply Hc, HD, Hk.
Qed.

Lemma build_step (D : rgb -> Prop) (r g b : Z) (self : SevenColorMapper) :
  build_inv self0 D self ->
  exists self',
    (closest ← _find_closest_eink_color_direct self (r, g, b) true;
     '(closest_name, closest_rgb, closest_index) ← unpack closest;
     Ok (set_color_cache self
           (<[(r, g, b) := (closest_name, closest_rgb, closest_index)]>
              (_color_cache self)))) = Ok self'
    /\ build_inv self0 (fun k => D k \/ k = (r, g, b)) self'.
Proof.
  intros (Hl & Hf & Hs & Hc).
  rewrite (direct_depends_on_list self self0) by done.
  destruct (direct_total self0 (r, g, b) true Hvalid Hne) as ([[n c] i] & E & _).
  rewrite E. rsimpl. cbn [unpack]. rsimpl.
  eexists. split; [reflexivity |].
  repeat split; cbn; try done.
  - intros k e. rewrite lookup_insert. case_decide as Hk.
    + intros [= <-]. by subst k.
    + apply Hs.
  - intros k [Hk | ->].
    + rewrite lookup_insert. case_decide; [done | by apply Hc].
    + rewrite lookup_insert_eq. done.
Qed.

Lemma build_loop_b (D : rgb -> Prop) (r g : Z) (bs : list Z)
    (self : SevenColorMapper) :
  build_inv self0 D self ->
  exists self',
    for_each bs (fun b self =>
      let c := (r, g, b) in
      closest ← _find_closest_eink_color_direct self c true;
      '(closest_name, closest_rgb, closest_index) ← unpack closest;
      Ok (set_color_cache self
            (<[c := (closest_name, closest_rgb, closest_index)]>
               (_color_cache self)))) self = Ok self'
    /\ build_inv self0
         (fun k => D k \/ exists b, b ∈ bs /\ k = (r, g, b)) self'.
Proof.
  intros Hinv.
  apply (for_each_invariant
           (fun done => build_inv self0
              (fun k => D k \/ exists b, b ∈ done /\ k = (r, g, b)))).
  - revert Hinv. apply build_inv_weaken.
    intros k [? | (b & Hb & _)]; [done | by apply elem_of_nil in Hb].
  - intros done b s Hs _.
    destruct (build_step _ r g b s Hs) as (s' & E & Hs').
    exists s'. split; [exact E |].
    revert Hs'. apply build_inv_weaken.
    intros k [? | (b' & Hb' & ->)]; [by left; left |].
    apply elem_of_app in Hb' as [Hb' | Hb'].
    + left; right. by exists b'.
    + apply list_elem_of_singleton in Hb' as ->. by right.
Qed.

Lemma build_loop_g (D : rgb -> Prop) (r : Z) (gs bs : list Z)
    (self : SevenColorMapper) :
  build_inv self0 D self ->
  exists self',
    for_each gs (fun g self =>
      for_each bs (fun b self =>
        let c := (r, g, b) in
        closest ← _find_closest_eink_color_direct self c true;
        '(closest_name, closest_rgb, closest_index) ← unpack closest;
        Ok (set_color_cache self
              (<[c := (closest_name, closest_rgb, closest_index)]>
                 (_color_cache self)))) self) self = Ok self'
    /\ build_inv self0
         (fun k => D k \/ exists g b, g ∈ gs /\ b ∈ bs /\ k = (r, g, b))
         self'.
Proof.
  intros Hinv.
  apply (for_each_invariant
           (fun done => build_inv self0
              (fun k => D k \/
                 exists g b, g ∈ done /\ b ∈ bs /\ k = (r, g, b)))).
  - revert Hinv. apply build_inv_weaken.
    intros k [? | (g & b & Hg & _)]; [done | by apply elem_of_nil in Hg].
  - intros done g s Hs _.
    destruct (build_loop_b _ r g bs s Hs) as (s' & E & Hs').
    exists s'. split; [exact E |].
    revert Hs'. apply build_inv_weaken.
    intros k [? | (g' & b' & Hg' & Hb' & ->)]; [by left; left |].
    apply elem_of_app in Hg' as [Hg' | Hg'].
    + left; right. by exists g', b'.
    + apply list_elem_of_singleton in Hg' as ->. right. by exists b'.
Qed.

Lemma build_loop_r (D : rgb -> Prop) (rs gs bs : list Z)
    (self : SevenColorMapper) :
  build_inv self0 D self ->
  exists self',
    for_each rs (fun r self =>
      for_each gs (fun g self =>
        for_each bs (fun b self =>
          let c := (r, g, b) in
          closest ← _find_closest_eink_color_direct self c true;
          '(closest_name, closest_rgb, closest_index) ← unpack closest;
          Ok (set_color_cache self
                (<[c := (closest_name, closest_rgb, closest_index)]>
                   (_color_cache self)))) self) self) self = Ok self'
    /\ build_inv self0
         (fun k => D k \/
            exists r g b, r ∈ rs /\ g ∈ gs /\ b ∈ bs /\ k = (r, g, b))
         self'.
Proof.
  intros Hinv.
  apply (for_each_invariant
           (fun done => build_inv self0
              (fun k => D k \/
                 exists r g b,
                   r ∈ done /\ g ∈ gs /\ b ∈ bs /\ k = (r, g, b)))).
  - revert Hinv. apply build_inv_weaken.
    intros k [? | (r & g & b & Hr & _)]; [done | by apply elem_of_nil in Hr].
  - intros done r s Hs _.
    destruct (build_loop_g _ r gs bs s Hs) as (s' & E & Hs').
    exists s'. split; [exact E |].
    revert Hs'. apply build_inv_weaken.
    intros k [? | (r' & g' & b' & Hr' & Hg' & Hb' & ->)]; [by left; left |].
    apply elem_of_app in Hr' as [Hr' | Hr'].
    + left; right. by exists r', g', b'.
    + apply list_elem_of_singleton in Hr' as ->. right. by exists g', b'.
Qed.

Lemma build_table_spec :
  _color_cache self0 = ∅ ->
  exists self',
    _build_color_lookup_table self0 = Ok self'
    /\ build_inv self0 table_key self'.
Proof.
  intros Hempty. unfold _build_color_lookup_table.
  destruct (build_loop_r (fun _ => False) (py_range 0 256 4)
              (py_range 0 256 4) (py_range 0 256 4) self0)
    as (s' & E & Hs').
  - split; [done |]. split; [done |]. split.
    + intros k e. rewrite Hempty, lookup_empty. done.
    + intros k [].
  - exists s'. split; [exact E |].
    revert Hs'. apply build_inv_weaken.
    intros [[r g] b] (Hr & Hg & Hb). right. by exists r, g, b.
Qed.
End BuildTable.

(** ** The constructor *)

Lemma init_color_list_loop (l : list (string * rgb)) (acc : list palette_entry) :
  for_each l
    (fun '(name, c) acc => l ← _rgb_to_lab c; Ok (acc ++ [(name, c, l)])) acc
  = Ok (acc ++ map (fun '(name, c) => (name, c, spec_rgb_to_lab c)) l).
Proof.
  revert acc. induction l as [| [n c] l IH]; intros acc; cbn [for_each map].
  - by rewrite app_nil_r.
  - rewrite rgb_to_lab_total. rsimpl. rewrite IH, <- app_assoc. done.
Qed.

Lemma init_color_list_valid :
  valid_color_list
    (map (fun '(name, c) => (name, c, spec_rgb_to_lab c)) EINK_COLORS).
Proof.
  unfold valid_color_list. apply Forall_forall. intros [[n c] l] Hin.
  apply list_elem_of_In, in_map_iff in Hin as ([n' c'] & [= <- <- _] & Hin).
  by apply list_elem_of_In.
Qed.

Lemma init_spec (fast_dither : option (result backend)) (m : SevenColorMapper) :
  __init__ fast_dither = Ok m ->
  wf_mapper m
  /\ fast_ditherer m = match fast_dither with
                       | Some (Ok b) => Some b
                       | _ => None
                       end.
Proof.
  unfold __init__. rewrite init_color_list_loop. rsimpl. cbn [app].
  match goal with
  | |- context [_build_color_lookup_table ?s0] =>
      destruct (build_table_spec s0) as (s' & E & Hl & Hf & Hs & Hc);
        [exact init_color_list_valid | done | done |]; rewrite E
  end.
  rsimpl. cbn [eink_color_list] in Hl.
  assert (Hwf : forall fd,
    wf_mapper {| eink_color_list := eink_color_list s';
                 _color_cache := _color_cache s';
                 fast_ditherer := fd |}).
  { intros fd. unfold wf_mapper. cbn [eink_color_list _color_cache]. rewrite Hl.
    split; [exact init_color_list_valid |]. split; [done |]. split; [| done].
    intros k e Hk. rewrite <- (Hs k e Hk).
    apply direct_depends_on_list. reflexivity. }
  destruct fast_dither as [[b | e] |]; cbn; rsimpl.
  - intros [= <-]. split; [apply Hwf | done].
  - done.
  - intros [= <-]. split; [apply Hwf | done].
Qed.

Lemma init_total (fast_dither : option (result backend)) :
  (forall e, fast_dither <> Some (Raise e)) ->
  exists m, __init__ fast_dither = Ok m.
Proof.
  intros Hok. unfold __init__. rewrite init_color_list_loop. rsimpl. cbn [app].
  match goal with
  | |- context [_build_color_lookup_table ?s0] =>
      destruct (build_table_spec s0) as (s' & E & _);
        [exact init_color_list_valid | done | done |]; rewrite E
  end.
  rsimpl. destruct fast_dither as [[b | e] |]; cbn; rsimpl.
  - by eexists.
  - by destruct (Hok e).
  - by eexists.
Qed.

Lemma default_mapper_init : __init__ None = Ok default_mapper.
Proof.
  unfold default_mapper. destruct (init_total None) as [m E]; [done |].
  by rewrite E.
Qed.

Lemma default_mapper_wf : wf_mapper default_mapper.
Proof. apply (init_spec None), default_mapper_init. Qed.

Lemma default_mapper_no_backend : fast_ditherer default_mapper = None.
Proof. apply (init_spec None default_mapper default_mapper_init). Qed.

(** ** The cached matcher *)

Lemma quantized_channel_in_range (c : Z) :
  0 <= c <= 255 -> c / 4 * 4 ∈ py_range 0 256 4.
Proof.
  intros Hc. unfold py_range. apply list_elem_of_In, in_map_iff.
  exists (Z.to_nat (c / 4)). split; [cbv beta; zlia |].
  apply in_seq. change (Z.to_nat ((256 - 0 + 4 - 1) / 4)) with 64%nat. zlia.
Qed.

Lemma find_closest_hit (m : SevenColorMapper) (r g b : Z) :
  wf_mapper m ->
  0 <= r <= 255 -> 0 <= g <= 255 -> 0 <= b <= 255 ->
  exists e,
    _color_cache m !! (r / 4 * 4, g / 4 * 4, b / 4 * 4) = Some e
    /\ _find_closest_eink_color_direct m (r / 4 * 4, g / 4 * 4, b / 4 * 4) true
       = Ok (Some e)
    /\ forall use_ciede2000,
         find_closest_eink_color m (r, g, b) use_ciede2000 = Ok (Some e).
Proof.
  intros (_ & _ & Hs & Hc) Hr Hg Hb.
  destruct (Hc (r / 4 * 4, g / 4 * 4, b / 4 * 4)) as [e He].
  { repeat split; by apply quantized_channel_in_range. }
  exists e. split; [done |]. split; [by apply Hs |].
  intros use. unfold find_closest_eink_color. cbv zeta. by rewrite He.
Qed.

Lemma find_closest_total (m : SevenColorMapper) (c : rgb) (use_ciede2000 : bool) :
  wf_mapper m ->
  exists e, find_closest_eink_color m c use_ciede2000 = Ok (Some e)
            /\ is_palette_entry e.
Proof.
  intros (Hv & Hne & Hs & _). destruct c as [[r g] b].
  unfold find_closest_eink_color. cbv zeta.
  destruct (_color_cache m !! _) as [e |] eqn:He.
  - exists e. split; [done |]. apply Hs in He.
    destruct (direct_total m (r / 4 * 4, g / 4 * 4, b / 4 * 4) true Hv Hne)
      as (e' & E' & Hp).
    rewrite He in E'. by injection E' as ->.
  - by apply direct_total.
Qed.

(** C6: on every grid-aligned 8-bit colour (each channel a multiple of the
    cache step 4) the cached matcher returns exactly the palette entry
    (name, RGB, index) that the direct scan returns, whatever metric flag
    the cached matcher is given. *)
Theorem cached_agrees_with_direct_on_grid (fast_dither : option (result backend))
    (m : SevenColorMapper) (r g b : Z) (use_ciede2000 : bool) :
  __init__ fast_dither = Ok m ->
  0 <= r <= 255 -> 0 <= g <= 255 -> 0 <= b <= 255 ->
  r mod 4 = 0 -> g mod 4 = 0 -> b mod 4 = 0 ->
  exists e,
    find_closest_eink_color m (r, g, b) use_ciede2000 = Ok (Some e)
    /\ _find_closest_eink_color_direct m (r, g, b) true = Ok (Some e)
    /\ is_palette_entry e.
Proof.
  intros Hinit Hr Hg Hb Ar Ag Ab.
  destruct (init_spec _ _ Hinit) as [Hwf _].
  destruct (find_closest_hit m r g b Hwf Hr Hg Hb) as (e & _ & Hd & Hf).
  replace (r / 4 * 4) with r in Hd by zlia.
  replace (g / 4 * 4) with g in Hd by zlia.
  replace (b / 4 * 4) with b in Hd by zlia.
  exists e. split; [apply Hf |]. split; [exact Hd |].
  destruct Hwf as (Hv & Hne & _).
  destruct (direct_total m (r, g, b) true Hv Hne) as (e' & E' & Hp).
  rewrite Hd in E'. by injection E' as ->.
Qed.

Lemma cached_agrees_with_direct_on_grid_witness :
  exists e,
    find_closest_eink_color default_mapper (128, 64, 252) false = Ok (Some e)
    /\ _find_closest_eink_color_direct default_mapper (128, 64, 252) true
       = Ok (Some e)
    /\ is_palette_entry e.
Proof.
  apply (cached_agrees_with_direct_on_grid None default_mapper 128 64 252 false);
    [exact default_mapper_init | lia .. | reflexivity | reflexivity | reflexivity].
Defined.

(** C10: for every 8-bit colour the quantised key [(c // 4) * 4] is in the
    table the constructor built, so the cached matcher answers from the
    table and never reaches the direct computation; the metric flag cannot
    change its answer. *)
Theorem cache_key_always_present (fast_dither : option (result backend))
    (m : SevenColorMapper) (r g b : Z) :
  __init__ fast_dither = Ok m ->
  0 <= r <= 255 -> 0 <= g <= 255 -> 0 <= b <= 255 ->
  (exists e,
     _color_cache m !! (r / 4 * 4, g / 4 * 4, b / 4 * 4) = Some e
     /\ forall use_ciede2000,
          find_closest_eink_color m (r, g, b) use_ciede2000 = Ok (Some e))
  /\ find_closest_eink_color m (r, g, b) true
     = find_closest_eink_color m (r, g, b) false.
Proof.
  intros Hinit Hr Hg Hb.
  destruct (init_spec _ _ Hinit) as [Hwf _].
  destruct (find_closest_hit m r g b Hwf Hr Hg Hb) as (e & He & _ & Hf).
  split; [by exists e |]. by rewrite !Hf.
Qed.

Lemma cache_key_always_present_witness :
  (exists e,
     _color_cache default_mapper !! (201 / 4 * 4, 7 / 4 * 4, 255 / 4 * 4)
     = Some e
     /\ forall use_ciede2000,
          find_closest_eink_color default_mapper (201, 7, 255) use_ciede2000
          = Ok (Some e))
  /\ find_closest_eink_color default_mapper (201, 7, 255) true
     = find_closest_eink_color default_mapper (201, 7, 255) false.
Proof.
  apply (cache_key_always_present None default_mapper 201 7 255);
    [exact default_mapper_init | lia | lia | lia].
Defined.

(** ** Ranges and arrays *)

Lemma elem_of_py_range_unit (n y : Z) : y ∈ py_range 0 n 1 <-> 0 <= y < n.
Proof.
  unfold py_range. rewrite list_elem_of_In, in_map_iff.
  replace ((n - 0 + 1 - 1) / 1) with n by (rewrite Z.div_1_r; lia).
  split.
  - intros (i & <- & Hi%in_seq). lia.
  - intros Hy. exists (Z.to_nat y). split; [lia |]. apply in_seq. lia.
Qed.

Section Arrays.
Context {A : Type}.

Lemma rectangular_lookup (w : nat) (g : grid A) (y : Z) :
  rectangular w g -> 0 <= y < Z.of_nat (length g) ->
  exists row, g !! Z.to_nat y = Some row /\ length row = w.
Proof.
  intros Hr Hy.
  destruct (lookup_lt_is_Some_2 g (Z.to_nat y)) as [row Hrow]; [lia |].
  exists row. split; [done |].
  unfold rectangular in Hr. rewrite Forall_lookup in Hr. by eapply Hr.
Qed.

Lemma grid_get_ok (w : nat) (g : grid A) (y x : Z) :
  rectangular w g ->
  0 <= y < Z.of_nat (length g) -> 0 <= x < Z.of_nat w ->
  exists row v,
    g !! Z.to_nat y = Some row /\ row !! Z.to_nat x = Some v
    /\ grid_get g y x = Ok v.
Proof.
  intros Hr Hy Hx.
  destruct (rectangular_lookup w g y Hr Hy) as (row & Hrow & Hlen).
  destruct (lookup_lt_is_Some_2 row (Z.to_nat x)) as [v Hv]; [lia |].
  exists row, v. split; [done |]. split; [done |].
  unfold grid_get.
  destruct (y <? 0) eqn:Ey; [lia |]. destruct (x <? 0) eqn:Ex; [lia |].
  cbn [orb]. by rewrite Hrow, Hv.
Qed.

Lemma grid_set_ok (w : nat) (g : grid A) (y x : Z) (v : A) :
  rectangular w g ->
  0 <= y < Z.of_nat (length g) -> 0 <= x < Z.of_nat w ->
  exists row,
    g !! Z.to_nat y = Some row
    /\ grid_set g y x v = Ok (<[Z.to_nat y := <[Z.to_nat x := v]> row]> g).
Proof.
  intros Hr Hy Hx.
  destruct (rectangular_lookup w g y Hr Hy) as (row & Hrow & Hlen).
  exists row. split; [done |]. unfold grid_set.
  destruct (y <? 0) eqn:Ey; [lia |]. destruct (x <? 0) eqn:Ex; [lia |].
  cbn [orb]. rewrite Hrow. case_decide; [done | lia].
Qed.

Lemma rectangular_insert (w : nat) (g : grid A) (i j : nat) (row : list A)
    (v : A) :
  rectangular w g -> g !! i = Some row ->
  rectangular w (<[i := <[j := v]> row]> g).
Proof.
  intros Hr Hrow. unfold rectangular in *. apply Forall_insert; [done |].
  rewrite length_insert. rewrite Forall_lookup in Hr. by eapply Hr.
Qed.

Lemma Forall2d_insert (P : A -> Prop) (g : grid A) (i j : nat)
    (row : list A) (v : A) :
  Forall (Forall P) g -> g !! i = Some row -> P v ->
  Forall (Forall P) (<[i := <[j := v]> row]> g).
Proof.
  intros Hg Hrow Hv. apply Forall_insert; [done |].
  apply Forall_insert; [| done]. rewrite Forall_lookup in Hg. by eapply Hg.
Qed.
End Arrays.

Section Preserve.
Context {A S : Type}.

(** A loop whose body keeps [Q] and never raises ends in a state with [Q]. *)
Lemma for_each_preserves (Q : S -> Prop) (body : A -> S -> result S)
    (xs : list A) (s : S) :
  Q s ->
  (forall x s, x ∈ xs -> Q s -> exists s', body x s = Ok s' /\ Q s') ->
  exists s', for_each xs body s = Ok s' /\ Q s'.
Proof.
  intros H0 Hstep. apply (for_each_invariant (fun _ => Q)); [done |].
  intros _ x s' HQ Hx. by apply Hstep.
Qed.
End Preserve.

(** ** Nearest-colour quantisation *)

Lemma palette_entry_rgb (n : string) (c : rgb) (i : Z) :
  is_palette_entry (n, c, i) -> palette_rgb c.
Proof.
  intros [Hin _]. unfold palette_rgb.
  apply list_elem_of_In, in_map_iff. exists (n, c). split; [done |].
  by apply list_elem_of_In.
Qed.

Lemma black_is_palette_rgb : palette_rgb (0, 0, 0).
Proof. unfold palette_rgb. cbn. left. Qed.

Lemma simple_closest_palette (c : rgb) : palette_rgb (simple_closest c).
Proof.
  unfold simple_closest.
  assert (H : forall (l : list (string * rgb)) (st : bound * rgb),
    (forall e, e ∈ l -> palette_rgb (snd e)) -> palette_rgb (snd st) ->
    palette_rgb (snd (fold_left
      (fun '(min_distance, closest_rgb) '(_, eink_rgb) =>
         let distance := rgb_distance c eink_rgb in
         if below distance min_distance then (fin distance, eink_rgb)
         else (min_distance, closest_rgb)) l st))).
  { induction l as [| [n e] l IH]; intros [m cl] Hl Hst; [done |].
    cbn [fold_left]. apply IH.
    - intros e' He'. apply Hl. by right.
    - cbv zeta. destruct (below _ m); [| done]. apply (Hl (n, e)). left. }
  apply H; [| exact black_is_palette_rgb].
  intros [n e] Hin. unfold palette_rgb. cbn [snd].
  apply list_elem_of_In, in_map_iff. exists (n, e). split; [done |].
  by apply list_elem_of_In.
Qed.

Lemma np_zeros_shape (h w : nat) :
  length (np_zeros (Z.of_nat h) (Z.of_nat w)) = h
  /\ rectangular w (np_zeros (Z.of_nat h) (Z.of_nat w))
  /\ Forall (Forall palette_rgb) (np_zeros (Z.of_nat h) (Z.of_nat w)).
Proof.
  unfold np_zeros, rectangular. rewrite !Nat2Z.id. split; [apply length_replicate |].
  split; apply Forall_replicate.
  - apply length_replicate.
  - apply Forall_replicate, black_is_palette_rgb.
Qed.

(** The two pixel loops of [quantize_image] share this shape: read the
    input pixel, choose a palette colour, store it. *)
Lemma quantize_loops (image : grid rgb) (w : nat)
    (choose : rgb -> result rgb) :
  rectangular w image ->
  (forall c, exists c', choose c = Ok c' /\ palette_rgb c') ->
  exists out,
    for_each (py_range 0 (Z.of_nat (length image)) 1) (fun y output_array =>
      for_each (py_range 0 (Z.of_nat w) 1) (fun x output_array =>
        c ← grid_get image y x;
        closest_rgb ← choose c;
        grid_set output_array y x closest_rgb)
      output_array)
    (np_zeros (Z.of_nat (length image)) (Z.of_nat w)) = Ok out
    /\ length out = length image
    /\ rectangular w out
    /\ Forall (Forall palette_rgb) out.
Proof.
  intros Hrect Hchoose.
  set (Q := fun out : grid rgb =>
    length out = length image /\ rectangular w out
    /\ Forall (Forall palette_rgb) out).
  apply (for_each_preserves Q); [apply np_zeros_shape |].
  intros y out Hy%elem_of_py_range_unit HQ.
  apply (for_each_preserves Q); [done |].
  intros x out' Hx%elem_of_py_range_unit (Hlen & Hr & Hp).
  destruct (grid_get_ok w image y x Hrect Hy Hx) as (row & c & _ & _ & ->).
  rsimpl. destruct (Hchoose c) as (c' & -> & Hc'). rsimpl.
  destruct (grid_set_ok w out' y x c' Hr) as (row' & Hrow' & ->); [lia | lia |].
  eexists. split; [reflexivity |]. split; [by rewrite length_insert |].
  split; [by apply rectangular_insert | by apply Forall2d_insert].
Qed.

Lemma for_each_ext {A S} (body1 body2 : A -> S -> result S) (xs : list A) (s : S) :
  (forall x s, body1 x s = body2 x s) ->
  for_each xs body1 s = for_each xs body2 s.
Proof.
  intros Hext. revert s. induction xs as [| x xs IH]; intros s; [done |].
  cbn [for_each]. rewrite Hext. destruct (body2 x s); rsimpl; [apply IH | done].
Qed.

Lemma quantize_image_spec (m : SevenColorMapper) (image : grid rgb)
    (method : string) (w : nat) :
  wf_mapper m -> rectangular w image ->
  exists out,
    quantize_image m image method = Ok out
    /\ length out = length image
    /\ rectangular w out
    /\ Forall (Forall palette_rgb) out.
Proof.
  intros Hwf Hrect. unfold quantize_image.
  destruct image as [| row rest].
  - exists []. cbn. destruct (String.eqb method "perceptual"); repeat split; constructor.
  - assert (Hw : length row = w) by (by inversion Hrect).
    unfold shape. rewrite Hw.
    destruct (String.eqb method "perceptual").
    + destruct (quantize_loops (row :: rest) w
        (fun c => closest ← find_closest_eink_color m c true;
                  '(_, closest_rgb, _) ← unpack closest; Ok closest_rgb) Hrect)
        as (out & E & Hout).
      { intros c. destruct (find_closest_total m c true Hwf) as ([[n c'] i] & -> & Hp).
        rsimpl. cbn [unpack]. rsimpl. exists c'. split; [done |].
        by eapply palette_entry_rgb. }
      exists out. split; [| exact Hout]. rewrite <- E.
      apply for_each_ext. intros y s. apply for_each_ext. intros x s'.
      destruct (grid_get _ y x); rsimpl; [| done].
      destruct (find_closest_eink_color m a true) as [[[[n c'] i] |] | e];
        rsimpl; cbn [unpack]; rsimpl; done.
    + destruct (quantize_loops (row :: rest) w
        (fun c => Ok (simple_closest c)) Hrect) as (out & E & Hout).
      { intros c. exists (simple_closest c). split; [done |].
        apply simple_closest_palette. }
      exists out. split; [| exact Hout]. rewrite <- E.
      apply for_each_ext. intros y s. apply for_each_ext. intros x s'.
      destruct (grid_get _ y x); rsimpl; done.
Qed.

(** C2: whatever the method name, the output of [quantize_image] on a
    [height] x [w] array has the same height and the same width, and every
    one of its pixels is one of the seven palette colours. *)
Theorem quantize_image_only_palette_colors
    (fast_dither : option (result backend)) (m : SevenColorMapper)
    (image : grid rgb) (method : string) (w : nat) :
  __init__ fast_dither = Ok m ->
  rectangular w image ->
  exists out,
    quantize_image m image method = Ok out
    /\ length out = length image
    /\ rectangular w out
    /\ Forall (Forall palette_rgb) out.
Proof.
  intros Hinit Hrect. apply quantize_image_spec; [| done].
  by destruct (init_spec _ _ Hinit).
Qed.

Lemma quantize_image_only_palette_colors_witness :
  exists out,
    quantize_image default_mapper
      [ [ (12, 200, 30); (255, 255, 255) ]; [ (90, 90, 90); (0, 0, 1) ] ]
      "perceptual" = Ok out
    /\ length out = 2%nat
    /\ rectangular 2 out
    /\ Forall (Forall palette_rgb) out.
Proof.
  apply (quantize_image_only_palette_colors None default_mapper
           [ [ (12, 200, 30); (255, 255, 255) ]; [ (90, 90, 90); (0, 0, 1) ] ]
           "perceptual" 2);
    [exact default_mapper_init | repeat constructor].
Defined.

(** ** The accelerated path *)

Lemma constructed_mapper_init (fast_dither : option (result backend)) :
  (forall e, fast_dither <> Some (Raise e)) ->
  __init__ fast_dither = Ok (constructed_mapper fast_dither).
Proof.
  intros Hok. unfold constructed_mapper.
  destruct (init_total fast_dither Hok) as [m E]. by rewrite E.
Qed.

(** The constructor has the same handler: when [FastSevenColorDitherer()]
    raises, the handler's [logging.warning] raises [NameError]. *)
Lemma init_backend_failure (e : exn) :
  __init__ (Some (Raise e)) = Raise (NameError "logging").
Proof.
  unfold __init__. rewrite init_color_list_loop. rsimpl. cbn [app].
  match goal with
  | |- context [_build_color_lookup_table ?s0] =>
      destruct (build_table_spec s0) as (s' & E & _);
        [exact init_color_list_valid | done | done |]; rewrite E
  end.
  reflexivity.
Qed.

Lemma fast_failure_escapes (self : SevenColorMapper) (elapsed : Z -> bool)
    (image : grid rgb) (method : string) (fd : backend) (e1 e2 : exn) :
  fast_ditherer self = Some fd ->
  jarvis_judice_ninke_dither fd (np_array_float32 image) = Raise e1 ->
  floyd_steinberg_dither fd (np_array_float32 image) = Raise e2 ->
  quantize_image_advanced_dithering self elapsed image method
  = Raise (NameError "logging").
Proof.
  intros Hfd Hj Hf. unfold quantize_image_advanced_dithering, fast_attempt.
  rewrite Hfd, Hj, Hf.
  destruct (String.eqb method "jarvis_judice_ninke_7color");
    [| destruct (String.eqb method "floyd_steinberg_7color")]; reflexivity.
Qed.

(** C1, at a failing input: with an accelerated backend configured whose
    call raises, [quantize_image_advanced_dithering] does not fall back to
    the Python path; the handler's [logging.error] raises [NameError]
    (the module never imports [logging]) and that exception reaches the
    caller. *)
Theorem backend_failure_reaches_caller :
  quantize_image_advanced_dithering
    (constructed_mapper (Some (Ok failing_backend))) never_elapsed gray_2x1
    "floyd_steinberg_7color"
  = Raise (NameError "logging").
Proof.
  apply (fast_failure_escapes _ _ _ _ failing_backend
           (BackendError "MemoryError") (BackendError "MemoryError"));
    [| reflexivity | reflexivity].
  apply (init_spec (Some (Ok failing_backend))).
  by apply constructed_mapper_init.
Qed.

(** ** The progress test of the Python path *)

Lemma small_image_raises (self : SevenColorMapper) (elapsed : Z -> bool)
    (image : grid rgb) (method : string) :
  fast_ditherer self = None ->
  String.eqb method "simple" = false ->
  (0 < length image < 4)%nat ->
  elapsed 0 = false ->
  quantize_image_advanced_dithering self elapsed image method
  = Raise ZeroDivisionError.
Proof.
  intros Hfd Hm Hlen He. unfold quantize_image_advanced_dithering.
  rewrite Hfd. rsimpl. unfold python_dithering. rewrite Hm.
  assert (Hshape : exists h wd,
    shape (np_array_float32 image) = (h, wd) /\ 0 < h < 4).
  { unfold shape, np_array_float32. rewrite length_map.
    eexists _, _. split; [reflexivity | lia]. }
  destruct Hshape as (h & wd & -> & Hh).
  assert (Hrange : exists rows, py_range 0 h 1 = 0 :: rows).
  { unfold py_range. replace ((h - 0 + 1 - 1) / 1) with h
      by (rewrite Z.div_1_r; lia).
    destruct (Z.to_nat h) as [| n] eqn:En; [lia |]. by eexists. }
  destruct Hrange as (rows & ->).
  unfold dither_rows. cbn [for_each]. unfold progress_due. rewrite He.
  replace (h / 4 =? 0) with true by (symmetry; apply Z.eqb_eq; zlia).
  reflexivity.
Qed.

(** C8, at its input: on the 2 x 1 mid-grey image the Python path produces
    no pixels at all.  The height is below 4, so the progress test of row 0
    evaluates [0 % (1 // 4)] and raises [ZeroDivisionError]. *)
Theorem gray_2x1_raises_ZeroDivisionError :
  quantize_image_advanced_dithering default_mapper never_elapsed gray_2x1
    "floyd_steinberg_7color"
  = Raise ZeroDivisionError.
Proof.
  apply small_image_raises;
    [exact default_mapper_no_backend | reflexivity | cbn; lia | reflexivity].
Qed.

(** ** The random-threshold mode *)

Lemma insert_sorted_length (t : R * string * rgb) (l : list (R * string * rgb)) :
  length (insert_sorted t l) = S (length l).
Proof.
  induction l as [| h l IH]; [done |]. cbn [insert_sorted].
  destruct (distance_entry_ltb t h); cbn [length]; [done | by rewrite IH].
Qed.

Lemma list_sort_length (l : list (R * string * rgb)) :
  length (list_sort l) = length l.
Proof.
  unfold list_sort.
  assert (H : forall acc, length (fold_left (fun acc t => insert_sorted t acc) l acc)
                          = (length acc + length l)%nat).
  { induction l as [| t l IH]; intros acc; cbn [fold_left length]; [lia |].
    rewrite IH, insert_sorted_length. lia. }
  by rewrite H.
Qed.

Lemma distances_loop (c : rgb) (l : list (string * rgb))
    (acc : list (R * string * rgb)) :
  for_each l
    (fun '(name, eink_rgb) distances =>
       lab1 ← _rgb_to_lab c;
       lab2 ← _rgb_to_lab eink_rgb;
       let distance := _delta_e_ciede2000 lab1 lab2 in
       Ok (distances ++ [(distance, name, eink_rgb)])) acc
  = Ok (acc ++ map (fun '(name, eink_rgb) =>
                      (_delta_e_ciede2000 (spec_rgb_to_lab c)
                         (spec_rgb_to_lab eink_rgb), name, eink_rgb)) l).
Proof.
  rewrite (for_each_ext _
    (fun '(name, eink_rgb) distances =>
       Ok (distances ++ [(_delta_e_ciede2000 (spec_rgb_to_lab c)
                            (spec_rgb_to_lab eink_rgb), name, eink_rgb)]))).
  2: { intros [n e] ds. by rewrite !rgb_to_lab_total. }
  revert acc. induction l as [| [n e] l IH]; intros acc; cbn [for_each map].
  - by rewrite app_nil_r.
  - rsimpl. rewrite IH, <- app_assoc. done.
Qed.

Lemma two_closest_total (c : rgb) : exists t1 t2, two_closest c = Ok (t1, t2).
Proof.
  unfold two_closest. rewrite distances_loop. rsimpl. cbn [app].
  set (ds := list_sort _).
  assert (Hlen : length ds = 7%nat) by (unfold ds; by rewrite list_sort_length).
  destruct ds as [| t1 [| t2 ds]]; try done.
  exists t1, t2. reflexivity.
Qed.

Section BlueNoiseProperties.
Variable rng_state : Type.
Variable np_random_seed : Z -> rng_state.
Variable np_random_random : rng_state -> R * rng_state.

Lemma blue_noise_total (self : SevenColorMapper) (image : grid rgb) (w : nat) :
  rectangular w image ->
  exists out rng',
    forall rng,
      quantize_image_blue_noise rng_state np_random_seed np_random_random
        self rng image = Ok (out, rng').
Proof.
  intros Hrect. unfold quantize_image_blue_noise.
  destruct image as [| row rest].
  - exists [], (np_random_seed 42). intros rng. reflexivity.
  - assert (Hw : length row = w) by (by inversion Hrect).
    unfold shape. rewrite Hw.
    match goal with
    | |- context [@for_each ?A ?S ?ys ?body ?s0] =>
        destruct (for_each_preserves (A:=A) (S:=S)
          (fun st => length (fst st) = length (row :: rest)
                     /\ rectangular w (fst st)) body ys s0)
          as ([out rng'] & E & _)
    end.
    + cbn [fst]. destruct (np_zeros_shape (length (row :: rest)) w) as (? & ? & _).
      done.
    + intros y st Hy%elem_of_py_range_unit HQ.
      apply (for_each_preserves
               (fun st => length (fst st) = length (row :: rest)
                          /\ rectangular w (fst st))); [done |].
      intros x [out rng] Hx%elem_of_py_range_unit (Hlen & Hr). cbn [fst] in *.
      destruct (grid_get_ok w (row :: rest) y x Hrect Hy Hx)
        as (r0 & c & _ & _ & ->).
      rsimpl. destruct (two_closest_total c) as (t1 & t2 & ->). rsimpl.
      destruct (np_random_random rng) as [threshold rng2].
      destruct (grid_set_ok w out y x (snd t1) Hr) as (r1 & Hr1 & E1); [lia | lia |].
      destruct (grid_set_ok w out y x (snd t2) Hr) as (r2 & Hr2 & E2); [lia | lia |].
      rewrite E1, E2.
      destruct (Rltb threshold 0.7); rsimpl; eexists; (split; [reflexivity |]);
        cbn [fst]; (split; [by rewrite length_insert | by apply rectangular_insert]).
    + exists out, rng'. intros rng. exact E.
Qed.

(** C9: the random-threshold mode returns, and what it returns (the output
    array and the generator state it leaves) is the same whatever state the
    generator was in on entry, because it is reseeded with 42 before the
    first threshold is drawn: two runs on the same image give the same
    array. *)
Theorem blue_noise_reproducible (self : SevenColorMapper) (image : grid rgb)
    (w : nat) :
  rectangular w image ->
  exists out rng',
    forall rng,
      quantize_image_blue_noise rng_state np_random_seed np_random_random
        self rng image = Ok (out, rng').
Proof. apply blue_noise_total. Qed.
End BlueNoiseProperties.

Lemma blue_noise_reproducible_witness :
  exists out rng',
    forall rng,
      quantize_image_blue_noise Z lcg_seed lcg_random default_mapper rng
        gray_2x1 = Ok (out, rng').
Proof.
  apply (blue_noise_reproducible Z lcg_seed lcg_random default_mapper gray_2x1 2).
  repeat constructor.
Defined.

(** ** Serpentine scanning *)

Lemma map_seq_lookup {A} (f : nat -> A) (n i : nat) :
  (i < n)%nat -> map f (seq 0 n) !! i = Some (f i).
Proof.
  intros Hi. change (map f (seq 0 n)) with (f <$> seq 0 n).
  rewrite list_lookup_fmap, lookup_seq_lt; done.
Qed.

Lemma lookup_concat_uniform {A} (ls : list (list A)) (n i j : nat)
    (row : list A) :
  Forall (fun l => length l = n) ls -> ls !! i = Some row -> (j < n)%nat ->
  concat ls !! (i * n + j)%nat = row !! j.
Proof.
  intros Hall. revert i.
  induction Hall as [| l ls Hl Hall IH]; intros i Hrow Hj; [done |].
  destruct i as [| i]; cbn [concat].
  - injection Hrow as ->. rewrite lookup_app_l by lia. done.
  - rewrite lookup_app_r by lia. cbn in Hrow.
    replace (S i * n + j - length l)%nat with (i * n + j)%nat by lia.
    by apply IH.
Qed.

Lemma py_range_unit_length (n : Z) : length (py_range 0 n 1) = Z.to_nat n.
Proof.
  unfold py_range. rewrite length_map, length_seq.
  f_equal. rewrite Z.div_1_r. lia.
Qed.

Lemma py_range_unit_lookup (n i : Z) :
  0 <= i < n -> py_range 0 n 1 !! Z.to_nat i = Some i.
Proof.
  intros Hi. unfold py_range.
  replace ((n - 0 + 1 - 1) / 1) with n by (rewrite Z.div_1_r; lia).
  rewrite map_seq_lookup by lia. f_equal. lia.
Qed.

Lemma py_range_down_length (start : Z) :
  length (py_range_down start) = Z.to_nat (start + 1).
Proof. unfold py_range_down. by rewrite length_map, length_seq. Qed.

Lemma py_range_down_lookup (start i : Z) :
  0 <= i <= start -> py_range_down start !! Z.to_nat i = Some (start - i).
Proof.
  intros Hi. unfold py_range_down.
  rewrite map_seq_lookup by lia. f_equal. lia.
Qed.

Lemma x_range_length (y width : Z) : length (x_range y width) = Z.to_nat width.
Proof.
  unfold x_range. destruct (y mod 2 =? 0).
  - apply py_range_unit_length.
  - rewrite py_range_down_length. f_equal. lia.
Qed.

(** Row [y] visits column [i] at step [i] when [y] is even and column
    [width - 1 - i] when [y] is odd. *)
Lemma x_range_lookup (y width i : Z) :
  0 <= i < width ->
  x_range y width !! Z.to_nat i
  = Some (if y mod 2 =? 0 then i else width - 1 - i).
Proof.
  intros Hi. unfold x_range. destruct (y mod 2 =? 0).
  - by apply py_range_unit_lookup.
  - apply py_range_down_lookup. lia.
Qed.

Lemma neighbor_mirrored (x y dx dy : Z) :
  neighbor x y dx dy = (if y mod 2 =? 0 then x + dx else x - dx, y + dy).
Proof.
  unfold neighbor.
  destruct (y mod 2 =? 0) eqn:E0, (y mod 2 =? 1) eqn:E1; try reflexivity.
  - apply Z.eqb_eq in E0, E1. lia.
  - apply Z.eqb_neq in E0, E1. zlia.
Qed.

Lemma scan_order_lookup (width height x y : Z) :
  0 <= x < width -> 0 <= y < height ->
  scan_order width height !! Z.to_nat (scan_index width x y) = Some (x, y).
Proof.
  intros Hx Hy. unfold scan_order, scan_index.
  set (pos := if y mod 2 =? 0 then x else width - 1 - x).
  assert (Hpos : 0 <= pos < width) by (unfold pos; destruct (y mod 2 =? 0); lia).
  replace (Z.to_nat (y * width + pos))
    with (Z.to_nat y * Z.to_nat width + Z.to_nat pos)%nat by nia.
  rewrite (lookup_concat_uniform _ (Z.to_nat width) _ _
             (map (fun x => (x, y)) (x_range y width))).
  - change (map (fun x0 => (x0, y)) (x_range y width))
      with ((fun x0 => (x0, y)) <$> x_range y width).
    rewrite list_lookup_fmap, x_range_lookup by done.
    cbn. f_equal. f_equal. unfold pos. destruct (y mod 2 =? 0); lia.
  - apply Forall_forall. intros row Hrow.
    apply list_elem_of_In, in_map_iff in Hrow as (y' & <- & _).
    by rewrite length_map, x_range_length.
  - change (map ?f (py_range 0 height 1)) with (f <$> py_range 0 height 1).
    rewrite list_lookup_fmap, py_range_unit_lookup by done. done.
  - lia.
Qed.

Lemma kernel_offsets (method : string) (dx dy : Z) (weight : R) :
  (dx, dy, weight) ∈ error_kernel method ->
  (dy = 0 /\ 0 < dx) \/ 0 < dy.
Proof.
  unfold error_kernel.
  destruct (String.eqb method "floyd_steinberg_7color");
    [| destruct (String.eqb method "jarvis_judice_ninke_7color")];
    unfold floyd_steinberg_kernel, jarvis_judice_ninke_kernel;
    rewrite !elem_of_cons, elem_of_nil;
    intros H; repeat destruct H as [H | H]; try done;
    injection H as -> -> _; lia.
Qed.

Lemma neighbor_index_later (width height x y dx dy : Z) :
  0 <= x < width -> 0 <= y < height ->
  (dy = 0 /\ 0 < dx) \/ 0 < dy ->
  0 <= fst (neighbor x y dx dy) < width ->
  scan_index width x y
  < scan_index width (fst (neighbor x y dx dy)) (snd (neighbor x y dx dy)).
Proof.
  intros Hx Hy Hk. rewrite neighbor_mirrored. cbn [fst snd]. intros Hnx.
  unfold scan_index. destruct Hk as [[-> Hdx] | Hdy].
  - rewrite Z.add_0_r. destruct (y mod 2 =? 0); lia.
  - assert (0 <= (if y mod 2 =? 0 then x else width - 1 - x) < width)
      by (destruct (y mod 2 =? 0); lia).
    assert (0 <= (if (y + dy) mod 2 =? 0
                  then (if y mod 2 =? 0 then x + dx else x - dx)
                  else width - 1 - (if y mod 2 =? 0 then x + dx else x - dx)))
      by (destruct ((y + dy) mod 2 =? 0), (y mod 2 =? 0); lia).
    nia.
Qed.

(** C7: row [y] is scanned left to right when [y] is even and right to left
    when it is odd, so the direction flips on every row; on the right to
    left rows the horizontal offset of every kernel entry is mirrored
    ([x - dx] in place of [x + dx]); and every in-bounds pixel that receives
    error from [(x, y)] comes after [(x, y)] in the scan order. *)
Theorem serpentine_scan_and_mirroring (width height x y : Z) :
  0 <= x < width -> 0 <= y < height ->
  (forall i, 0 <= i < width ->
     x_range y width !! Z.to_nat i
     = Some (if y mod 2 =? 0 then i else width - 1 - i))
  /\ (forall i, 0 <= i < width ->
        x_range (y + 1) width !! Z.to_nat i
        = Some (if y mod 2 =? 0 then width - 1 - i else i))
  /\ (forall dx dy,
        neighbor x y dx dy
        = (if y mod 2 =? 0 then x + dx else x - dx, y + dy))
  /\ (forall method dx dy weight,
        (dx, dy, weight) ∈ error_kernel method ->
        0 <= fst (neighbor x y dx dy) < width ->
        0 <= snd (neighbor x y dx dy) < height ->
        exists i j,
          (i < j)%nat
          /\ scan_order width height !! i = Some (x, y)
          /\ scan_order width height !! j = Some (neighbor x y dx dy)).
Proof.
  intros Hx Hy. split; [| split; [| split]].
  - intros i Hi. by apply x_range_lookup.
  - intros i Hi. rewrite x_range_lookup by done. f_equal.
    destruct (y mod 2 =? 0) eqn:E0, ((y + 1) mod 2 =? 0) eqn:E1; try reflexivity.
    + apply Z.eqb_eq in E0, E1. zlia.
    + apply Z.eqb_neq in E0, E1. zlia.
  - intros dx dy. apply neighbor_mirrored.
  - intros method dx dy weight Hk Hnx Hny.
    exists (Z.to_nat (scan_index width x y)),
           (Z.to_nat (scan_index width (fst (neighbor x y dx dy))
                        (snd (neighbor x y dx dy)))).
    split; [| split].
    + pose proof (neighbor_index_later width height x y dx dy Hx Hy
                    (kernel_offsets _ _ _ _ Hk) Hnx) as Hlt.
      assert (0 <= scan_index width x y).
      { unfold scan_index. destruct (y mod 2 =? 0); nia. }
      lia.
    + by apply scan_order_lookup.
    + rewrite scan_order_lookup by done. by destruct (neighbor x y dx dy).
Qed.

Lemma serpentine_scan_and_mirroring_witness :
  (forall i, 0 <= i < 5 ->
     x_range 1 5 !! Z.to_nat i = Some (if 1 mod 2 =? 0 then i else 5 - 1 - i))
  /\ (forall i, 0 <= i < 5 ->
        x_range (1 + 1) 5 !! Z.to_nat i
        = Some (if 1 mod 2 =? 0 then 5 - 1 - i else i))
  /\ (forall dx dy,
        neighbor 2 1 dx dy = (if 1 mod 2 =? 0 then 2 + dx else 2 - dx, 1 + dy))
  /\ (forall method dx dy weight,
        (dx, dy, weight) ∈ error_kernel method ->
        0 <= fst (neighbor 2 1 dx dy) < 5 ->
        0 <= snd (neighbor 2 1 dx dy) < 4 ->
        exists i j,
          (i < j)%nat
          /\ scan_order 5 4 !! i = Some (2, 1)
          /\ scan_order 5 4 !! j = Some (neighbor 2 1 dx dy)).
Proof. apply (serpentine_scan_and_mirroring 5 4 2 1); lia. Defined.

(** ** Clamping in the error-diffusion loop *)

Lemma np_clip_in_range (v : R) : in_range (np_clip v 0 255).
Proof.
  unfold in_range, np_clip, Rmin, Rmax.
  destruct (Rle_dec v 0); destruct (Rle_dec _ 255); lra.
Qed.

Lemma clip_px_in_range (v : rgbf) : in_range_px (clip_px v).
Proof. destruct v as [[r g] b]. cbn. repeat split; apply np_clip_in_range. Qed.

Lemma to_float_in_range (c : rgb) : u8 c -> in_range_px (to_float c).
Proof.
  destruct c as [[r g] b]. intros (Hr & Hg & Hb). cbn. unfold in_range.
  repeat split; (apply (IZR_le 0); lia) || (apply (IZR_le _ 255); lia).
Qed.

Section ArraysExact.
Context {A : Type}.

Lemma grid_get_at (g : grid A) (y x : Z) (row : list A) (v : A) :
  0 <= y -> 0 <= x ->
  g !! Z.to_nat y = Some row -> row !! Z.to_nat x = Some v ->
  grid_get g y x = Ok v.
Proof.
  intros Hy Hx Hrow Hv. unfold grid_get.
  destruct (y <? 0) eqn:Ey; [lia |]. destruct (x <? 0) eqn:Ex; [lia |].
  cbn [orb]. by rewrite Hrow, Hv.
Qed.

Lemma grid_set_at (g : grid A) (y x : Z) (row : list A) (v : A) :
  0 <= y -> 0 <= x ->
  g !! Z.to_nat y = Some row -> (Z.to_nat x < length row)%nat ->
  grid_set g y x v = Ok (<[Z.to_nat y := <[Z.to_nat x := v]> row]> g).
Proof.
  intros Hy Hx Hrow Hlen. unfold grid_set.
  destruct (y <? 0) eqn:Ey; [lia |]. destruct (x <? 0) eqn:Ex; [lia |].
  cbn [orb]. rewrite Hrow. by case_decide.
Qed.
End ArraysExact.

(** One kernel entry: nothing happens out of bounds; in bounds the target
    becomes the clip of its old value plus the weighted error. *)
Lemma distribute_error_spec (w : nat) (height x y : Z) (error_rgb : rgbf)
    (dx dy : Z) (weight : R) (arr : grid rgbf) :
  rectangular w arr -> height = Z.of_nat (length arr) ->
  let nx := fst (neighbor x y dx dy) in
  let ny := snd (neighbor x y dx dy) in
  (0 <= nx < Z.of_nat w /\ 0 <= ny < height /\
   exists row v,
     arr !! Z.to_nat ny = Some row /\ row !! Z.to_nat nx = Some v
     /\ distribute_error (Z.of_nat w) height x y error_rgb (dx, dy, weight) arr
        = Ok (<[Z.to_nat ny :=
                  <[Z.to_nat nx := clip_px (px_add_scaled v error_rgb weight)]>
                    row]> arr))
  \/ (~ (0 <= nx < Z.of_nat w /\ 0 <= ny < height) /\
      distribute_error (Z.of_nat w) height x y error_rgb (dx, dy, weight) arr
      = Ok arr).
Proof.
  intros Hrect Hh nx ny. unfold distribute_error.
  destruct (neighbor x y dx dy) as [nx' ny'] eqn:En. cbn [fst snd] in nx, ny.
  subst nx ny.
  destruct ((0 <=? nx') && (nx' <? Z.of_nat w) && (0 <=? ny') && (ny' <? height))
    eqn:Eb.
  - left. apply andb_prop in Eb as [Eb E4]. apply andb_prop in Eb as [Eb E3].
    apply andb_prop in Eb as [E1 E2].
    apply Z.leb_le in E1, E3. apply Z.ltb_lt in E2, E4.
    split; [lia |]. split; [lia |].
    destruct (grid_get_ok w arr ny' nx' Hrect) as (row & v & Hrow & Hv & Eg);
      [lia | lia |].
    exists row, v. split; [done |]. split; [done |].
    assert (Hlen : (Z.to_nat nx' < length row)%nat)
      by (apply lookup_lt_is_Some; by eexists).
    rewrite Eg. rsimpl.
    rewrite (grid_set_at arr ny' nx' row) by (done || lia). rsimpl.
    assert (Hy : (Z.to_nat ny' < length arr)%nat)
      by (apply lookup_lt_is_Some; by eexists).
    rewrite (grid_get_at _ ny' nx'
               (<[Z.to_nat nx' := px_add_scaled v error_rgb weight]> row)
               (px_add_scaled v error_rgb weight));
      [| lia | lia | by apply list_lookup_insert_eq
       | by apply list_lookup_insert_eq].
    rsimpl.
    rewrite (grid_set_at _ ny' nx'
               (<[Z.to_nat nx' := px_add_scaled v error_rgb weight]> row));
      [| lia | lia | by apply list_lookup_insert_eq
       | by rewrite length_insert].
    by rewrite !list_insert_insert_eq.
  - right. split; [| done].
    intros (H1 & H2).
    assert (((0 <=? nx') && (nx' <? Z.of_nat w) && (0 <=? ny') && (ny' <? height))
            = true); [| congruence].
    repeat (apply andb_true_intro; split);
      (apply Z.leb_le; lia) || (apply Z.ltb_lt; lia).
Qed.

Lemma distribute_error_ok (w : nat) (height x y : Z) (error_rgb : rgbf)
    (k : Z * Z * R) (arr : grid rgbf) :
  rectangular w arr -> height = Z.of_nat (length arr) ->
  exists arr',
    distribute_error (Z.of_nat w) height x y error_rgb k arr = Ok arr'
    /\ length arr' = length arr
    /\ rectangular w arr'
    /\ (Forall (Forall in_range_px) arr -> Forall (Forall in_range_px) arr').
Proof.
  intros Hrect Hh. destruct k as [[dx dy] weight].
  destruct (distribute_error_spec w height x y error_rgb dx dy weight arr
              Hrect Hh) as [(_ & _ & row & v & Hrow & Hv & ->) | (_ & ->)].
  - eexists. split; [reflexivity |]. split; [by rewrite length_insert |].
    split; [by apply rectangular_insert |].
    intros Hin. apply Forall2d_insert; [done | done | apply clip_px_in_range].
  - by exists arr.
Qed.

Lemma dither_pixel_ok (m : SevenColorMapper) (kernel : list (Z * Z * R))
    (w h : nat) (x y : Z) (st : dither_state) :
  wf_mapper m -> dither_inv w h st ->
  0 <= x < Z.of_nat w -> 0 <= y < Z.of_nat h ->
  exists st',
    dither_pixel m kernel (Z.of_nat w) (Z.of_nat h) y x st = Ok st'
    /\ dither_inv w h st'
    /\ (Forall (Forall in_range_px) (img_array st) ->
        Forall (Forall in_range_px) (img_array st')).
Proof.
  intros Hwf (Hl & Hr & Hlo & Hro) Hx Hy. unfold dither_pixel.
  destruct (grid_get_ok w (img_array st) y x Hr) as (row & v & _ & _ & Eg);
    [lia | lia |].
  rewrite Eg. rsimpl.
  assert (Hc : exists c cache,
    match local_cache st !! astype_int_px (clip_px v) with
    | Some c => Ok (c, local_cache st)
    | None =>
        closest ← find_closest_eink_color m (astype_int_px (clip_px v)) true;
        '(_, c, _) ← unpack closest;
        Ok (c, <[astype_int_px (clip_px v) := c]> (local_cache st))
    end = Ok (c, cache)).
  { destruct (local_cache st !! _) as [c |]; [by eexists _, _ |].
    destruct (find_closest_total m (astype_int_px (clip_px v)) true Hwf)
      as ([[n c] i] & -> & _).
    rsimpl. cbn [unpack]. rsimpl. by eexists _, _. }
  destruct Hc as (c & cache & ->). rsimpl.
  destruct (grid_set_ok w (output_array st) y x c Hro) as (orow & Horow & ->);
    [lia | lia |].
  rsimpl.
  match goal with
  | |- context [@for_each ?A ?S kernel ?body ?s0] =>
      destruct (for_each_preserves (A:=A) (S:=S)
        (fun arr => length arr = h /\ rectangular w arr
                    /\ (Forall (Forall in_range_px) (img_array st) ->
                        Forall (Forall in_range_px) arr))
        body kernel s0) as (arr & E & Hlen & Hrect & Hin)
  end.
  - done.
  - intros k arr _ (Hlen & Hrect & Hin).
    destruct (distribute_error_ok w (Z.of_nat h) x y
                (px_sub v (to_float c)) k arr Hrect)
      as (arr' & E' & Hlen' & Hrect' & Hin'); [by rewrite Hlen |].
    exists arr'. split; [exact E' |]. split; [by rewrite Hlen' |].
    split; [done |]. intros H0. by apply Hin', Hin.
  - rewrite E. rsimpl. eexists. split; [reflexivity |].
    split; [| exact Hin].
    repeat split; cbn; try done.
    + by rewrite length_insert.
    + by apply rectangular_insert.
Qed.

Lemma elem_of_x_range (y width x : Z) :
  x ∈ x_range y width -> 0 <= x < width.
Proof.
  unfold x_range. destruct (y mod 2 =? 0).
  - apply elem_of_py_range_unit.
  - unfold py_range_down. rewrite list_elem_of_In, in_map_iff.
    intros (i & <- & Hi%in_seq). lia.
Qed.

Lemma elem_of_scan_order (width height x y : Z) :
  (x, y) ∈ scan_order width height -> 0 <= x < width /\ 0 <= y < height.
Proof.
  unfold scan_order. rewrite list_elem_of_In, in_concat.
  intros (row & Hrow & Hin). apply in_map_iff in Hrow as (y' & <- & Hy').
  apply in_map_iff in Hin as (x' & [= <- <-] & Hx').
  split.
  - by apply (elem_of_x_range y'), list_elem_of_In.
  - by apply elem_of_py_range_unit, list_elem_of_In.
Qed.

Lemma for_each_map {A B S} (f : A -> B) (body : B -> S -> result S)
    (xs : list A) (s : S) :
  for_each (map f xs) body s = for_each xs (fun x => body (f x)) s.
Proof.
  revert s. induction xs as [| x xs IH]; intros s; [done |].
  cbn [map for_each]. destruct (body (f x) s); rsimpl; [apply IH | done].
Qed.

(** When no progress test raises, the two nested loops are one loop over
    the scan order. *)
Lemma dither_rows_as_scan (m : SevenColorMapper) (elapsed : Z -> bool)
    (kernel : list (Z * Z * R)) (width height : Z) (rows : list Z)
    (st : dither_state) :
  (forall y, y ∈ rows -> elapsed y = true \/ height / 4 <> 0) ->
  dither_rows m elapsed kernel width height rows st
  = for_each
      (concat (map (fun y => map (fun x => (x, y)) (x_range y width)) rows))
      (pixel_step m kernel width height) st.
Proof.
  unfold dither_rows. revert st.
  induction rows as [| y rows IH]; intros st Hprog; [done |].
  cbn [for_each map concat]. rewrite for_each_app, for_each_map.
  assert (Hp : exists b, progress_due elapsed y height = Ok b).
  { unfold progress_due. destruct (Hprog y) as [-> | Hh]; [left | by eexists |].
    destruct (elapsed y); [by eexists |].
    destruct (height / 4 =? 0) eqn:E; [apply Z.eqb_eq in E; lia | by eexists]. }
  destruct Hp as [b ->]. rsimpl.
  change (fun x => pixel_step m kernel width height (x, y))
    with (dither_pixel m kernel width height y).
  destruct (for_each (x_range y width) _ st); rsimpl; [| done].
  apply IH. intros y' Hy'. apply Hprog. by right.
Qed.

Lemma initial_state_inv (image : grid rgb) (w : nat) :
  rectangular w image -> image <> [] ->
  shape (np_array_float32 image) = (Z.of_nat (length image), Z.of_nat w)
  /\ dither_inv w (length image) (initial_state image).
Proof.
  intros Hrect Hne. destruct image as [| row rest]; [done |].
  assert (Hw : length row = w) by (by inversion Hrect).
  assert (Hs : shape (np_array_float32 (row :: rest))
               = (Z.of_nat (length (row :: rest)), Z.of_nat w)).
  { unfold shape, np_array_float32. cbn [map length].
    by rewrite !length_map, Hw. }
  split; [exact Hs |]. unfold dither_inv, initial_state. rewrite Hs. cbn [fst snd].
  destruct (np_zeros_shape (length (row :: rest)) w) as (Hz1 & Hz2 & _).
  cbn [img_array output_array]. split; [| split; [| done]].
  - unfold np_array_float32. by rewrite length_map.
  - unfold rectangular, np_array_float32. apply Forall_forall.
    intros r Hr. apply list_elem_of_In, in_map_iff in Hr as (r0 & <- & Hr0).
    rewrite length_map. unfold rectangular in Hrect.
    rewrite Forall_forall in Hrect. by apply Hrect, list_elem_of_In.
Qed.

Lemma initial_state_in_range (image : grid rgb) :
  Forall (Forall u8) image ->
  Forall (Forall in_range_px) (img_array (initial_state image)).
Proof.
  intros Hu8. cbn [initial_state img_array]. unfold np_array_float32.
  apply Forall_forall. intros r Hr.
  apply list_elem_of_In, in_map_iff in Hr as (r0 & <- & Hr0).
  apply Forall_forall. intros v Hv.
  apply list_elem_of_In, in_map_iff in Hv as (c & <- & Hc).
  apply to_float_in_range. rewrite Forall_forall in Hu8.
  specialize (Hu8 r0). rewrite Forall_forall in Hu8.
  apply Hu8; by apply list_elem_of_In.
Qed.

(** The pixel loop over any part of the scan order: it never raises, and
    every working value is in [0, 255] when it ends. *)
Lemma scan_prefix_in_range (m : SevenColorMapper) (kernel : list (Z * Z * R))
    (image : grid rgb) (w : nat) (positions : list (Z * Z)) :
  wf_mapper m -> rectangular w image -> image <> [] ->
  Forall (Forall u8) image ->
  (forall p, p ∈ positions ->
     p ∈ scan_order (Z.of_nat w) (Z.of_nat (length image))) ->
  exists st,
    for_each positions
      (pixel_step m kernel (Z.of_nat w) (Z.of_nat (length image)))
      (initial_state image) = Ok st
    /\ dither_inv w (length image) st
    /\ Forall (Forall in_range_px) (img_array st).
Proof.
  intros Hwf Hrect Hne Hu8 Hpos.
  destruct (initial_state_inv image w Hrect Hne) as [_ Hinv].
  apply (for_each_preserves
           (fun st => dither_inv w (length image) st
                      /\ Forall (Forall in_range_px) (img_array st))).
  - split; [done | by apply initial_state_in_range].
  - intros [x y] st Hp (Hst & Hin).
    apply Hpos, elem_of_scan_order in Hp as (Hx & Hy).
    destruct (dither_pixel_ok m kernel w (length image) x y st Hwf Hst Hx Hy)
      as (st' & E & Hst' & Hin').
    exists st'. split; [exact E |]. split; [done | by apply Hin'].
Qed.

Lemma python_dithering_ok (m : SevenColorMapper) (elapsed : Z -> bool)
    (image : grid rgb) (method : string) (w : nat) :
  wf_mapper m -> rectangular w image -> Forall (Forall u8) image ->
  String.eqb method "simple" = false ->
  (forall y, 0 <= y < Z.of_nat (length image) ->
     elapsed y = true \/ Z.of_nat (length image) / 4 <> 0) ->
  exists out,
    python_dithering m elapsed image method = Ok out
    /\ length out = length image /\ rectangular w out.
Proof.
  intros Hwf Hrect Hu8 Hm Hprog. unfold python_dithering. rewrite Hm.
  destruct (decide (image = [])) as [-> | Hne].
  - exists []. split; [reflexivity |]. split; [done | constructor].
  - destruct (initial_state_inv image w Hrect Hne) as [Hs _].
    destruct (scan_prefix_in_range m (error_kernel method) image w
                (scan_order (Z.of_nat w) (Z.of_nat (length image)))
                Hwf Hrect Hne Hu8) as (st & E & (_ & _ & Hlo & Hro) & _);
      [done |].
    rewrite Hs. rewrite dither_rows_as_scan.
    2: { intros y Hy. by apply Hprog, elem_of_py_range_unit. }
    unfold initial_state in E. rewrite Hs in E. cbn [fst snd] in E.
    unfold scan_order in E. rewrite E. rsimpl. by exists (output_array st).
Qed.

(** C5: in the error-diffusion loop of the Python path
    - a kernel entry whose target is in bounds leaves, whatever the size
      of the error, a target pixel that is the clip of the sum, inside
      [0, 255] on every channel;
    - after any initial part of the scan every value of the working buffer
      is inside [0, 255], so every value the loop reads is;
    - the loop raises nothing on any 8-bit image, pure black and pure
      white included: when the progress test of no row raises (three
      seconds elapsed, or a height of at least 4) the function returns an
      array of the input's height and width. *)
Theorem error_diffusion_values_clamped (fast_dither : option (result backend))
    (m : SevenColorMapper) (elapsed : Z -> bool) (image : grid rgb)
    (method : string) (w : nat) :
  __init__ fast_dither = Ok m ->
  rectangular w image ->
  Forall (Forall u8) image ->
  String.eqb method "simple" = false ->
  (forall (arr : grid rgbf) (x y dx dy : Z) (error_rgb : rgbf) (weight : R),
     rectangular w arr -> length arr = length image ->
     0 <= fst (neighbor x y dx dy) < Z.of_nat w ->
     0 <= snd (neighbor x y dx dy) < Z.of_nat (length image) ->
     exists arr' v,
       distribute_error (Z.of_nat w) (Z.of_nat (length image)) x y error_rgb
         (dx, dy, weight) arr = Ok arr'
       /\ grid_get arr' (snd (neighbor x y dx dy)) (fst (neighbor x y dx dy))
          = Ok v
       /\ in_range_px v)
  /\ (forall done rest,
        scan_order (Z.of_nat w) (Z.of_nat (length image)) = done ++ rest ->
        exists st,
          for_each done
            (pixel_step m (error_kernel method) (Z.of_nat w)
               (Z.of_nat (length image)))
            (initial_state image) = Ok st
          /\ Forall (Forall in_range_px) (img_array st))
  /\ ((forall y, 0 <= y < Z.of_nat (length image) ->
         elapsed y = true \/ Z.of_nat (length image) / 4 <> 0) ->
      exists out,
        python_dithering m elapsed image method = Ok out
        /\ length out = length image /\ rectangular w out).
Proof.
  intros Hinit Hrect Hu8 Hm.
  destruct (init_spec _ _ Hinit) as [Hwf _].
  split; [| split].
  - intros arr x y dx dy error_rgb weight Harr Hlen Hnx Hny.
    destruct (distribute_error_spec w (Z.of_nat (length image)) x y error_rgb
                dx dy weight arr Harr)
      as [(_ & _ & row & v & Hrow & Hv & E) | (Hout & _)];
      [by rewrite Hlen | | by destruct Hout].
    eexists _, _. split; [exact E |]. split; [| apply clip_px_in_range].
    apply (grid_get_at _ _ _
             (<[Z.to_nat (fst (neighbor x y dx dy)) :=
                  clip_px (px_add_scaled v error_rgb weight)]> row));
      [lia | lia | |].
    + apply list_lookup_insert_eq, lookup_lt_is_Some. by eexists.
    + apply list_lookup_insert_eq, lookup_lt_is_Some. by eexists.
  - intros done rest Hscan.
    destruct (decide (image = [])) as [-> | Hne].
    + destruct done; [| done]. exists (initial_state []). split; [done | constructor].
    + destruct (scan_prefix_in_range m (error_kernel method) image w done
                  Hwf Hrect Hne Hu8) as (st & E & _ & Hin).
      * intros p Hp. rewrite Hscan. apply elem_of_app. by left.
      * by exists st.
  - by apply python_dithering_ok.
Qed.

Lemma error_diffusion_values_clamped_witness :
  exists st,
    for_each (scan_order 2 1)
      (pixel_step default_mapper (error_kernel "floyd_steinberg_7color") 2 1)
      (initial_state gray_2x1) = Ok st
    /\ Forall (Forall in_range_px) (img_array st).
Proof.
  apply (proj1 (proj2
    (error_diffusion_values_clamped None default_mapper never_elapsed
       gray_2x1 "floyd_steinberg_7color" 2 default_mapper_init
       ltac:(repeat constructor) ltac:(repeat constructor; cbn; lia)
       eq_refl)) (scan_order 2 1) []).
  symmetry. apply app_nil_r.
Defined.

(** ** Numeric bounds on the palette and on two greys *)

Section Numerics.
Local Open Scope R_scope.

Lemma Rpower_ratio_lt (x q : R) (n m : nat) :
  0 < x -> 0 < q -> (0 < m)%nat -> x ^ n < q ^ m ->
  Rpower x (INR n / INR m) < q.
Proof.
  intros Hx Hq Hm H.
  assert (Hm' : 0 < INR m) by (apply lt_0_INR; lia).
  unfold Rdiv. rewrite <- Rpower_mult, Rpower_pow by done.
  replace q with (Rpower (q ^ m) (/ INR m)).
  - apply Rlt_Rpower_l; [by apply Rinv_0_lt_compat |].
    split; [by apply pow_lt | done].
  - rewrite <- Rpower_pow by done. rewrite Rpower_mult.
    rewrite Rinv_r by lra. by apply Rpower_1.
Qed.

Lemma Rpower_ratio_gt (x q : R) (n m : nat) :
  0 < x -> 0 < q -> (0 < m)%nat -> q ^ m < x ^ n ->
  q < Rpower x (INR n / INR m).
Proof.
  intros Hx Hq Hm H.
  assert (Hm' : 0 < INR m) by (apply lt_0_INR; lia).
  unfold Rdiv. rewrite <- Rpower_mult, Rpower_pow by done.
  replace q with (Rpower (q ^ m) (/ INR m)) at 1.
  - apply Rlt_Rpower_l; [by apply Rinv_0_lt_compat |].
    split; [by apply pow_lt | done].
  - rewrite <- Rpower_pow by done. rewrite Rpower_mult.
    rewrite Rinv_r by lra. by apply Rpower_1.
Qed.

Lemma Rpower_one (y : R) : Rpower 1 y = 1.
Proof. unfold Rpower. by rewrite ln_1, Rmult_0_r, exp_0. Qed.

Lemma exponent_12_5 : 2.4 = INR 12 / INR 5.
Proof. cbn. lra. Qed.

Lemma exponent_1_3 : 1 / 3 = INR 1 / INR 3.
Proof. cbn. lra. Qed.

(** Bounds on the gamma decoding, from bounds on twelfth and fifth powers. *)
Lemma gamma_lt (c q : R) :
  0.04045 < c -> 0 < q -> ((c + 0.055) / 1.055) ^ 12 < q ^ 5 ->
  spec_gamma_decode c < q.
Proof.
  intros Hc Hq H. unfold spec_gamma_decode.
  destruct (Rlt_dec 0.04045 c); [| clear H; lra].
  rewrite exponent_12_5.
  apply Rpower_ratio_lt; [clear H; apply Rdiv_lt_0_compat; lra | done | lia | done].
Qed.

Lemma gamma_gt (c q : R) :
  0.04045 < c -> 0 < q -> q ^ 5 < ((c + 0.055) / 1.055) ^ 12 ->
  q < spec_gamma_decode c.
Proof.
  intros Hc Hq H. unfold spec_gamma_decode.
  destruct (Rlt_dec 0.04045 c); [| clear H; lra].
  rewrite exponent_12_5.
  apply Rpower_ratio_gt; [clear H; apply Rdiv_lt_0_compat; lra | done | lia | done].
Qed.

Lemma gamma_zero : spec_gamma_decode (0 / 255) = 0.
Proof. unfold spec_gamma_decode. destruct (Rlt_dec 0.04045 (0 / 255)); lra. Qed.

Lemma gamma_full : spec_gamma_decode (255 / 255) = 1.
Proof.
  unfold spec_gamma_decode. destruct (Rlt_dec 0.04045 (255 / 255)); [| lra].
  replace ((255 / 255 + 0.055) / 1.055) with 1 by lra. apply Rpower_one.
Qed.

(** Bounds on the CIE [f] in its cube-root branch. *)
Lemma cie_f_lt (t q : R) :
  0.008856 < t -> 0 < q -> t < q ^ 3 -> spec_cie_f t < q.
Proof.
  intros Ht Hq H. unfold spec_cie_f.
  destruct (Rlt_dec 0.008856 t); [| clear H; lra].
  rewrite exponent_1_3.
  apply Rpower_ratio_lt; [clear H; lra | done | lia | by rewrite pow_1].
Qed.

Lemma cie_f_gt (t q : R) :
  0.008856 < t -> 0 < q -> q ^ 3 < t -> q < spec_cie_f t.
Proof.
  intros Ht Hq H. unfold spec_cie_f.
  destruct (Rlt_dec 0.008856 t); [| clear H; lra].
  rewrite exponent_1_3.
  apply Rpower_ratio_gt; [clear H; lra | done | lia | by rewrite pow_1].
Qed.

Lemma cie_f_one : spec_cie_f 1 = 1.
Proof.
  unfold spec_cie_f. destruct (Rlt_dec 0.008856 1); [| lra]. apply Rpower_one.
Qed.

(** The Y row of the matrix sums to 1.0000001: on a grey the [fy] term is
    a hair above [fx] and [fz]. *)
Lemma cie_f_scaled (t : R) :
  0.008856 < t ->
  spec_cie_f t <= spec_cie_f (1.0000001 * t) <= 1.0000001 * spec_cie_f t.
Proof.
  intros Ht. unfold spec_cie_f.
  destruct (Rlt_dec 0.008856 t); [| lra].
  destruct (Rlt_dec 0.008856 (1.0000001 * t)); [| lra].
  rewrite <- Rpower_mult_distr by lra.
  assert (Hk : 1 < Rpower 1.0000001 (1 / 3) < 1.0000001).
  { rewrite exponent_1_3. split.
    - apply Rpower_ratio_gt; [lra | lra | lia | lra].
    - apply Rpower_ratio_lt; [lra | lra | lia | lra]. }
  assert (Hp : 0 < Rpower t (1 / 3)) by (unfold Rpower; apply exp_pos).
  nra.
Qed.

(** LAB of a grey whose decoded level [l] is in the cube-root branch. *)
Lemma gray_lab (g : Z) :
  0.008856 < spec_gamma_decode (IZR g / 255) ->
  exists t ty,
    spec_rgb_to_lab (g, g, g)%Z = (116 * ty - 16, 500 * (t - ty), 200 * (ty - t))
    /\ t = spec_cie_f (spec_gamma_decode (IZR g / 255))
    /\ t <= ty <= 1.0000001 * t.
Proof.
  intros Hl. set (l := spec_gamma_decode (IZR g / 255)) in *.
  exists (spec_cie_f l), (spec_cie_f (1.0000001 * l)).
  split; [| split; [done | by apply cie_f_scaled]].
  unfold spec_rgb_to_lab. fold l.
  replace ((l * 0.4124564 + l * 0.3575761 + l * 0.1804375) / 0.95047)
    with l by lra.
  replace ((l * 0.2126729 + l * 0.7151522 + l * 0.0721750) / 1.0)
    with (1.0000001 * l) by lra.
  replace ((l * 0.0193339 + l * 0.1191920 + l * 0.9503041) / 1.08883)
    with l by lra.
  reflexivity.
Qed.

Lemma lab_gray128 :
  exists L a b,
    spec_rgb_to_lab (128, 128, 128)%Z = (L, a, b)
    /\ 51 < L < 100.00002 /\ -0.001 <= a <= 0.001 /\ -0.001 <= b <= 0.001.
Proof.
  assert (Hl : 0.193 < spec_gamma_decode (128 / 255) < 1).
  { split; [apply gamma_gt | apply gamma_lt]; lra. }
  destruct (gray_lab 128) as (t & ty & -> & Ht & Hty); [lra |].
  assert (67 / 116 < t < 1).
  { rewrite Ht. split; [apply cie_f_gt | apply cie_f_lt]; lra. }
  eexists _, _, _. split; [reflexivity |]. lra.
Qed.

Lemma lab_gray72 :
  exists L a b,
    spec_rgb_to_lab (72, 72, 72)%Z = (L, a, b)
    /\ -16 < L < 48.97 /\ -0.001 <= a <= 0.001 /\ -0.001 <= b <= 0.001.
Proof.
  assert (Hl : 0.009 < spec_gamma_decode (72 / 255) < 0.175).
  { split; [apply gamma_gt | apply gamma_lt]; lra. }
  destruct (gray_lab 72) as (t & ty & -> & Ht & Hty); [lra |].
  assert (0.2 < t < 0.56).
  { rewrite Ht. split; [apply cie_f_gt | apply cie_f_lt]; lra. }
  eexists _, _, _. split; [reflexivity |]. lra.
Qed.

Lemma lab_white :
  exists L a b,
    spec_rgb_to_lab (255, 255, 255)%Z = (L, a, b)
    /\ 100 <= L < 100.00002 /\ -0.001 <= a <= 0.001 /\ -0.001 <= b <= 0.001.
Proof.
  pose proof gamma_full as Hg.
  destruct (gray_lab 255) as (t & ty & -> & Ht & Hty); [rewrite Hg; lra |].
  rewrite Hg, cie_f_one in Ht.
  eexists _, _, _. split; [reflexivity |]. lra.
Qed.

Lemma lab_black : spec_rgb_to_lab (0, 0, 0)%Z = (0, 0, 0).
Proof.
  unfold spec_rgb_to_lab. rewrite gamma_zero.
  replace ((0 * 0.4124564 + 0 * 0.3575761 + 0 * 0.1804375) / 0.95047)
    with 0 by lra.
  replace ((0 * 0.2126729 + 0 * 0.7151522 + 0 * 0.0721750) / 1.0)
    with 0 by lra.
  replace ((0 * 0.0193339 + 0 * 0.1191920 + 0 * 0.9503041) / 1.08883)
    with 0 by lra.
  unfold spec_cie_f. destruct (Rlt_dec 0.008856 0); [lra |].
  f_equal; [f_equal |]; lra.
Qed.
Lemma lab_green :
  exists L a b, spec_rgb_to_lab (0, 255, 0)%Z = (L, a, b) /\ a < -55.
Proof.
  unfold spec_rgb_to_lab. rewrite gamma_zero, gamma_full.
  eexists _, _, _. split; [reflexivity |].
  assert (spec_cie_f ((0 * 0.4124564 + 1 * 0.3575761 + 0 * 0.1804375) / 0.95047)
          < 0.75) by (apply cie_f_lt; lra).
  assert (0.86 < spec_cie_f
            ((0 * 0.2126729 + 1 * 0.7151522 + 0 * 0.0721750) / 1.0))
    by (apply cie_f_gt; lra).
  lra.
Qed.

Lemma lab_blue :
  exists L a b, spec_rgb_to_lab (0, 0, 255)%Z = (L, a, b) /\ b < -80.
Proof.
  unfold spec_rgb_to_lab. rewrite gamma_zero, gamma_full.
  eexists _, _, _. split; [reflexivity |].
  assert (spec_cie_f ((0 * 0.2126729 + 0 * 0.7151522 + 1 * 0.0721750) / 1.0)
          < 0.5) by (apply cie_f_lt; lra).
  assert (0.9 < spec_cie_f
            ((0 * 0.0193339 + 0 * 0.1191920 + 1 * 0.9503041) / 1.08883))
    by (apply cie_f_gt; lra).
  lra.
Qed.

Lemma lab_red :
  exists L a b, spec_rgb_to_lab (255, 0, 0)%Z = (L, a, b) /\ 60 < a.
Proof.
  unfold spec_rgb_to_lab. rewrite gamma_zero, gamma_full.
  eexists _, _, _. split; [reflexivity |].
  assert (0.72 < spec_cie_f
            ((1 * 0.4124564 + 0 * 0.3575761 + 0 * 0.1804375) / 0.95047))
    by (apply cie_f_gt; lra).
  assert (spec_cie_f ((1 * 0.2126729 + 0 * 0.7151522 + 0 * 0.0721750) / 1.0)
          < 0.6) by (apply cie_f_lt; lra).
  lra.
Qed.

Lemma lab_yellow :
  exists L a b, spec_rgb_to_lab (255, 255, 0)%Z = (L, a, b) /\ 60 < b.
Proof.
  unfold spec_rgb_to_lab. rewrite gamma_zero, gamma_full.
  eexists _, _, _. split; [reflexivity |].
  assert (0.9 < spec_cie_f
            ((1 * 0.2126729 + 1 * 0.7151522 + 0 * 0.0721750) / 1.0))
    by (apply cie_f_gt; lra).
  assert (spec_cie_f ((1 * 0.0193339 + 1 * 0.1191920 + 0 * 0.9503041) / 1.08883)
          < 0.6) by (apply cie_f_lt; lra).
  lra.
Qed.

Lemma lab_orange :
  exists L a b, spec_rgb_to_lab (255, 165, 0)%Z = (L, a, b) /\ 56 < b.
Proof.
  assert (Ho : 0.1823 < spec_gamma_decode (165 / 255) < 0.5).
  { split; [apply gamma_gt | apply gamma_lt]; lra. }
  unfold spec_rgb_to_lab. rewrite gamma_zero, gamma_full.
  set (o := spec_gamma_decode (165 / 255)) in *.
  eexists _, _, _. split; [reflexivity |].
  assert (0.7 < spec_cie_f
            ((1 * 0.2126729 + o * 0.7151522 + 0 * 0.0721750) / 1.0))
    by (apply cie_f_gt; lra).
  assert (spec_cie_f ((1 * 0.0193339 + o * 0.1191920 + 0 * 0.9503041) / 1.08883)
          < 0.42) by (apply cie_f_lt; lra).
  lra.
Qed.

(** The metric between its coordinate-wise lower bound and, for two nearly
    neutral colours, the lightness difference. *)
Lemma delta_bounds (L1 a1 b1 L2 a2 b2 : R) :
  0 <= _delta_e_ciede2000 (L1, a1, b1) (L2, a2, b2)
  /\ (L2 - L1) * (L2 - L1) + (a2 - a1) * (a2 - a1) + (b2 - b1) * (b2 - b1)
     <= _delta_e_ciede2000 (L1, a1, b1) (L2, a2, b2)
        * _delta_e_ciede2000 (L1, a1, b1) (L2, a2, b2)
  /\ (forall eps,
        - eps <= a1 <= eps -> - eps <= b1 <= eps ->
        - eps <= a2 <= eps -> - eps <= b2 <= eps ->
        _delta_e_ciede2000 (L1, a1, b1) (L2, a2, b2)
        * _delta_e_ciede2000 (L1, a1, b1) (L2, a2, b2)
        <= (L2 - L1) * (L2 - L1) + 12 * (eps * eps)).
Proof.
  rewrite delta_e_ciede2000_unfold. unfold spec_simplified_ciede2000.
  set (C1 := sqrt (a1 * a1 + b1 * b1)).
  set (C2 := sqrt (a2 * a2 + b2 * b2)).
  set (h := (a2 - a1) * (a2 - a1) + (b2 - b1) * (b2 - b1)
            - (C2 - C1) * (C2 - C1)).
  set (dH := sqrt (Rmax 0 h)).
  assert (HC1 : 0 <= C1 /\ C1 * C1 = a1 * a1 + b1 * b1).
  { split; [apply sqrt_pos | apply sqrt_sqrt; nra]. }
  assert (HC2 : 0 <= C2 /\ C2 * C2 = a2 * a2 + b2 * b2).
  { split; [apply sqrt_pos | apply sqrt_sqrt; nra]. }
  clearbody C1 C2.
  assert (Hmax : 0 <= Rmax 0 h /\ h <= Rmax 0 h
                 /\ (Rmax 0 h = 0 \/ Rmax 0 h = h)).
  { unfold Rmax. destruct (Rle_dec 0 h); lra. }
  assert (HdH : dH * dH = Rmax 0 h) by (apply sqrt_sqrt; lra).
  assert (Hh : h = (a2 - a1) * (a2 - a1) + (b2 - b1) * (b2 - b1)
                   - (C2 - C1) * (C2 - C1)) by reflexivity.
  clearbody dH h.
  set (S := (L2 - L1) * (L2 - L1) + (C2 - C1) * (C2 - C1) + dH * dH).
  assert (HS : 0 <= S).
  { unfold S. rewrite HdH.
    pose proof (Rle_0_sqr (L2 - L1)). pose proof (Rle_0_sqr (C2 - C1)).
    unfold Rsqr in *. lra. }
  assert (Hd : sqrt S * sqrt S = S) by (by apply sqrt_sqrt).
  split; [apply sqrt_pos |]. rewrite Hd. split.
  - unfold S. rewrite HdH. lra.
  - intros eps Ha1 Hb1 Ha2 Hb2. unfold S. rewrite HdH.
    assert (a1 * a1 <= eps * eps) by nra.
    assert (b1 * b1 <= eps * eps) by nra.
    assert (a2 * a2 <= eps * eps) by nra.
    assert (b2 * b2 <= eps * eps) by nra.
    assert ((a2 - a1) * (a2 - a1) <= 4 * (eps * eps)) by nra.
    assert ((b2 - b1) * (b2 - b1) <= 4 * (eps * eps)) by nra.
    assert ((C2 - C1) * (C2 - C1) <= 4 * (eps * eps)) by nra.
    destruct Hmax as (_ & _ & [-> | ->]); nra.
Qed.

Lemma Rltb_true (x y : R) : x < y -> Rltb x y = true.
Proof. intros H. unfold Rltb. destruct (Rlt_dec x y); [done | lra]. Qed.

Lemma Rltb_false (x y : R) : y <= x -> Rltb x y = false.
Proof. intros H. unfold Rltb. destruct (Rlt_dec x y); [lra | done]. Qed.

Lemma square_lt (x y : R) : 0 <= x -> 0 <= y -> x * x < y * y -> x < y.
Proof. intros Hx Hy H. nra. Qed.
End Numerics.

(** ** The matcher on two greys *)

Lemma init_color_list (fast_dither : option (result backend))
    (m : SevenColorMapper) :
  __init__ fast_dither = Ok m ->
  eink_color_list m
  = map (fun '(name, c) => (name, c, spec_rgb_to_lab c)) EINK_COLORS.
Proof.
  unfold __init__. rewrite init_color_list_loop. rsimpl. cbn [app].
  match goal with
  | |- context [_build_color_lookup_table ?s0] =>
      destruct (build_table_spec s0) as (s' & E & Hl & _);
        [exact init_color_list_valid | done | done |]; rewrite E
  end.
  rsimpl. cbn [eink_color_list] in Hl.
  destruct fast_dither as [[b | e] |]; cbn; rsimpl; try done;
    by intros [= <-].
Qed.

Lemma find_closest_on_grid (m : SevenColorMapper) (r g b : Z)
    (use_ciede2000 : bool) :
  wf_mapper m ->
  0 <= r <= 255 -> 0 <= g <= 255 -> 0 <= b <= 255 ->
  r mod 4 = 0 -> g mod 4 = 0 -> b mod 4 = 0 ->
  find_closest_eink_color m (r, g, b) use_ciede2000
  = _find_closest_eink_color_direct m (r, g, b) true.
Proof.
  intros Hwf Hr Hg Hb Ar Ag Ab.
  destruct (find_closest_hit m r g b Hwf Hr Hg Hb) as (e & _ & Hd & Hf).
  replace (r / 4 * 4) with r in Hd by zlia.
  replace (g / 4 * 4) with g in Hd by zlia.
  replace (b / 4 * 4) with b in Hd by zlia.
  by rewrite Hf, Hd.
Qed.

Section GreyMatches.
Local Open Scope R_scope.

(** The direct scan returns WHITE when WHITE is strictly nearer than BLACK
    and no later colour is strictly nearer than WHITE. *)
Lemma direct_white (m : SevenColorMapper) (c : rgb) :
  eink_color_list m
  = map (fun '(name, c) => (name, c, spec_rgb_to_lab c)) EINK_COLORS ->
  (forall x : rgb,
     x ∈ [ (0, 255, 0); (0, 0, 255); (255, 0, 0); (255, 255, 0);
           (255, 165, 0) ]%Z ->
     _delta_e_ciede2000 (spec_rgb_to_lab c) (spec_rgb_to_lab (255, 255, 255)%Z)
     <= _delta_e_ciede2000 (spec_rgb_to_lab c) (spec_rgb_to_lab x)) ->
  _delta_e_ciede2000 (spec_rgb_to_lab c) (spec_rgb_to_lab (255, 255, 255)%Z)
  < _delta_e_ciede2000 (spec_rgb_to_lab c) (spec_rgb_to_lab (0, 0, 0)%Z) ->
  _find_closest_eink_color_direct m c true
  = Ok (Some ("WHITE"%string, (255, 255, 255)%Z, 1%Z)).
Proof.
  intros HL Hfar Hnear. unfold _find_closest_eink_color_direct.
  rewrite rgb_to_lab_total. rsimpl. rewrite HL. unfold EINK_COLORS. cbn [map].
  pose proof (Hfar (0, 255, 0)%Z ltac:(set_solver)) as HG.
  pose proof (Hfar (0, 0, 255)%Z ltac:(set_solver)) as HB.
  pose proof (Hfar (255, 0, 0)%Z ltac:(set_solver)) as HR.
  pose proof (Hfar (255, 255, 0)%Z ltac:(set_solver)) as HY.
  pose proof (Hfar (255, 165, 0)%Z ltac:(set_solver)) as HO.
  clear Hfar.
  set (t := spec_rgb_to_lab c) in *.
  set (lK := spec_rgb_to_lab (0, 0, 0)%Z) in *.
  set (lW := spec_rgb_to_lab (255, 255, 255)%Z) in *.
  set (lG := spec_rgb_to_lab (0, 255, 0)%Z) in *.
  set (lB := spec_rgb_to_lab (0, 0, 255)%Z) in *.
  set (lR := spec_rgb_to_lab (255, 0, 0)%Z) in *.
  set (lY := spec_rgb_to_lab (255, 255, 0)%Z) in *.
  set (lO := spec_rgb_to_lab (255, 165, 0)%Z) in *.
  clearbody t lK lW lG lB lR lY lO.
  cbn -[Rltb _delta_e_ciede2000].
  rewrite (Rltb_true _ _ Hnear). cbn -[Rltb _delta_e_ciede2000].
  rewrite (Rltb_false _ _ HG). cbn -[Rltb _delta_e_ciede2000].
  rewrite (Rltb_false _ _ HB). cbn -[Rltb _delta_e_ciede2000].
  rewrite (Rltb_false _ _ HR). cbn -[Rltb _delta_e_ciede2000].
  rewrite (Rltb_false _ _ HY). cbn -[Rltb _delta_e_ciede2000].
  rewrite (Rltb_false _ _ HO). reflexivity.
Qed.

(** The direct scan returns BLACK, the first colour, when no other colour
    is strictly nearer. *)
Lemma direct_black (m : SevenColorMapper) (c : rgb) :
  eink_color_list m
  = map (fun '(name, c) => (name, c, spec_rgb_to_lab c)) EINK_COLORS ->
  (forall x : rgb,
     x ∈ [ (255, 255, 255); (0, 255, 0); (0, 0, 255); (255, 0, 0);
           (255, 255, 0); (255, 165, 0) ]%Z ->
     _delta_e_ciede2000 (spec_rgb_to_lab c) (spec_rgb_to_lab (0, 0, 0)%Z)
     <= _delta_e_ciede2000 (spec_rgb_to_lab c) (spec_rgb_to_lab x)) ->
  _find_closest_eink_color_direct m c true
  = Ok (Some ("BLACK"%string, (0, 0, 0)%Z, 0%Z)).
Proof.
  intros HL Hfar. unfold _find_closest_eink_color_direct.
  rewrite rgb_to_lab_total. rsimpl. rewrite HL. unfold EINK_COLORS. cbn [map].
  pose proof (Hfar (255, 255, 255)%Z ltac:(set_solver)) as HW.
  pose proof (Hfar (0, 255, 0)%Z ltac:(set_solver)) as HG.
  pose proof (Hfar (0, 0, 255)%Z ltac:(set_solver)) as HB.
  pose proof (Hfar (255, 0, 0)%Z ltac:(set_solver)) as HR.
  pose proof (Hfar (255, 255, 0)%Z ltac:(set_solver)) as HY.
  pose proof (Hfar (255, 165, 0)%Z ltac:(set_solver)) as HO.
  clear Hfar.
  set (t := spec_rgb_to_lab c) in *.
  set (lK := spec_rgb_to_lab (0, 0, 0)%Z) in *.
  set (lW := spec_rgb_to_lab (255, 255, 255)%Z) in *.
  set (lG := spec_rgb_to_lab (0, 255, 0)%Z) in *.
  set (lB := spec_rgb_to_lab (0, 0, 255)%Z) in *.
  set (lR := spec_rgb_to_lab (255, 0, 0)%Z) in *.
  set (lY := spec_rgb_to_lab (255, 255, 0)%Z) in *.
  set (lO := spec_rgb_to_lab (255, 165, 0)%Z) in *.
  clearbody t lK lW lG lB lR lY lO.
  cbn -[Rltb _delta_e_ciede2000].
  rewrite (Rltb_false _ _ HW). cbn -[Rltb _delta_e_ciede2000].
  rewrite (Rltb_false _ _ HG). cbn -[Rltb _delta_e_ciede2000].
  rewrite (Rltb_false _ _ HB). cbn -[Rltb _delta_e_ciede2000].
  rewrite (Rltb_false _ _ HR). cbn -[Rltb _delta_e_ciede2000].
  rewrite (Rltb_false _ _ HY). cbn -[Rltb _delta_e_ciede2000].
  rewrite (Rltb_false _ _ HO). reflexivity.
Qed.
Lemma dist_near (L a b L' a' b' : R) :
  -0.001 <= a <= 0.001 -> -0.001 <= b <= 0.001 ->
  -0.001 <= a' <= 0.001 -> -0.001 <= b' <= 0.001 ->
  -49.0001 < L' - L < 49.0001 ->
  _delta_e_ciede2000 (L, a, b) (L', a', b')
  * _delta_e_ciede2000 (L, a, b) (L', a', b') < 2402.
Proof.
  intros Ha Hb Ha' Hb' HL.
  destruct (delta_bounds L a b L' a' b') as (_ & _ & Hup).
  specialize (Hup 0.001 ltac:(lra) ltac:(lra) ltac:(lra) ltac:(lra)). nra.
Qed.

Lemma sum_squares_far (x y z : R) :
  x < -50 \/ 50 < x \/ y < -50 \/ 50 < y \/ z < -50 \/ 50 < z ->
  2500 < x * x + y * y + z * z.
Proof.
  pose proof (Rle_0_sqr x). pose proof (Rle_0_sqr y). pose proof (Rle_0_sqr z).
  unfold Rsqr in *. intros [H' | [H' | [H' | [H' | [H' | H']]]]]; nra.
Qed.

Lemma dist_far (L a b L' a' b' : R) :
  L' - L < -50 \/ 50 < L' - L \/ a' - a < -50 \/ 50 < a' - a
  \/ b' - b < -50 \/ 50 < b' - b ->
  2402 < _delta_e_ciede2000 (L, a, b) (L', a', b')
         * _delta_e_ciede2000 (L, a, b) (L', a', b').
Proof.
  intros H. apply sum_squares_far in H.
  destruct (delta_bounds L a b L' a' b') as (_ & Hlow & _). lra.
Qed.

Lemma dist_near_lt_far (t lX lY : lab) :
  _delta_e_ciede2000 t lX * _delta_e_ciede2000 t lX < 2402 ->
  2402 < _delta_e_ciede2000 t lY * _delta_e_ciede2000 t lY ->
  _delta_e_ciede2000 t lX < _delta_e_ciede2000 t lY.
Proof.
  destruct t as [[L a] b], lX as [[L1 a1] b1], lY as [[L2 a2] b2].
  intros H1 H2.
  destruct (delta_bounds L a b L1 a1 b1) as (P1 & _).
  destruct (delta_bounds L a b L2 a2 b2) as (P2 & _).
  apply square_lt; [done | done | lra].
Qed.

(** Mid-grey 128 is matched to WHITE. *)
Lemma grey128_matches_white (m : SevenColorMapper) :
  eink_color_list m
  = map (fun '(name, c) => (name, c, spec_rgb_to_lab c)) EINK_COLORS ->
  _find_closest_eink_color_direct m (128, 128, 128)%Z true
  = Ok (Some ("WHITE"%string, (255, 255, 255)%Z, 1%Z)).
Proof.
  intros HL. apply direct_white; [done | |];
    destruct lab_gray128 as (L & a & b & -> & HLb & Ha & Hb);
    destruct lab_white as (LW & aW & bW & EW & HLW & HaW & HbW).
  - intros x Hx. apply Rlt_le, dist_near_lt_far.
    { rewrite EW. apply dist_near; lra. }
    rewrite !elem_of_cons, elem_of_nil in Hx.
    destruct Hx as [-> | [-> | [-> | [-> | [-> | []]]]]].
    + destruct lab_green as (L' & a' & b' & -> & H'). apply dist_far. lra.
    + destruct lab_blue as (L' & a' & b' & -> & H'). apply dist_far. lra.
    + destruct lab_red as (L' & a' & b' & -> & H'). apply dist_far. lra.
    + destruct lab_yellow as (L' & a' & b' & -> & H'). apply dist_far. lra.
    + destruct lab_orange as (L' & a' & b' & -> & H'). apply dist_far. lra.
  - apply dist_near_lt_far.
    + rewrite EW. apply dist_near; lra.
    + rewrite lab_black. apply dist_far. lra.
Qed.

(** The grey 72 is matched to BLACK. *)
Lemma grey72_matches_black (m : SevenColorMapper) :
  eink_color_list m
  = map (fun '(name, c) => (name, c, spec_rgb_to_lab c)) EINK_COLORS ->
  _find_closest_eink_color_direct m (72, 72, 72)%Z true
  = Ok (Some ("BLACK"%string, (0, 0, 0)%Z, 0%Z)).
Proof.
  intros HL. apply direct_black; [done |].
  destruct lab_gray72 as (L & a & b & -> & HLb & Ha & Hb).
  intros x Hx. apply Rlt_le, dist_near_lt_far.
  { rewrite lab_black. apply dist_near; lra. }
  rewrite !elem_of_cons, elem_of_nil in Hx.
  destruct Hx as [-> | [-> | [-> | [-> | [-> | [-> | []]]]]]].
  + destruct lab_white as (L' & a' & b' & -> & H' & _). apply dist_far. lra.
  + destruct lab_green as (L' & a' & b' & -> & H'). apply dist_far. lra.
  + destruct lab_blue as (L' & a' & b' & -> & H'). apply dist_far. lra.
  + destruct lab_red as (L' & a' & b' & -> & H'). apply dist_far. lra.
  + destruct lab_yellow as (L' & a' & b' & -> & H'). apply dist_far. lra.
  + destruct lab_orange as (L' & a' & b' & -> & H'). apply dist_far. lra.
Qed.
End GreyMatches.

(** ** The 2 x 1 mid-grey image when the progress test does not raise *)

Lemma fs_kernel_first (P Q error_rgb : rgbf) :
  for_each floyd_steinberg_kernel (distribute_error 2 1 0 0 error_rgb)
    [ [ P; Q ] ]
  = Ok [ [ P; clip_px (px_add_scaled Q error_rgb (7 / 16)%R) ] ].
Proof. reflexivity. Qed.

Lemma fs_kernel_second (P Q error_rgb : rgbf) :
  for_each floyd_steinberg_kernel (distribute_error 2 1 1 0 error_rgb)
    [ [ P; Q ] ]
  = Ok [ [ P; Q ] ].
Proof. reflexivity. Qed.

Section GreyPair.
Local Open Scope R_scope.

Lemma astype_int_IZR (z : Z) : (0 <= z)%Z -> astype_int (IZR z) = z.
Proof.
  intros Hz. unfold astype_int.
  destruct (Rlt_dec (IZR z) 0) as [Hn | _].
  - apply (IZR_le 0) in Hz. lra.
  - symmetry. apply Int_part_spec. lra.
Qed.

Lemma np_clip_id (v : R) : in_range v -> np_clip v 0 255 = v.
Proof.
  unfold in_range, np_clip, Rmin, Rmax. intros H.
  destruct (Rle_dec v 0); destruct (Rle_dec _ 255); lra.
Qed.

Lemma clip_px_id (v : rgbf) : in_range_px v -> clip_px v = v.
Proof.
  destruct v as [[r g] b]. intros (Hr & Hg & Hb). unfold clip_px.
  by rewrite !np_clip_id.
Qed.

Lemma current_rgb_of_u8 (c : rgb) :
  u8 c -> astype_int_px (clip_px (to_float c)) = c.
Proof.
  intros Hc. rewrite clip_px_id by (by apply to_float_in_range).
  destruct c as [[r g] b]. destruct Hc as (Hr & Hg & Hb).
  unfold to_float, astype_int_px. by rewrite !astype_int_IZR by lia.
Qed.

Lemma astype_int_floor (v : R) (z : Z) :
  0 <= v -> IZR z <= v < IZR z + 1 -> astype_int v = z.
Proof.
  intros H0 Hz. unfold astype_int. destruct (Rlt_dec v 0); [lra |].
  symmetry. apply Int_part_spec. lra.
Qed.

Lemma second_pixel_value :
  astype_int_px
    (clip_px
       (clip_px
          (px_add_scaled (to_float (128, 128, 128)%Z)
             (px_sub (to_float (128, 128, 128)%Z)
                (to_float (255, 255, 255)%Z))
             (7 / 16))))
  = (72, 72, 72)%Z.
Proof.
  unfold to_float, px_sub, px_add_scaled, clip_px, astype_int_px.
  rewrite !np_clip_id
    by (unfold in_range; try rewrite np_clip_id by (unfold in_range; lra); lra).
  by rewrite (astype_int_floor _ 72) by lra.
Qed.
End GreyPair.

(** A turn of the pixel loop that misses the memo. *)
Lemma dither_pixel_miss (m : SevenColorMapper) (kernel : list (Z * Z * R))
    (width height y x : Z) (st : dither_state) (v : rgbf)
    (current_rgb : rgb) (name : string) (c : rgb) (index : Z)
    (out : grid rgb) (arr : grid rgbf) :
  grid_get (img_array st) y x = Ok v ->
  astype_int_px (clip_px v) = current_rgb ->
  local_cache st !! current_rgb = None ->
  find_closest_eink_color m current_rgb true = Ok (Some (name, c, index)) ->
  grid_set (output_array st) y x c = Ok out ->
  for_each kernel (distribute_error width height x y (px_sub v (to_float c)))
    (img_array st) = Ok arr ->
  dither_pixel m kernel width height y x st
  = Ok {| img_array := arr;
          output_array := out;
          local_cache := <[current_rgb := c]> (local_cache st) |}.
Proof.
  intros Hv Hc Hmiss Hfind Hout Harr. unfold dither_pixel.
  rewrite Hv. rsimpl. cbv zeta. rewrite Hc, Hmiss, Hfind. rsimpl.
  cbn [unpack]. rsimpl. rewrite Hout. rsimpl. by rewrite Harr.
Qed.

(** Once three seconds have elapsed when row 0 starts, the Python path
    dithers the 2 x 1 mid-grey image to WHITE, BLACK: the first pixel is
    nearest to WHITE, and 7/16 of its error takes the second one down to
    72, which is nearest to BLACK. *)
Lemma gray_2x1_dithers (fast_dither : option (result backend))
    (m : SevenColorMapper) (elapsed : Z -> bool) :
  __init__ fast_dither = Ok m -> fast_ditherer m = None ->
  elapsed 0 = true ->
  quantize_image_advanced_dithering m elapsed gray_2x1
    "floyd_steinberg_7color"
  = Ok [ [ (255, 255, 255); (0, 0, 0) ] ].
Proof.
  intros Hinit Hfd He.
  pose proof (init_color_list _ _ Hinit) as HL.
  destruct (init_spec _ _ Hinit) as [Hwf _].
  assert (HW : find_closest_eink_color m (128, 128, 128) true
               = Ok (Some ("WHITE"%string, (255, 255, 255), 1))).
  { rewrite find_closest_on_grid by (done || lia).
    by apply grey128_matches_white. }
  assert (HK : find_closest_eink_color m (72, 72, 72) true
               = Ok (Some ("BLACK"%string, (0, 0, 0), 0))).
  { rewrite find_closest_on_grid by (done || lia).
    by apply grey72_matches_black. }
  unfold quantize_image_advanced_dithering. rewrite Hfd. rsimpl.
  unfold python_dithering.
  set (P := to_float (128, 128, 128)).
  change (np_array_float32 gray_2x1) with [ [ P; P ] ].
  change (shape [ [ P; P ] ]) with (1, 2).
  change (String.eqb "floyd_steinberg_7color" "simple") with false.
  cbv beta iota.
  change (error_kernel "floyd_steinberg_7color") with floyd_steinberg_kernel.
  change (py_range 0 1 1) with [ 0 ].
  change (np_zeros 1 2) with [ [ (0, 0, 0); (0, 0, 0) ] ].
  unfold dither_rows. cbn [for_each]. unfold progress_due. rewrite He. rsimpl.
  change (x_range 0 2) with [ 0; 1 ].
  cbn [for_each].
  erewrite (dither_pixel_miss m _ 2 1 0 0 _ P (128, 128, 128));
    [| reflexivity | by apply current_rgb_of_u8 | apply lookup_empty | exact HW
     | reflexivity | apply fs_kernel_first ].
  rsimpl. cbn [img_array output_array local_cache].
  erewrite (dither_pixel_miss m _ 2 1 0 1 _ _ (72, 72, 72));
    [| reflexivity | exact second_pixel_value
     | cbn [local_cache]; by rewrite lookup_insert_ne
     | exact HK | reflexivity | apply fs_kernel_second ].
  by rsimpl.
Qed.

(** * Further properties of the colour differences *)

Section MetricLaws.
Local Open Scope R_scope.

(** The hue term is never clamped: the chroma difference is at most the
    distance in the (a, b) plane. *)
Lemma hue_term_nonneg (a1 b1 a2 b2 : R) :
  0 <= (a2 - a1) ^ 2 + (b2 - b1) ^ 2
       - (sqrt (a2 ^ 2 + b2 ^ 2) - sqrt (a1 ^ 2 + b1 ^ 2)) ^ 2.
Proof.
  set (C1 := sqrt (a1 ^ 2 + b1 ^ 2)). set (C2 := sqrt (a2 ^ 2 + b2 ^ 2)).
  assert (H1 : 0 <= C1 /\ C1 * C1 = a1 ^ 2 + b1 ^ 2).
  { split; [apply sqrt_pos | apply sqrt_sqrt; nra]. }
  assert (H2 : 0 <= C2 /\ C2 * C2 = a2 ^ 2 + b2 ^ 2).
  { split; [apply sqrt_pos | apply sqrt_sqrt; nra]. }
  clearbody C1 C2. destruct H1 as [P1 E1], H2 as [P2 E2].
  assert (Hcs : a1 * a2 + b1 * b2 <= C1 * C2).
  { destruct (Rle_dec (a1 * a2 + b1 * b2) 0) as [Hn | Hp]; [nra |].
    apply Rnot_le_lt in Hp.
    assert (Hsq : (a1 * a2 + b1 * b2) * (a1 * a2 + b1 * b2)
                  <= (C1 * C2) * (C1 * C2)).
    { replace ((C1 * C2) * (C1 * C2)) with ((C1 * C1) * (C2 * C2)) by ring.
      rewrite E1, E2. pose proof (Rle_0_sqr (a1 * b2 - a2 * b1)) as Hd.
      unfold Rsqr in Hd. nra. }
    assert (0 <= C1 * C2) by nra. nra. }
  nra.
Qed.

Lemma delta_e_ciede2000_cie76 (lab1 lab2 : lab) :
  _delta_e_ciede2000 lab1 lab2 = _delta_e_cie76 lab1 lab2.
Proof.
  destruct lab1 as [[L1 a1] b1], lab2 as [[L2 a2] b2].
  unfold _delta_e_ciede2000, _delta_e_cie76. cbv zeta.
  rewrite py_max_Rmax, !unit_weight.
  pose proof (hue_term_nonneg a1 b1 a2 b2) as Hh.
  rewrite Rmax_right by exact Hh.
  f_equal. rewrite (pow2_mult (sqrt _)), sqrt_sqrt by exact Hh. ring.
Qed.

Lemma delta_e_func_flag (use_ciede2000 : bool) (lab1 lab2 : lab) :
  delta_e_func use_ciede2000 lab1 lab2 = _delta_e_cie76 lab1 lab2.
Proof. destruct use_ciede2000; [apply delta_e_ciede2000_cie76 | done]. Qed.

Lemma cie76_sqr (lab1 lab2 : lab) :
  0 <= _delta_e_cie76 lab1 lab2
  /\ _delta_e_cie76 lab1 lab2 * _delta_e_cie76 lab1 lab2
     = (lab2.1.1 - lab1.1.1) ^ 2 + (lab2.1.2 - lab1.1.2) ^ 2
       + (lab2.2 - lab1.2) ^ 2.
Proof.
  destruct lab1 as [[L1 a1] b1], lab2 as [[L2 a2] b2]. cbn [fst snd].
  unfold _delta_e_cie76. split; [apply sqrt_pos |]. apply sqrt_sqrt.
  repeat apply Rplus_le_le_0_compat; apply pow2_ge_0.
Qed.

Lemma cie76_sym (lab1 lab2 : lab) :
  _delta_e_cie76 lab1 lab2 = _delta_e_cie76 lab2 lab1.
Proof.
  destruct lab1 as [[L1 a1] b1], lab2 as [[L2 a2] b2].
  unfold _delta_e_cie76. f_equal. ring.
Qed.

Lemma cie76_zero (lab1 lab2 : lab) :
  _delta_e_cie76 lab1 lab2 = 0 <-> lab1 = lab2.
Proof.
  destruct (cie76_sqr lab1 lab2) as [Hp Hs].
  destruct lab1 as [[L1 a1] b1], lab2 as [[L2 a2] b2]. cbn [fst snd] in Hs.
  split.
  - intros H0. rewrite H0 in Hs.
    assert (Hz : forall x, 0 <= x ^ 2 /\ (x ^ 2 = 0 -> x = 0)).
    { intros x. split; [apply pow2_ge_0 |]. rewrite pow2_mult. intros Hx.
      by destruct (Rmult_integral _ _ Hx). }
    destruct (Hz (L2 - L1)) as [? HL], (Hz (a2 - a1)) as [? Ha],
      (Hz (b2 - b1)) as [? Hb].
    f_equal; [f_equal |]; symmetry; apply Rminus_diag_uniq;
      [apply HL | apply Ha | apply Hb]; lra.
  - intros [= -> -> ->]. unfold _delta_e_cie76.
    replace ((L2 - L2) ^ 2 + (a2 - a2) ^ 2 + (b2 - b2) ^ 2) with 0 by ring.
    apply sqrt_0.
Qed.

Lemma cie76_triangle (lab1 lab2 lab3 : lab) :
  _delta_e_cie76 lab1 lab3
  <= _delta_e_cie76 lab1 lab2 + _delta_e_cie76 lab2 lab3.
Proof.
  destruct (cie76_sqr lab1 lab2) as [P12 S12].
  destruct (cie76_sqr lab2 lab3) as [P23 S23].
  destruct (cie76_sqr lab1 lab3) as [P13 S13].
  destruct lab1 as [[L1 a1] b1], lab2 as [[L2 a2] b2], lab3 as [[L3 a3] b3].
  cbn [fst snd] in *.
  set (d12 := _delta_e_cie76 (L1, a1, b1) (L2, a2, b2)) in *.
  set (d23 := _delta_e_cie76 (L2, a2, b2) (L3, a3, b3)) in *.
  set (d13 := _delta_e_cie76 (L1, a1, b1) (L3, a3, b3)) in *.
  clearbody d12 d23 d13.
  set (u1 := L2 - L1) in *. set (u2 := a2 - a1) in *. set (u3 := b2 - b1) in *.
  set (v1 := L3 - L2) in *. set (v2 := a3 - a2) in *. set (v3 := b3 - b2) in *.
  replace (L3 - L1) with (u1 + v1) in S13 by (unfold u1, v1; ring).
  replace (a3 - a1) with (u2 + v2) in S13 by (unfold u2, v2; ring).
  replace (b3 - b1) with (u3 + v3) in S13 by (unfold u3, v3; ring).
  clearbody u1 u2 u3 v1 v2 v3. rewrite !pow2_mult in S12, S23, S13.
  assert (Hcs : u1 * v1 + u2 * v2 + u3 * v3 <= d12 * d23).
  { destruct (Rle_dec (u1 * v1 + u2 * v2 + u3 * v3) 0) as [Hn | Hp]; [nra |].
    apply Rnot_le_lt in Hp.
    assert (Hsq : (u1 * v1 + u2 * v2 + u3 * v3) * (u1 * v1 + u2 * v2 + u3 * v3)
                  <= (d12 * d23) * (d12 * d23)).
    { replace ((d12 * d23) * (d12 * d23)) with ((d12 * d12) * (d23 * d23)) by ring.
      rewrite S12, S23.
      pose proof (Rle_0_sqr (u1 * v2 - u2 * v1)) as H1.
      pose proof (Rle_0_sqr (u1 * v3 - u3 * v1)) as H2.
      pose proof (Rle_0_sqr (u2 * v3 - u3 * v2)) as H3.
      unfold Rsqr in *. nra. }
    assert (0 <= d12 * d23) by nra. nra. }
  assert (Hsq : d13 * d13 <= (d12 + d23) * (d12 + d23)).
  { replace ((d12 + d23) * (d12 + d23))
      with (d12 * d12 + 2 * (d12 * d23) + d23 * d23) by ring.
    rewrite S13, S12, S23.
    replace ((u1 + v1) * (u1 + v1) + (u2 + v2) * (u2 + v2)
             + (u3 + v3) * (u3 + v3))
      with (u1 * u1 + u2 * u2 + u3 * u3
            + 2 * (u1 * v1 + u2 * v2 + u3 * v3)
            + (v1 * v1 + v2 * v2 + v3 * v3)) by ring.
    lra. }
  nra.
Qed.

(** X1: over the reals the metric the code calls CIEDE2000 is the CIE76
    distance.  The hue term [da^2 + db^2 - dC^2] is never negative, so
    [max(0, .)] never clamps and [dC^2 + dH^2 = da^2 + db^2]. *)
Theorem ciede2000_equals_cie76 (lab1 lab2 : lab) :
  _delta_e_ciede2000 lab1 lab2 = _delta_e_cie76 lab1 lab2.
Proof. apply delta_e_ciede2000_cie76. Qed.

(** X2: [_delta_e_cie76] is a metric on LAB triples: it is never negative,
    it is zero exactly between equal triples, it is symmetric, and it obeys
    the triangle inequality. *)
Theorem cie76_metric_laws (lab1 lab2 lab3 : lab) :
  0 <= _delta_e_cie76 lab1 lab2
  /\ (_delta_e_cie76 lab1 lab2 = 0 <-> lab1 = lab2)
  /\ _delta_e_cie76 lab1 lab2 = _delta_e_cie76 lab2 lab1
  /\ _delta_e_cie76 lab1 lab3
     <= _delta_e_cie76 lab1 lab2 + _delta_e_cie76 lab2 lab3.
Proof.
  split; [apply cie76_sqr |]. split; [apply cie76_zero |].
  split; [apply cie76_sym | apply cie76_triangle].
Qed.
End MetricLaws.

(** ** The direct scan returns the nearest palette colour *)

Lemma direct_flag_irrelevant (self : SevenColorMapper) (c : rgb)
    (use_ciede2000 : bool) :
  _find_closest_eink_color_direct self c use_ciede2000
  = _find_closest_eink_color_direct self c false.
Proof.
  unfold _find_closest_eink_color_direct.
  destruct (_rgb_to_lab c) as [target_lab | e]; rsimpl; [| done].
  f_equal. apply for_each_ext. intros [[name rgb_val] lab_val] [min_distance cl].
  by rewrite delta_e_func_flag.
Qed.

Section Nearest.
Local Open Scope R_scope.

Lemma direct_nearest (self : SevenColorMapper) (c : rgb) (use_ciede2000 : bool) :
  valid_color_list (eink_color_list self) ->
  eink_color_list self <> [] ->
  exists before name rgb_val lab_val index after,
    eink_color_list self = before ++ (name, rgb_val, lab_val) :: after
    /\ _find_closest_eink_color_direct self c use_ciede2000
       = Ok (Some (name, rgb_val, index))
    /\ dict_get COLOR_INDICES name = Ok index
    /\ (forall e, e ∈ before ->
          _delta_e_cie76 (spec_rgb_to_lab c) lab_val
          < _delta_e_cie76 (spec_rgb_to_lab c) e.2)
    /\ (forall e, e ∈ after ->
          _delta_e_cie76 (spec_rgb_to_lab c) lab_val
          <= _delta_e_cie76 (spec_rgb_to_lab c) e.2).
Proof.
  intros Hv Hne. rewrite direct_flag_irrelevant.
  unfold _find_closest_eink_color_direct.
  rewrite rgb_to_lab_total. rsimpl.
  set (D := _delta_e_cie76 (spec_rgb_to_lab c)).
  match goal with
  | |- context [@for_each ?A ?S _ ?body ?s0] =>
      destruct (for_each_invariant (A:=A) (S:=S) (scan_inv D) body
                  (eink_color_list self) s0) as (st & E & HP)
  end.
  - done.
  - intros done [[n rgb_val] lab_val] [m cl] HP Hin.
    unfold valid_color_list in Hv. rewrite Forall_forall in Hv.
    specialize (Hv _ Hin). cbn in Hv.
    destruct (palette_name_has_index _ _ Hv) as [i Hi].
    cbn [delta_e_func]. fold (D lab_val).
    destruct m as [| d].
    + destruct cl; [done |]. cbn in HP. subst done. cbn [below].
      rewrite Hi. rsimpl. eexists. split; [done |].
      exists [], lab_val, [].
      split; [done |]. split; [done |]. split; [done |].
      split; intros e He; inversion He.
    + destruct cl as [[[n0 rv0] i0] |]; [| done].
      destruct HP as (b & lv & a & -> & -> & Hi0 & Hb & Ha).
      cbn [below]. unfold Rltb. destruct (Rlt_dec (D lab_val) (D lv)) as [Hlt | Hge].
      * rewrite Hi. rsimpl. eexists. split; [done |].
        exists (b ++ (n0, rv0, lv) :: a), lab_val, [].
        split; [done |]. split; [done |]. split; [done |].
        split; [| intros e He; inversion He].
        intros e He. apply elem_of_app in He as [He | He].
        -- specialize (Hb e He). lra.
        -- apply elem_of_cons in He as [-> | He]; [done |].
           specialize (Ha e He). lra.
      * eexists. split; [done |].
        exists b, lv, (a ++ [(n, rgb_val, lab_val)]).
        split; [by rewrite <- app_assoc |]. split; [done |]. split; [done |].
        split; [done |].
        intros e He. apply elem_of_app in He as [He | He]; [by apply Ha |].
        apply list_elem_of_singleton in He as ->. cbn [snd]. lra.
  - rewrite E. destruct st as [[| d] [[[n rv] i] |]]; try done.
    destruct HP as (b & lv & a & Hl & _ & Hi & Hb & Ha).
    exists b, n, rv, lv, i, a. done.
Qed.

(** X3: on a constructed mapper the direct scan returns one of the seven
    palette entries, with its index, and that entry is a nearest one to the
    target in LAB under the metric in use: every entry before it in palette
    order is strictly farther and every entry after it is at least as far
    (the first of several equally near entries wins). *)
Theorem direct_scan_returns_nearest (fast_dither : option (result backend))
    (m : SevenColorMapper) (c : rgb) (use_ciede2000 : bool) :
  __init__ fast_dither = Ok m ->
  exists target_lab before name rgb_val lab_val index after,
    _rgb_to_lab c = Ok target_lab
    /\ eink_color_list m = before ++ (name, rgb_val, lab_val) :: after
    /\ _find_closest_eink_color_direct m c use_ciede2000
       = Ok (Some (name, rgb_val, index))
    /\ dict_get COLOR_INDICES name = Ok index
    /\ (forall e, e ∈ before ->
          delta_e_func use_ciede2000 target_lab lab_val
          < delta_e_func use_ciede2000 target_lab e.2)
    /\ (forall e, e ∈ after ->
          delta_e_func use_ciede2000 target_lab lab_val
          <= delta_e_func use_ciede2000 target_lab e.2).
Proof.
  intros Hinit. destruct (init_spec _ _ Hinit) as [(Hv & Hne & _) _].
  destruct (direct_nearest m c use_ciede2000 Hv Hne)
    as (before & name & rgb_val & lab_val & index & after & H).
  exists (spec_rgb_to_lab c), before, name, rgb_val, lab_val, index, after.
  split; [apply rgb_to_lab_total |].
  destruct H as (Hl & Hd & Hi & Hb & Ha).
  split; [done |]. split; [done |]. split; [done |].
  split; intros e He; rewrite !delta_e_func_flag; [by apply Hb | by apply Ha].
Qed.

(** X4: the direct scan does not depend on its metric flag: with
    [use_ciede2000] true or false it returns the same entry on every
    input and every mapper. *)
Theorem direct_scan_ignores_metric_flag (self : SevenColorMapper) (c : rgb) :
  _find_closest_eink_color_direct self c true
  = _find_closest_eink_color_direct self c false.
Proof. apply direct_flag_irrelevant. Qed.
End Nearest.

Lemma direct_scan_returns_nearest_witness :
  exists target_lab before name rgb_val lab_val index after,
    _rgb_to_lab (10, 20, 30) = Ok target_lab
    /\ eink_color_list default_mapper
       = before ++ (name, rgb_val, lab_val) :: after
    /\ _find_closest_eink_color_direct default_mapper (10, 20, 30) true
       = Ok (Some (name, rgb_val, index))
    /\ dict_get COLOR_INDICES name = Ok index
    /\ (forall e, e ∈ before ->
          (delta_e_func true target_lab lab_val
           < delta_e_func true target_lab e.2)%R)
    /\ (forall e, e ∈ after ->
          (delta_e_func true target_lab lab_val
           <= delta_e_func true target_lab e.2)%R).
Proof.
  apply (direct_scan_returns_nearest None default_mapper (10, 20, 30) true).
  exact default_mapper_init.
Defined.

(** ** Numeric boxes for the palette and for its table keys *)

Section Boxes.
Local Open Scope R_scope.

(** LAB of a colour from bounds on its three decoded channels and on the
    cube roots of the three tristimulus values. *)
Lemma lab_in_box (r g b : Z) (rl ru gl gu bl bu x1 x2 y1 y2 z1 z2 : R) :
  rl <= spec_gamma_decode (IZR r / 255) <= ru ->
  gl <= spec_gamma_decode (IZR g / 255) <= gu ->
  bl <= spec_gamma_decode (IZR b / 255) <= bu ->
  0 < x1 -> 0 < y1 -> 0 < z1 -> 0 < x2 -> 0 < y2 -> 0 < z2 ->
  0.008856 < (rl * 0.4124564 + gl * 0.3575761 + bl * 0.1804375) / 0.95047 ->
  0.008856 < (rl * 0.2126729 + gl * 0.7151522 + bl * 0.0721750) / 1.0 ->
  0.008856 < (rl * 0.0193339 + gl * 0.1191920 + bl * 0.9503041) / 1.08883 ->
  x1 ^ 3 < (rl * 0.4124564 + gl * 0.3575761 + bl * 0.1804375) / 0.95047 ->
  (ru * 0.4124564 + gu * 0.3575761 + bu * 0.1804375) / 0.95047 < x2 ^ 3 ->
  y1 ^ 3 < (rl * 0.2126729 + gl * 0.7151522 + bl * 0.0721750) / 1.0 ->
  (ru * 0.2126729 + gu * 0.7151522 + bu * 0.0721750) / 1.0 < y2 ^ 3 ->
  z1 ^ 3 < (rl * 0.0193339 + gl * 0.1191920 + bl * 0.9503041) / 1.08883 ->
  (ru * 0.0193339 + gu * 0.1191920 + bu * 0.9503041) / 1.08883 < z2 ^ 3 ->
  lab_box (spec_rgb_to_lab (r, g, b))
    (116 * y1 - 16) (116 * y2 - 16)
    (500 * (x1 - y2)) (500 * (x2 - y1))
    (200 * (y1 - z2)) (200 * (y2 - z1)).
Proof.
  intros Hr Hg Hb Px1 Py1 Pz1 Px2 Py2 Pz2 Tx Ty Tz X1 X2 Y1 Y2 Z1 Z2.
  unfold spec_rgb_to_lab, lab_box. cbn [fst snd].
  set (rv := spec_gamma_decode (IZR r / 255)) in *.
  set (gv := spec_gamma_decode (IZR g / 255)) in *.
  set (bv := spec_gamma_decode (IZR b / 255)) in *.
  clearbody rv gv bv.
  set (cx1 := x1 ^ 3) in *. set (cx2 := x2 ^ 3) in *.
  set (cy1 := y1 ^ 3) in *. set (cy2 := y2 ^ 3) in *.
  set (cz1 := z1 ^ 3) in *. set (cz2 := z2 ^ 3) in *.
  assert (Fx : x1 < spec_cie_f ((rv * 0.4124564 + gv * 0.3575761 + bv * 0.1804375)
                                / 0.95047) < x2).
  { split; [apply cie_f_gt | apply cie_f_lt]; try done; fold cx1 cx2;
      clearbody cx1 cx2 cy1 cy2 cz1 cz2; lra. }
  assert (Fy : y1 < spec_cie_f ((rv * 0.2126729 + gv * 0.7151522 + bv * 0.0721750)
                                / 1.0) < y2).
  { split; [apply cie_f_gt | apply cie_f_lt]; try done; fold cy1 cy2;
      clearbody cx1 cx2 cy1 cy2 cz1 cz2; lra. }
  assert (Fz : z1 < spec_cie_f ((rv * 0.0193339 + gv * 0.1191920 + bv * 0.9503041)
                                / 1.08883) < z2).
  { split; [apply cie_f_gt | apply cie_f_lt]; try done; fold cz1 cz2;
      clearbody cx1 cx2 cy1 cy2 cz1 cz2; lra. }
  clearbody cx1 cx2 cy1 cy2 cz1 cz2. lra.
Qed.

Lemma gamma_252 : 0.973 <= spec_gamma_decode (252 / 255) <= 0.974.
Proof. split; apply Rlt_le; [apply gamma_gt | apply gamma_lt]; lra. Qed.

Lemma gamma_165 : 0.376 <= spec_gamma_decode (165 / 255) <= 0.377.
Proof. split; apply Rlt_le; [apply gamma_gt | apply gamma_lt]; lra. Qed.

Lemma gamma_164 : 0.371 <= spec_gamma_decode (164 / 255) <= 0.372.
Proof. split; apply Rlt_le; [apply gamma_gt | apply gamma_lt]; lra. Qed.

Lemma gamma_0 : 0 <= spec_gamma_decode (0 / 255) <= 0.
Proof. rewrite gamma_zero. lra. Qed.

Lemma gamma_255 : 1 <= spec_gamma_decode (255 / 255) <= 1.
Proof. rewrite gamma_full. lra. Qed.

Ltac box_from H :=
  unfold lab_box in *; cbn [fst snd] in *;
  repeat match type of H with
         | ?P -> _ =>
             let HP := fresh in
             assert (HP : P) by lra; specialize (H HP); clear HP
         end;
  lra.

Lemma box_green :
  lab_box (spec_rgb_to_lab (0, 255, 0)%Z)
    87.24 87.82 (-87.5) (-82.5) 82 84.
Proof.
  pose proof (lab_in_box 0 255 0 0 0 1 1 0 0 0.72 0.725 0.89 0.895 0.475 0.48
                gamma_0 gamma_255 gamma_0) as H.
  box_from H.
Qed.

Lemma box_blue :
  lab_box (spec_rgb_to_lab (0, 0, 255)%Z)
    32.14 32.72 75 80 (-109) (-107).
Proof.
  pose proof (lab_in_box 0 0 255 0 0 0 0 1 1 0.57 0.575 0.415 0.42 0.955 0.96
                gamma_0 gamma_0 gamma_255) as H.
  box_from H.
Qed.

Lemma box_red :
  lab_box (spec_rgb_to_lab (255, 0, 0)%Z)
    53.02 53.6 77.5 82.5 66 68.
Proof.
  pose proof (lab_in_box 255 0 0 1 1 0 0 0 0 0.755 0.76 0.595 0.6 0.26 0.265
                gamma_255 gamma_0 gamma_0) as H.
  box_from H.
Qed.

Lemma box_yellow :
  lab_box (spec_rgb_to_lab (255, 255, 0)%Z)
    97.1 97.68 (-25) (-20) 94 96.
Proof.
  pose proof (lab_in_box 255 255 0 1 1 1 1 0 0 0.93 0.935 0.975 0.98 0.5 0.505
                gamma_255 gamma_255 gamma_0) as H.
  box_from H.
Qed.

Lemma box_orange :
  lab_box (spec_rgb_to_lab (255, 165, 0)%Z)
    74.48 75.06 22.5 27.5 78 80.
Proof.
  pose proof (lab_in_box 255 165 0 1 1 0.376 0.377 0 0 0.83 0.835 0.78 0.785 0.385 0.39
                gamma_255 gamma_165 gamma_0) as H.
  box_from H.
Qed.

Lemma box_key_white :
  lab_box (spec_rgb_to_lab (252, 252, 252)%Z)
    98.84 99.42 (-2.5) 2.5 (-1) 1.
Proof.
  pose proof (lab_in_box 252 252 252 0.973 0.974 0.973 0.974 0.973 0.974 0.99 0.995 0.99 0.995 0.99 0.995
                gamma_252 gamma_252 gamma_252) as H.
  box_from H.
Qed.

Lemma box_key_green :
  lab_box (spec_rgb_to_lab (0, 252, 0)%Z)
    86.66 87.24 (-87.5) (-82.5) 82 84.
Proof.
  pose proof (lab_in_box 0 252 0 0 0 0.973 0.974 0 0 0.715 0.72 0.885 0.89 0.47 0.475
                gamma_0 gamma_252 gamma_0) as H.
  box_from H.
Qed.

Lemma box_key_blue :
  lab_box (spec_rgb_to_lab (0, 0, 252)%Z)
    31.56 32.14 75 80 (-108) (-106).
Proof.
  pose proof (lab_in_box 0 0 252 0 0 0 0 0.973 0.974 0.565 0.57 0.41 0.415 0.945 0.95
                gamma_0 gamma_0 gamma_252) as H.
  box_from H.
Qed.

Lemma box_key_red :
  lab_box (spec_rgb_to_lab (252, 0, 0)%Z)
    52.44 53.02 77.5 82.5 66 68.
Proof.
  pose proof (lab_in_box 252 0 0 0.973 0.974 0 0 0 0 0.75 0.755 0.59 0.595 0.255 0.26
                gamma_252 gamma_0 gamma_0) as H.
  box_from H.
Qed.

Lemma box_key_yellow :
  lab_box (spec_rgb_to_lab (252, 252, 0)%Z)
    95.94 96.52 (-25) (-20) 93 95.
Proof.
  pose proof (lab_in_box 252 252 0 0.973 0.974 0.973 0.974 0 0 0.92 0.925 0.965 0.97 0.495 0.5
                gamma_252 gamma_252 gamma_0) as H.
  box_from H.
Qed.

Lemma box_key_orange :
  lab_box (spec_rgb_to_lab (252, 164, 0)%Z)
    73.9 74.48 22.5 27.5 77 79.
Proof.
  pose proof (lab_in_box 252 164 0 0.973 0.974 0.371 0.372 0 0 0.825 0.83 0.775 0.78 0.385 0.39
                gamma_252 gamma_164 gamma_0) as H.
  box_from H.
Qed.

Lemma box_black : lab_box (spec_rgb_to_lab (0, 0, 0)%Z) 0 0 0 0 0 0.
Proof. rewrite lab_black. unfold lab_box. cbn [fst snd]. lra. Qed.

Lemma box_white :
  lab_box (spec_rgb_to_lab (255, 255, 255)%Z)
    100 100.00002 (-0.001) 0.001 (-0.001) 0.001.
Proof.
  destruct lab_white as (L & a & b & -> & HL & Ha & Hb).
  unfold lab_box. cbn [fst snd]. lra.
Qed.

(** Two colours whose boxes are close in every coordinate are nearer than
    20; two colours whose boxes are 20 apart in some coordinate are not. *)
Lemma box_near (l1 l2 : lab) (L1 L2 a1 a2 b1 b2 L1' L2' a1' a2' b1' b2' : R) :
  lab_box l1 L1 L2 a1 a2 b1 b2 -> lab_box l2 L1' L2' a1' a2' b1' b2' ->
  L2 - L1' <= 11 -> L2' - L1 <= 11 ->
  a2 - a1' <= 11 -> a2' - a1 <= 11 ->
  b2 - b1' <= 11 -> b2' - b1 <= 11 ->
  _delta_e_cie76 l1 l2 < 20.
Proof.
  intros (HL & Ha & Hb) (HL' & Ha' & Hb') ? ? ? ? ? ?.
  destruct (cie76_sqr l1 l2) as [Hp Hs]. rewrite !pow2_mult in Hs.
  set (d := _delta_e_cie76 l1 l2) in *. clearbody d.
  assert ((l2.1.1 - l1.1.1) * (l2.1.1 - l1.1.1) <= 121) by nra.
  assert ((l2.1.2 - l1.1.2) * (l2.1.2 - l1.1.2) <= 121) by nra.
  assert ((l2.2 - l1.2) * (l2.2 - l1.2) <= 121) by nra.
  nra.
Qed.

Lemma box_far (l1 l2 : lab) (L1 L2 a1 a2 b1 b2 L1' L2' a1' a2' b1' b2' : R) :
  lab_box l1 L1 L2 a1 a2 b1 b2 -> lab_box l2 L1' L2' a1' a2' b1' b2' ->
  20 <= L1 - L2' \/ 20 <= L1' - L2 \/ 20 <= a1 - a2' \/ 20 <= a1' - a2
  \/ 20 <= b1 - b2' \/ 20 <= b1' - b2 ->
  20 <= _delta_e_cie76 l1 l2.
Proof.
  intros (HL & Ha & Hb) (HL' & Ha' & Hb') Hsep.
  destruct (cie76_sqr l1 l2) as [Hp Hs]. rewrite !pow2_mult in Hs.
  set (d := _delta_e_cie76 l1 l2) in *. clearbody d.
  pose proof (Rle_0_sqr (l2.1.1 - l1.1.1)) as S1.
  pose proof (Rle_0_sqr (l2.1.2 - l1.1.2)) as S2.
  pose proof (Rle_0_sqr (l2.2 - l1.2)) as S3. unfold Rsqr in *.
  assert (400 <= d * d).
  { destruct Hsep as [H' | [H' | [H' | [H' | [H' | H']]]]]; nra. }
  nra.
Qed.
End Boxes.

(** ** Palette colours are matched to themselves *)

Section FixedPoints.
Local Open Scope R_scope.

(** The scan returns an entry as soon as it is nearer than a threshold
    that every other entry reaches. *)
Lemma direct_by_threshold (m : SevenColorMapper) (c : rgb)
    (use_ciede2000 : bool) (name : string) (rgb_val : rgb) (index : Z)
    (T : R) :
  eink_color_list m
  = map (fun '(name, c) => (name, c, spec_rgb_to_lab c)) EINK_COLORS ->
  (name, rgb_val) ∈ EINK_COLORS ->
  dict_get COLOR_INDICES name = Ok index ->
  _delta_e_cie76 (spec_rgb_to_lab c) (spec_rgb_to_lab rgb_val) < T ->
  (forall n' c', (n', c') ∈ EINK_COLORS ->
     (n', c') = (name, rgb_val)
     \/ T <= _delta_e_cie76 (spec_rgb_to_lab c) (spec_rgb_to_lab c')) ->
  _find_closest_eink_color_direct m c use_ciede2000
  = Ok (Some (name, rgb_val, index)).
Proof.
  intros HL Hin Hidx Hnear Hfar.
  destruct (direct_nearest m c use_ciede2000)
    as (before & n0 & rv0 & lv0 & i0 & after & Hl & -> & Hi0 & Hb & Ha).
  { rewrite HL. exact init_color_list_valid. }
  { by rewrite HL. }
  assert (Hmin : forall e, e ∈ eink_color_list m ->
            _delta_e_cie76 (spec_rgb_to_lab c) lv0
            <= _delta_e_cie76 (spec_rgb_to_lab c) e.2).
  { intros e. rewrite Hl, elem_of_app, elem_of_cons.
    intros [He | [-> | He]]; [apply Rlt_le, Hb, He | cbn [snd]; lra | by apply Ha]. }
  assert (H0 : (n0, rv0, lv0) ∈ eink_color_list m).
  { rewrite Hl. apply elem_of_app. right. left. }
  rewrite HL in H0. apply list_elem_of_In, in_map_iff in H0
    as ([n1 c1] & [= -> -> <-] & Hin0%list_elem_of_In).
  specialize (Hmin (name, rgb_val, spec_rgb_to_lab rgb_val)). cbn [snd] in Hmin.
  destruct (Hfar n0 rv0 Hin0) as [[= -> ->] | Hge].
  - rewrite Hi0 in Hidx. by injection Hidx as ->.
  - exfalso.
    assert (_delta_e_cie76 (spec_rgb_to_lab c) (spec_rgb_to_lab rv0)
            <= _delta_e_cie76 (spec_rgb_to_lab c) (spec_rgb_to_lab rgb_val)).
    { apply Hmin. rewrite HL. apply list_elem_of_In, in_map_iff.
      exists (name, rgb_val). split; [done | by apply list_elem_of_In]. }
    lra.
Qed.

Ltac any_box :=
  first [ apply box_black | apply box_white | apply box_green | apply box_blue
        | apply box_red | apply box_yellow | apply box_orange
        | apply box_key_white | apply box_key_green | apply box_key_blue
        | apply box_key_red | apply box_key_yellow | apply box_key_orange ].

Ltac pick_separation :=
  first [ left; lra | right; left; lra | right; right; left; lra
        | right; right; right; left; lra
        | right; right; right; right; left; lra
        | right; right; right; right; right; lra ].

Ltac near_or_far :=
  first [ left; reflexivity
        | right; eapply box_far; [any_box | any_box | pick_separation] ].

Ltac nearest_by_boxes HL :=
  eapply (direct_by_threshold _ _ _ _ _ _ 20 HL);
    [ set_solver
    | reflexivity
    | eapply box_near; [any_box | any_box | lra ..]
    | let n := fresh "n" in
      let c := fresh "c" in
      let H := fresh "H" in
      intros n c H; unfold EINK_COLORS in H;
      rewrite !elem_of_cons, elem_of_nil in H;
      destruct H as [H | [H | [H | [H | [H | [H | [H | []]]]]]]];
      injection H as -> ->; near_or_far ].

(** Every palette colour, and the table key it is looked up under, is
    nearest to that palette colour. *)
Lemma palette_nearest (m : SevenColorMapper) (use_ciede2000 : bool)
    (name : string) (c : rgb) :
  eink_color_list m
  = map (fun '(name, c) => (name, c, spec_rgb_to_lab c)) EINK_COLORS ->
  (name, c) ∈ EINK_COLORS ->
  exists index,
    dict_get COLOR_INDICES name = Ok index
    /\ _find_closest_eink_color_direct m c use_ciede2000
       = Ok (Some (name, c, index))
    /\ _find_closest_eink_color_direct m (cache_key_of c) use_ciede2000
       = Ok (Some (name, c, index)).
Proof.
  intros HL Hin. unfold EINK_COLORS in Hin.
  rewrite !elem_of_cons, elem_of_nil in Hin.
  destruct Hin as [H | [H | [H | [H | [H | [H | [H | []]]]]]]];
    injection H as -> ->; eexists; (split; [reflexivity |]);
    split; nearest_by_boxes HL.
Qed.
End FixedPoints.

Lemma palette_matched (fast_dither : option (result backend))
    (m : SevenColorMapper) (name : string) (c : rgb) (use_ciede2000 : bool) :
  __init__ fast_dither = Ok m ->
  (name, c) ∈ EINK_COLORS ->
  exists index,
    dict_get COLOR_INDICES name = Ok index
    /\ _find_closest_eink_color_direct m c use_ciede2000
       = Ok (Some (name, c, index))
    /\ find_closest_eink_color m c use_ciede2000
       = Ok (Some (name, c, index)).
Proof.
  intros Hinit Hin. pose proof (init_color_list _ _ Hinit) as HL.
  destruct (init_spec _ _ Hinit) as [Hwf _].
  destruct (palette_nearest m use_ciede2000 name c HL Hin)
    as (index & Hi & Hd & _).
  destruct (palette_nearest m true name c HL Hin) as (index' & Hi' & _ & Hk).
  rewrite Hi in Hi'. injection Hi' as <-.
  exists index. split; [done |]. split; [done |].
  destruct c as [[r g] b].
  assert (Hu8 : u8 (r, g, b)).
  { unfold EINK_COLORS in Hin. rewrite !elem_of_cons, elem_of_nil in Hin.
    destruct Hin as [H | [H | [H | [H | [H | [H | [H | []]]]]]]];
      injection H as _ -> -> ->; cbn; lia. }
  destruct Hu8 as (Hr & Hg & Hb).
  destruct (find_closest_hit m r g b Hwf Hr Hg Hb) as (e & _ & Hd' & Hf).
  rewrite Hf. cbn [cache_key_of] in Hk. rewrite Hk in Hd'. by injection Hd' as <-.
Qed.

(** X5: a constructed mapper matches each of the seven palette colours to
    itself, with its own name and index, through the direct scan and
    through the cached matcher (which looks the colour up under a key
    rounded down to a multiple of 4, such as (252, 164, 0) for ORANGE),
    whatever the metric flag. *)
Theorem palette_colors_match_themselves
    (fast_dither : option (result backend)) (m : SevenColorMapper)
    (name : string) (c : rgb) (use_ciede2000 : bool) :
  __init__ fast_dither = Ok m ->
  (name, c) ∈ EINK_COLORS ->
  exists index,
    dict_get COLOR_INDICES name = Ok index
    /\ _find_closest_eink_color_direct m c use_ciede2000
       = Ok (Some (name, c, index))
    /\ find_closest_eink_color m c use_ciede2000
       = Ok (Some (name, c, index)).
Proof. apply palette_matched. Qed.

Lemma palette_colors_match_themselves_witness :
  exists index,
    dict_get COLOR_INDICES "ORANGE" = Ok index
    /\ _find_closest_eink_color_direct default_mapper (255, 165, 0) false
       = Ok (Some ("ORANGE"%string, (255, 165, 0), index))
    /\ find_closest_eink_color default_mapper (255, 165, 0) false
       = Ok (Some ("ORANGE"%string, (255, 165, 0), index)).
Proof.
  apply (palette_colors_match_themselves None default_mapper "ORANGE"
           (255, 165, 0) false default_mapper_init).
  unfold EINK_COLORS. do 6 right. left.
Defined.

(** ** The keys of the lookup table *)

Ltac rsimpl_in H := cbn [mbind result_bind mret result_ret bind] in H.

(** Partial correctness of a [for] loop: a property every turn that
    returns preserves holds when the loop returns. *)
Lemma for_each_post {A S} (Q : S -> Prop) (body : A -> S -> result S)
    (xs : list A) (s s' : S) :
  (forall x s s', x ∈ xs -> Q s -> body x s = Ok s' -> Q s') ->
  Q s -> for_each xs body s = Ok s' -> Q s'.
Proof.
  revert s. induction xs as [| x xs IH]; intros s Hstep HQ E; cbn [for_each] in E.
  - by injection E as <-.
  - destruct (body x s) as [s1 | e] eqn:E1; rsimpl_in E; [| done].
    apply (IH s1); [| by apply (Hstep x s s1); [left | |] | done].
    intros y t t' Hy. apply Hstep. by right.
Qed.

Lemma build_table_keys (self0 self' : SevenColorMapper) :
  _build_color_lookup_table self0 = Ok self' ->
  (forall k, is_Some (_color_cache self0 !! k) -> table_key k) ->
  forall k, is_Some (_color_cache self' !! k) -> table_key k.
Proof.
  intros E H0. unfold _build_color_lookup_table in E. revert E.
  apply (for_each_post
           (fun s => forall k, is_Some (_color_cache s !! k) -> table_key k));
    [| exact H0].
  intros r s1 s1' Hr HQ1.
  apply (for_each_post
           (fun s => forall k, is_Some (_color_cache s !! k) -> table_key k));
    [| exact HQ1].
  intros g s2 s2' Hg HQ2.
  apply (for_each_post
           (fun s => forall k, is_Some (_color_cache s !! k) -> table_key k));
    [| exact HQ2].
  intros b s3 s3' Hb HQ3 E. cbv zeta in E.
  destruct (_find_closest_eink_color_direct s3 (r, g, b) true)
    as [[[[n c] i] |] | e]; rsimpl_in E; cbn [unpack] in E; rsimpl_in E;
    try done.
  injection E as <-. intros k. cbn [set_color_cache _color_cache].
  rewrite lookup_insert. case_decide as Hk; [| apply HQ3].
  intros _. subst k. done.
Qed.

Lemma init_cache_keys (fast_dither : option (result backend))
    (m : SevenColorMapper) :
  __init__ fast_dither = Ok m ->
  forall k, is_Some (_color_cache m !! k) <-> table_key k.
Proof.
  intros Hinit k. split; [| by apply (init_spec _ _ Hinit)].
  revert k. unfold __init__ in Hinit. rewrite init_color_list_loop in Hinit.
  rsimpl_in Hinit. cbn [app] in Hinit.
  match type of Hinit with
  | context [_build_color_lookup_table ?s0] =>
      destruct (_build_color_lookup_table s0) as [s' | e] eqn:E;
        [| done]
  end.
  rsimpl_in Hinit.
  assert (Hc : _color_cache m = _color_cache s').
  { destruct fast_dither as [[b | e] |]; cbn in Hinit; rsimpl_in Hinit;
      try done; by injection Hinit as <-. }
  rewrite Hc. apply (build_table_keys _ _ E).
  intros k. cbn [_color_cache]. rewrite lookup_empty. by intros [? ?].
Qed.

Lemma elem_of_py_range_4 (c : Z) :
  c ∈ py_range 0 256 4 <-> 0 <= c <= 252 /\ c mod 4 = 0.
Proof.
  unfold py_range. rewrite list_elem_of_In, in_map_iff.
  change (Z.to_nat ((256 - 0 + 4 - 1) / 4)) with 64%nat. split.
  - intros (i & <- & Hi%in_seq). zlia.
  - intros [Hc Hm]. exists (Z.to_nat (c / 4)). split; [zlia |].
    apply in_seq. zlia.
Qed.

(** X6: the table a constructed mapper carries has exactly the keys of the
    4-step grid: [(r, g, b)] is a key if and only if each channel is a
    multiple of 4 between 0 and 252. *)
Theorem color_cache_has_exactly_the_grid_keys
    (fast_dither : option (result backend)) (m : SevenColorMapper)
    (r g b : Z) :
  __init__ fast_dither = Ok m ->
  is_Some (_color_cache m !! (r, g, b))
  <-> (0 <= r <= 252 /\ r mod 4 = 0)
      /\ (0 <= g <= 252 /\ g mod 4 = 0)
      /\ (0 <= b <= 252 /\ b mod 4 = 0).
Proof.
  intros Hinit. rewrite (init_cache_keys _ _ Hinit). unfold table_key.
  by rewrite !elem_of_py_range_4.
Qed.

Lemma color_cache_has_exactly_the_grid_keys_witness :
  is_Some (_color_cache default_mapper !! (8, 256, 0))
  <-> (0 <= 8 <= 252 /\ 8 mod 4 = 0)
      /\ (0 <= 256 <= 252 /\ 256 mod 4 = 0)
      /\ (0 <= 0 <= 252 /\ 0 mod 4 = 0).
Proof.
  apply (color_cache_has_exactly_the_grid_keys None default_mapper 8 256 0).
  exact default_mapper_init.
Defined.

Lemma find_closest_miss (fast_dither : option (result backend))
    (m : SevenColorMapper) (r g b : Z) (use_ciede2000 : bool) :
  __init__ fast_dither = Ok m ->
  ~ (0 <= r <= 255 /\ 0 <= g <= 255 /\ 0 <= b <= 255) ->
  find_closest_eink_color m (r, g, b) use_ciede2000
  = _find_closest_eink_color_direct m (r, g, b) use_ciede2000.
Proof.
  intros Hinit Hout. unfold find_closest_eink_color. cbv zeta.
  destruct (_color_cache m !! _) as [e |] eqn:He; [| done].
  exfalso. apply Hout.
  assert (Hk : table_key (r / 4 * 4, g / 4 * 4, b / 4 * 4)).
  { apply (init_cache_keys _ _ Hinit). by eexists. }
  destruct Hk as (Hr & Hg & Hb).
  apply elem_of_py_range_4 in Hr, Hg, Hb. zlia.
Qed.

(** X7: a colour with a channel outside 0..255 misses the table (its key
    is not on the grid), so the cached matcher falls back to the direct
    scan on the colour itself, with the flag it was given; it still
    returns a palette entry. *)
Theorem out_of_range_color_uses_direct_scan
    (fast_dither : option (result backend)) (m : SevenColorMapper)
    (r g b : Z) (use_ciede2000 : bool) :
  __init__ fast_dither = Ok m ->
  ~ (0 <= r <= 255 /\ 0 <= g <= 255 /\ 0 <= b <= 255) ->
  exists e,
    find_closest_eink_color m (r, g, b) use_ciede2000 = Ok (Some e)
    /\ _find_closest_eink_color_direct m (r, g, b) use_ciede2000 = Ok (Some e)
    /\ _color_cache m !! (r / 4 * 4, g / 4 * 4, b / 4 * 4) = None
    /\ is_palette_entry e.
Proof.
  intros Hinit Hout. destruct (init_spec _ _ Hinit) as [(Hv & Hne & _) _].
  destruct (direct_total m (r, g, b) use_ciede2000 Hv Hne) as (e & E & Hp).
  exists e. rewrite (find_closest_miss _ _ _ _ _ _ Hinit Hout).
  split; [done |]. split; [done |]. split; [| done].
  apply eq_None_not_Some. intros Hs.
  apply (init_cache_keys _ _ Hinit) in Hs. destruct Hs as (Hr & Hg & Hb).
  apply elem_of_py_range_4 in Hr, Hg, Hb. apply Hout. zlia.
Qed.

Lemma out_of_range_color_uses_direct_scan_witness :
  exists e,
    find_closest_eink_color default_mapper (300, -5, 17) true = Ok (Some e)
    /\ _find_closest_eink_color_direct default_mapper (300, -5, 17) true
       = Ok (Some e)
    /\ _color_cache default_mapper !! (300 / 4 * 4, -5 / 4 * 4, 17 / 4 * 4)
       = None
    /\ is_palette_entry e.
Proof.
  apply (out_of_range_color_uses_direct_scan None default_mapper 300 (-5) 17
           true default_mapper_init).
  lia.
Defined.

(** ** Nearest-colour quantisation, pixel by pixel *)

Section Pixels.
Context {A : Type}.

Lemma pixel_at_insert (g : grid A) (y x y' x' : nat) (row : list A) (v : A) :
  g !! y = Some row -> (x < length row)%nat ->
  pixel_at (<[y := <[x := v]> row]> g) y' x'
  = if decide (y' = y /\ x' = x) then Some v else pixel_at g y' x'.
Proof.
  intros Hrow Hx. unfold pixel_at.
  assert (Hy : (y < length g)%nat) by (apply lookup_lt_is_Some; by eexists).
  destruct (decide (y' = y)) as [-> | Hne].
  - rewrite list_lookup_insert_eq by done. rewrite Hrow.
    destruct (decide (x' = x)) as [-> | Hnx].
    + rewrite list_lookup_insert_eq by done. by rewrite decide_True.
    + rewrite list_lookup_insert_ne by done. rewrite decide_False; [done | tauto].
  - rewrite list_lookup_insert_ne by done. rewrite decide_False; [done | tauto].
Qed.

Lemma pixel_at_lt (w : nat) (g : grid A) (y x : nat) (v : A) :
  rectangular w g -> pixel_at g y x = Some v ->
  (y < length g)%nat /\ (x < w)%nat.
Proof.
  intros Hr. unfold pixel_at. destruct (g !! y) as [row |] eqn:Hrow; [| done].
  intros Hv. split; [apply lookup_lt_is_Some; by eexists |].
  unfold rectangular in Hr. rewrite Forall_lookup in Hr.
  rewrite <- (Hr _ _ Hrow). apply lookup_lt_is_Some. by eexists.
Qed.

Lemma pixel_at_is_Some (w : nat) (g : grid A) (y x : nat) :
  rectangular w g -> (y < length g)%nat -> (x < w)%nat ->
  is_Some (pixel_at g y x).
Proof.
  intros Hr Hy Hx. unfold pixel_at.
  destruct (lookup_lt_is_Some_2 g y Hy) as [row Hrow]. rewrite Hrow.
  apply lookup_lt_is_Some. unfold rectangular in Hr.
  rewrite Forall_lookup in Hr. by rewrite (Hr _ _ Hrow).
Qed.

(** Two arrays of one shape with the same pixels are equal. *)
Lemma grid_eq_pixels (w : nat) (g1 g2 : grid A) :
  length g1 = length g2 -> rectangular w g1 -> rectangular w g2 ->
  (forall y x, pixel_at g1 y x = pixel_at g2 y x) -> g1 = g2.
Proof.
  intros Hlen H1 H2 Hpx. apply list_eq. intros y.
  destruct (g1 !! y) as [r1 |] eqn:E1.
  - destruct (lookup_lt_is_Some_2 g2 y) as [r2 E2].
    { rewrite <- Hlen. apply lookup_lt_is_Some. by eexists. }
    rewrite E2. f_equal. apply list_eq. intros x.
    specialize (Hpx y x). unfold pixel_at in Hpx. by rewrite E1, E2 in Hpx.
  - symmetry. apply lookup_ge_None. rewrite <- Hlen. by apply lookup_ge_None.
Qed.
End Pixels.

Lemma chosen_at_insert (choose : rgb -> result rgb) (image out : grid rgb)
    (y x y' x' : nat) (orow : list rgb) (c0 c0' : rgb) :
  pixel_at image y x = Some c0 -> choose c0 = Ok c0' ->
  out !! y = Some orow -> (x < length orow)%nat ->
  chosen_at choose image out y' x' \/ (y' = y /\ x' = x) ->
  chosen_at choose image (<[y := <[x := c0']> orow]> out) y' x'.
Proof.
  intros Hc0 Hch Horow Hx Hold c Hc.
  rewrite (pixel_at_insert out y x y' x' orow c0') by done.
  case_decide as Hpos.
  - destruct Hpos as [-> ->]. rewrite Hc0 in Hc. injection Hc as <-.
    by exists c0'.
  - destruct Hold as [Hold | Hpos']; [| done].
    destruct (Hold c Hc) as (c' & ? & ?). by exists c'.
Qed.

(** The two pixel loops of [quantize_image]: every output pixel is the
    choice made for the input pixel at the same place. *)
Lemma fill_loops (image : grid rgb) (w : nat) (choose : rgb -> result rgb) :
  rectangular w image ->
  (forall c, exists c', choose c = Ok c') ->
  exists out,
    for_each (py_range 0 (Z.of_nat (length image)) 1) (fun y output_array =>
      for_each (py_range 0 (Z.of_nat w) 1) (fun x output_array =>
        c ← grid_get image y x;
        closest_rgb ← choose c;
        grid_set output_array y x closest_rgb)
      output_array)
    (np_zeros (Z.of_nat (length image)) (Z.of_nat w)) = Ok out
    /\ length out = length image
    /\ rectangular w out
    /\ forall y x, chosen_at choose image out y x.
Proof.
  intros Hrect Hchoose.
  match goal with
  | |- context [@for_each ?A ?S ?ys ?body ?s0] =>
      destruct (for_each_invariant (A:=A) (S:=S)
        (fun done out =>
           length out = length image /\ rectangular w out
           /\ forall y, y ∈ done ->
                forall x, chosen_at choose image out (Z.to_nat y) x)
        body ys s0) as (out & E & Hlen & Hr & Hpx)
  end.
  - destruct (np_zeros_shape (length image) w) as (? & ? & _).
    split; [done |]. split; [done |]. intros y Hy. by apply elem_of_nil in Hy.
  - intros done y out (Hlen & Hr & Hdone) Hy%elem_of_py_range_unit.
    match goal with
    | |- context [@for_each ?A ?S ?xs ?body ?s0] =>
        destruct (for_each_invariant (A:=A) (S:=S)
          (fun donex out' =>
             length out' = length image /\ rectangular w out'
             /\ (forall y', y' ∈ done ->
                   forall x, chosen_at choose image out' (Z.to_nat y') x)
             /\ forall x, x ∈ donex ->
                  chosen_at choose image out' (Z.to_nat y) (Z.to_nat x))
          body xs s0) as (out' & E' & Hlen' & Hr' & Hdone' & Hrow')
    end.
    + split; [done |]. split; [done |]. split; [done |].
      intros x Hx. by apply elem_of_nil in Hx.
    + intros donex x out' (Hlen' & Hr' & Hdone' & Hrow') Hx%elem_of_py_range_unit.
      destruct (grid_get_ok w image y x Hrect Hy Hx) as (row & c0 & Hrow & Hc0 & ->).
      rsimpl. destruct (Hchoose c0) as (c0' & Hch). rewrite Hch. rsimpl.
      destruct (grid_set_ok w out' y x c0' Hr') as (orow & Horow & ->);
        [lia | lia |].
      assert (Hpx0 : pixel_at image (Z.to_nat y) (Z.to_nat x) = Some c0)
        by (unfold pixel_at; by rewrite Hrow).
      assert (Hxl : (Z.to_nat x < length orow)%nat).
      { unfold rectangular in Hr'. rewrite Forall_lookup in Hr'.
        rewrite (Hr' _ _ Horow). lia. }
      eexists. split; [reflexivity |]. split; [by rewrite length_insert |].
      split; [by apply rectangular_insert |]. split.
      * intros y' Hy' x'. eapply chosen_at_insert; try done.
        left. by apply Hdone'.
      * intros x' Hx'. eapply chosen_at_insert; try done.
        apply elem_of_app in Hx' as [Hx' | Hx']; [left; by apply Hrow' |].
        apply list_elem_of_singleton in Hx' as ->. by right.
    + exists out'. split; [exact E' |]. split; [done |]. split; [done |].
      intros y' Hy' x'. apply elem_of_app in Hy' as [Hy' | Hy'].
      * by apply Hdone'.
      * apply list_elem_of_singleton in Hy' as ->. intros c Hc.
        destruct (pixel_at_lt w image _ _ c Hrect Hc) as [_ Hxw].
        specialize (Hrow' (Z.of_nat x')). rewrite Nat2Z.id in Hrow'.
        apply Hrow'; [| done]. apply elem_of_py_range_unit. lia.
  - exists out. split; [exact E |]. split; [done |]. split; [done |].
    intros y x c Hc.
    destruct (pixel_at_lt w image _ _ c Hrect Hc) as [Hyl _].
    specialize (Hpx (Z.of_nat y)). rewrite Nat2Z.id in Hpx.
    apply Hpx; [| done]. apply elem_of_py_range_unit. lia.
Qed.

Lemma quantize_image_perceptual (m : SevenColorMapper) (image : grid rgb)
    (w : nat) :
  wf_mapper m -> rectangular w image ->
  exists out,
    quantize_image m image "perceptual" = Ok out
    /\ length out = length image
    /\ rectangular w out
    /\ forall y x c, pixel_at image y x = Some c ->
         exists name closest_rgb index,
           find_closest_eink_color m c true
           = Ok (Some (name, closest_rgb, index))
           /\ pixel_at out y x = Some closest_rgb.
Proof.
  intros Hwf Hrect. unfold quantize_image.
  destruct image as [| row rest].
  - exists []. cbn. repeat split; try constructor. intros y x c. by destruct y.
  - assert (Hw : length row = w) by (by inversion Hrect).
    unfold shape. rewrite Hw. change (String.eqb "perceptual" "perceptual") with true.
    cbv iota.
    destruct (fill_loops (row :: rest) w
      (fun c => closest ← find_closest_eink_color m c true;
                '(_, closest_rgb, _) ← unpack closest; Ok closest_rgb) Hrect)
      as (out & E & Hlen & Hr & Hpx).
    { intros c. destruct (find_closest_total m c true Hwf) as ([[n c'] i] & -> & _).
      rsimpl. cbn [unpack]. rsimpl. by exists c'. }
    exists out. split; [| split; [done | split; [done |]]].
    + rewrite <- E. apply for_each_ext. intros y s. apply for_each_ext. intros x s'.
      destruct (grid_get _ y x); rsimpl; [| done].
      destruct (find_closest_eink_color m a true) as [[[[n c'] i] |] | e];
        rsimpl; cbn [unpack]; rsimpl; done.
    + intros y x c Hc. destruct (Hpx y x c Hc) as (c' & Hch & Hout).
      destruct (find_closest_total m c true Hwf) as ([[n c''] i] & Hf & _).
      rewrite Hf in Hch. rsimpl_in Hch. cbn [unpack] in Hch. rsimpl_in Hch.
      injection Hch as ->. by exists n, c', i.
Qed.


(** X8: with the method 'perceptual', [quantize_image] treats every pixel
    on its own: the output has the shape of the input and its pixel at
    (y, x) is the colour the cached matcher returns for the input pixel at
    (y, x). *)
Theorem quantize_image_is_pixelwise (fast_dither : option (result backend))
    (m : SevenColorMapper) (image : grid rgb) (w : nat) :
  __init__ fast_dither = Ok m -> rectangular w image ->
  exists out,
    quantize_image m image "perceptual" = Ok out
    /\ length out = length image
    /\ rectangular w out
    /\ forall y x c, pixel_at image y x = Some c ->
         exists name closest_rgb index,
           find_closest_eink_color m c true
           = Ok (Some (name, closest_rgb, index))
           /\ pixel_at out y x = Some closest_rgb.
Proof.
  intros Hinit Hrect. apply quantize_image_perceptual; [| done].
  by destruct (init_spec _ _ Hinit).
Qed.

Lemma quantize_image_is_pixelwise_witness :
  exists out,
    quantize_image default_mapper
      [ [ (12, 200, 30); (255, 255, 255) ]; [ (90, 90, 90); (0, 0, 1) ] ]
      "perceptual" = Ok out
    /\ length out = 2%nat
    /\ rectangular 2 out
    /\ forall y x c,
         pixel_at
           [ [ (12, 200, 30); (255, 255, 255) ]; [ (90, 90, 90); (0, 0, 1) ] ]
           y x = Some c ->
         exists name closest_rgb index,
           find_closest_eink_color default_mapper c true
           = Ok (Some (name, closest_rgb, index))
           /\ pixel_at out y x = Some closest_rgb.
Proof.
  apply (quantize_image_is_pixelwise None default_mapper
           [ [ (12, 200, 30); (255, 255, 255) ]; [ (90, 90, 90); (0, 0, 1) ] ] 2);
    [exact default_mapper_init | repeat constructor].
Defined.



(** An image of palette colours is left as it is. *)
Lemma quantize_palette_image (fast_dither : option (result backend))
    (m : SevenColorMapper) (image : grid rgb) (w : nat) :
  __init__ fast_dither = Ok m -> rectangular w image ->
  Forall (Forall palette_rgb) image ->
  quantize_image m image "perceptual" = Ok image.
Proof.
  intros Hinit Hrect Hpal. destruct (init_spec _ _ Hinit) as [Hwf _].
  destruct (quantize_image_perceptual m image w Hwf Hrect)
    as (out & -> & Hlen & Hr & Hpx).
  f_equal. apply (grid_eq_pixels w); try done. intros y x.
  destruct (pixel_at image y x) as [c |] eqn:Hc.
  - destruct (Hpx y x c Hc) as (n & c' & i & Hf & ->). f_equal.
    assert (Hp : palette_rgb c).
    { unfold pixel_at in Hc. destruct (image !! y) as [row |] eqn:Hrow; [| done].
      rewrite Forall_lookup in Hpal. specialize (Hpal _ _ Hrow).
      rewrite Forall_lookup in Hpal. by apply (Hpal x). }
    unfold palette_rgb in Hp. apply list_elem_of_In, in_map_iff in Hp
      as ([n0 c0] & Hc0 & Hin%list_elem_of_In). cbn [snd] in Hc0. subst c0.
    destruct (palette_matched _ m n0 c true Hinit Hin) as (i0 & _ & _ & Hf0).
    rewrite Hf0 in Hf. by injection Hf as _ <- _.
  - destruct (pixel_at out y x) as [c' |] eqn:Hc'; [| done].
    destruct (pixel_at_lt w out _ _ c' Hr Hc') as [Hy Hx].
    rewrite Hlen in Hy.
    destruct (pixel_at_is_Some w image y x Hrect Hy Hx) as [c Hc2]. congruence.
Qed.

(** X10: [quantize_image] with the method 'perceptual' is idempotent: an
    image that consists of palette colours is returned unchanged, and so
    quantising the output of a quantisation again gives that output. *)
Theorem quantize_image_idempotent (fast_dither : option (result backend))
    (m : SevenColorMapper) (image : grid rgb) (w : nat) :
  __init__ fast_dither = Ok m -> rectangular w image ->
  (Forall (Forall palette_rgb) image ->
   quantize_image m image "perceptual" = Ok image)
  /\ exists out,
       quantize_image m image "perceptual" = Ok out
       /\ quantize_image m out "perceptual" = Ok out.
Proof.
  intros Hinit Hrect.
  split; [intros Hp; by apply (quantize_palette_image fast_dither _ _ w) |].
  destruct (init_spec _ _ Hinit) as [Hwf _].
  destruct (quantize_image_spec m image "perceptual" w Hwf Hrect)
    as (out & E & _ & Hr & Hp).
  exists out. split; [exact E |].
  by apply (quantize_palette_image fast_dither _ _ w).
Qed.

Lemma quantize_image_idempotent_witness :
  (Forall (Forall palette_rgb) [ [ (255, 165, 0); (90, 90, 90) ] ] ->
   quantize_image default_mapper [ [ (255, 165, 0); (90, 90, 90) ] ]
     "perceptual" = Ok [ [ (255, 165, 0); (90, 90, 90) ] ])
  /\ exists out,
       quantize_image default_mapper [ [ (255, 165, 0); (90, 90, 90) ] ]
         "perceptual" = Ok out
       /\ quantize_image default_mapper out "perceptual" = Ok out.
Proof.
  apply (quantize_image_idempotent None default_mapper
           [ [ (255, 165, 0); (90, 90, 90) ] ] 2);
    [exact default_mapper_init | repeat constructor].
Defined.

(** * Further properties of the error-diffusion entry point *)

(** X11: without an accelerated backend, every image of one, two or three
    rows makes [quantize_image_advanced_dithering] raise
    [ZeroDivisionError] for every method other than 'simple', unless three
    seconds have passed when row 0 starts: the progress test computes
    [0 % (height // 4)] with [height // 4 = 0]. *)
Theorem images_under_four_rows_raise (self : SevenColorMapper)
    (elapsed : Z -> bool) (image : grid rgb) (method : string) :
  fast_ditherer self = None ->
  String.eqb method "simple" = false ->
  (0 < length image < 4)%nat ->
  elapsed 0 = false ->
  quantize_image_advanced_dithering self elapsed image method
  = Raise ZeroDivisionError.
Proof. apply small_image_raises. Qed.

Lemma images_under_four_rows_raise_witness :
  quantize_image_advanced_dithering default_mapper never_elapsed
    [ [ (1, 2, 3) ]; [ (4, 5, 6) ]; [ (7, 8, 9) ] ]
    "jarvis_judice_ninke_7color"
  = Raise ZeroDivisionError.
Proof.
  apply (images_under_four_rows_raise default_mapper never_elapsed
           [ [ (1, 2, 3) ]; [ (4, 5, 6) ]; [ (7, 8, 9) ] ]
           "jarvis_judice_ninke_7color" default_mapper_no_backend);
    [reflexivity | simpl; lia | reflexivity].
Defined.

Lemma simple_method_delegates (self : SevenColorMapper) (elapsed : Z -> bool)
    (image : grid rgb) :
  fast_ditherer self = None ->
  quantize_image_advanced_dithering self elapsed image "simple"
  = quantize_image self image "simple".
Proof.
  intros Hfd. unfold quantize_image_advanced_dithering. rewrite Hfd. rsimpl.
  unfold python_dithering. by destruct (shape (np_array_float32 image)).
Qed.

(** X12: without an accelerated backend the method 'simple' is handed to
    [quantize_image] before the rows loop starts, so it returns exactly
    what [quantize_image(image, 'simple')] returns, on images of any
    height and whatever the clock says. *)
Theorem simple_method_is_quantize_image (self : SevenColorMapper)
    (elapsed : Z -> bool) (image : grid rgb) :
  fast_ditherer self = None ->
  quantize_image_advanced_dithering self elapsed image "simple"
  = quantize_image self image "simple".
Proof. apply simple_method_delegates. Qed.

Lemma simple_method_is_quantize_image_witness :
  quantize_image_advanced_dithering default_mapper never_elapsed gray_2x1
    "simple"
  = quantize_image default_mapper gray_2x1 "simple".
Proof.
  apply (simple_method_is_quantize_image default_mapper never_elapsed gray_2x1).
  exact default_mapper_no_backend.
Defined.

Lemma backend_result (self : SevenColorMapper) (elapsed : Z -> bool)
    (image : grid rgb) (method : string) (fd : backend) (out : grid rgb) :
  fast_ditherer self = Some fd ->
  (if String.eqb method "floyd_steinberg_7color"
   then floyd_steinberg_dither fd (np_array_float32 image)
   else jarvis_judice_ninke_dither fd (np_array_float32 image)) = Ok out ->
  quantize_image_advanced_dithering self elapsed image method = Ok out.
Proof.
  intros Hfd Hout. unfold quantize_image_advanced_dithering, fast_attempt.
  rewrite Hfd.
  destruct (String.eqb method "jarvis_judice_ninke_7color") eqn:Ej.
  - apply String.eqb_eq in Ej. subst method. cbn in Hout. by rewrite Hout.
  - destruct (String.eqb method "floyd_steinberg_7color"); by rewrite Hout.
Qed.

(** X13: with an accelerated backend whose call returns, the function
    returns the backend's array and the Python path is never entered (no
    progress test, no clock).  The backend entry point is
    [floyd_steinberg_dither] for the method 'floyd_steinberg_7color' and
    [jarvis_judice_ninke_dither] for every other name, 'simple' included. *)
Theorem backend_output_is_returned (self : SevenColorMapper)
    (elapsed : Z -> bool) (image : grid rgb) (method : string) (fd : backend)
    (out : grid rgb) :
  fast_ditherer self = Some fd ->
  (if String.eqb method "floyd_steinberg_7color"
   then floyd_steinberg_dither fd (np_array_float32 image)
   else jarvis_judice_ninke_dither fd (np_array_float32 image)) = Ok out ->
  quantize_image_advanced_dithering self elapsed image method = Ok out.
Proof. apply backend_result. Qed.

Lemma backend_output_is_returned_witness :
  quantize_image_advanced_dithering
    (constructed_mapper (Some (Ok black_backend))) never_elapsed gray_2x1
    "simple"
  = Ok [ [ (0, 0, 0); (0, 0, 0) ] ].
Proof.
  apply (backend_output_is_returned
           (constructed_mapper (Some (Ok black_backend))) never_elapsed
           gray_2x1 "simple" black_backend [ [ (0, 0, 0); (0, 0, 0) ] ]);
    [| reflexivity].
  apply (init_spec (Some (Ok black_backend))).
  by apply constructed_mapper_init.
Defined.

Section Kernels.
Local Open Scope R_scope.

Lemma kernel_weights (method : string) :
  total_weight (error_kernel method) = 1
  /\ Forall (fun k => 0 < k.2) (error_kernel method).
Proof.
  unfold error_kernel.
  destruct (String.eqb method "floyd_steinberg_7color");
    [| destruct (String.eqb method "jarvis_judice_ninke_7color")];
    (split; [unfold total_weight; cbn; lra | repeat constructor; cbn; lra]).
Qed.

(** X14: whatever the method name, the kernel the Python path diffuses
    with has positive weights whose sum is exactly 1: away from the
    borders and from clipping the error of a pixel is handed on in full,
    neither amplified nor lost. *)
Theorem kernel_weights_sum_to_one (method : string) :
  total_weight (error_kernel method) = 1
  /\ Forall (fun k => 0 < k.2) (error_kernel method).
Proof. apply kernel_weights. Qed.
End Kernels.

(** * Further properties of the pixel loop *)

(** One turn of the pixel loop, spelled out: the colour written is the
    memo's entry for the current working value when there is one, and the
    matcher's answer otherwise. *)
Lemma dither_pixel_spec (m : SevenColorMapper) (kernel : list (Z * Z * R))
    (w h : nat) (x y : Z) (st : dither_state) :
  wf_mapper m -> dither_inv w h st ->
  0 <= x < Z.of_nat w -> 0 <= y < Z.of_nat h ->
  exists v name c index orow arr,
    grid_get (img_array st) y x = Ok v
    /\ find_closest_eink_color m (astype_int_px (clip_px v)) true
       = Ok (Some (name, c, index))
    /\ is_palette_entry (name, c, index)
    /\ output_array st !! Z.to_nat y = Some orow
    /\ (Z.to_nat x < length orow)%nat
    /\ let chosen := default c (local_cache st !! astype_int_px (clip_px v)) in
       for_each kernel
         (distribute_error (Z.of_nat w) (Z.of_nat h) x y
            (px_sub v (to_float chosen))) (img_array st) = Ok arr
       /\ dither_pixel m kernel (Z.of_nat w) (Z.of_nat h) y x st
          = Ok {| img_array := arr;
                  output_array :=
                    <[Z.to_nat y := <[Z.to_nat x := chosen]> orow]>
                      (output_array st);
                  local_cache :=
                    match local_cache st !! astype_int_px (clip_px v) with
                    | Some _ => local_cache st
                    | None =>
                        <[astype_int_px (clip_px v) := c]> (local_cache st)
                    end |}.
Proof.
  intros Hwf (Hl & Hr & Hlo & Hro) Hx Hy.
  destruct (grid_get_ok w (img_array st) y x Hr) as (row & v & _ & _ & Eg);
    [lia | lia |].
  destruct (find_closest_total m (astype_int_px (clip_px v)) true Hwf)
    as ([[n c] i] & Hf & Hp).
  destruct (grid_set_ok w (output_array st) y x
              (default c (local_cache st !! astype_int_px (clip_px v))) Hro)
    as (orow & Horow & Es); [lia | lia |].
  assert (Hk : exists arr,
    for_each kernel
      (distribute_error (Z.of_nat w) (Z.of_nat h) x y
         (px_sub v (to_float
            (default c (local_cache st !! astype_int_px (clip_px v))))))
      (img_array st) = Ok arr).
  { match goal with
    | |- context [@for_each ?A ?S kernel ?body ?s0] =>
        destruct (for_each_preserves (A:=A) (S:=S)
          (fun arr => length arr = h /\ rectangular w arr)
          body kernel s0) as (arr & E & _)
    end; [done | | by exists arr].
    intros k arr _ (Hlen & Hrect).
    destruct (distribute_error_ok w (Z.of_nat h) x y
                (px_sub v (to_float
                   (default c (local_cache st !! astype_int_px (clip_px v)))))
                k arr Hrect)
      as (arr' & E' & Hlen' & Hrect' & _); [by rewrite Hlen |].
    exists arr'. split; [exact E' |]. split; [by rewrite Hlen' | done]. }
  destruct Hk as (arr & Ek).
  exists v, n, c, i, orow, arr.
  split; [done |]. split; [done |]. split; [done |]. split; [done |].
  split.
  { unfold rectangular in Hro. rewrite Forall_lookup in Hro.
    rewrite (Hro _ _ Horow). lia. }
  cbv zeta. split; [exact Ek |].
  unfold dither_pixel. rewrite Eg. rsimpl. cbv zeta.
  destruct (local_cache st !! astype_int_px (clip_px v)) as [c0 |] eqn:Ec;
    cbn [default from_option Datatypes.id] in *.
  - rsimpl. rewrite Es. rsimpl. rewrite Ek. rsimpl. done.
  - rewrite Hf. rsimpl. cbn [unpack]. rsimpl. rewrite Es. rsimpl.
    rewrite Ek. rsimpl. done.
Qed.

Lemma dither_pixel_sound (m : SevenColorMapper) (kernel : list (Z * Z * R))
    (w h : nat) (x y : Z) (st : dither_state) :
  wf_mapper m -> dither_sound m w h st ->
  0 <= x < Z.of_nat w -> 0 <= y < Z.of_nat h ->
  exists st' v name c index,
    dither_pixel m kernel (Z.of_nat w) (Z.of_nat h) y x st = Ok st'
    /\ dither_sound m w h st'
    /\ grid_get (img_array st) y x = Ok v
    /\ find_closest_eink_color m (astype_int_px (clip_px v)) true
       = Ok (Some (name, c, index))
    /\ pixel_at (output_array st') (Z.to_nat y) (Z.to_nat x) = Some c.
Proof.
  intros Hwf (Hinv & Hin & Hmemo & Hpal) Hx Hy.
  destruct (dither_pixel_ok m kernel w h x y st Hwf Hinv Hx Hy)
    as (st' & E & Hinv' & Hin').
  destruct (dither_pixel_spec m kernel w h x y st Hwf Hinv Hx Hy)
    as (v & n & c & i & orow & arr & Eg & Hf & Hp & Horow & Hxl & _ & E').
  rewrite E in E'. injection E' as ->.
  assert (Hc : default c (local_cache st !! astype_int_px (clip_px v)) = c).
  { destruct (local_cache st !! _) as [c0 |] eqn:Ec; [| done].
    cbn [default from_option Datatypes.id].
    destruct (Hmemo _ _ Ec) as (n0 & i0 & Hf0). rewrite Hf0 in Hf.
    by injection Hf as _ -> _. }
  rewrite Hc in *.
  eexists _, v, n, c, i. split; [exact E |]. split; [| split; [done |]].
  - split; [done |]. split; [by apply Hin' |]. cbn [local_cache output_array].
    split.
    + destruct (local_cache st !! astype_int_px (clip_px v)) eqn:Ec; [done |].
      intros k c1. rewrite lookup_insert. case_decide as Hk.
      * intros [= <-]. subst k. by exists n, i.
      * apply Hmemo.
    + apply Forall2d_insert; [done | done | by eapply palette_entry_rgb].
  - split; [done |]. cbn [output_array].
    rewrite (pixel_at_insert _ _ _ _ _ orow c) by done.
    by rewrite decide_True.
Qed.

Lemma initial_state_sound (m : SevenColorMapper) (image : grid rgb) (w : nat) :
  rectangular w image -> image <> [] -> Forall (Forall u8) image ->
  dither_sound m w (length image) (initial_state image).
Proof.
  intros Hrect Hne Hu8.
  destruct (initial_state_inv image w Hrect Hne) as [Hs Hinv].
  split; [done |]. split; [by apply initial_state_in_range |]. split.
  - intros k c. cbn [initial_state local_cache]. by rewrite lookup_empty.
  - cbn [initial_state output_array]. rewrite Hs. cbn [fst snd].
    apply np_zeros_shape.
Qed.

Lemma scan_prefix_sound (m : SevenColorMapper) (kernel : list (Z * Z * R))
    (image : grid rgb) (w : nat) (positions : list (Z * Z)) :
  wf_mapper m -> rectangular w image -> image <> [] ->
  Forall (Forall u8) image ->
  (forall p, p ∈ positions ->
     p ∈ scan_order (Z.of_nat w) (Z.of_nat (length image))) ->
  exists st,
    for_each positions
      (pixel_step m kernel (Z.of_nat w) (Z.of_nat (length image)))
      (initial_state image) = Ok st
    /\ dither_sound m w (length image) st.
Proof.
  intros Hwf Hrect Hne Hu8 Hpos.
  apply (for_each_preserves (dither_sound m w (length image)));
    [by apply initial_state_sound |].
  intros [x y] st Hp Hst.
  apply Hpos, elem_of_scan_order in Hp as (Hx & Hy).
  destruct (dither_pixel_sound m kernel w (length image) x y st Hwf Hst Hx Hy)
    as (st' & _ & _ & _ & _ & E & Hst' & _).
  by exists st'.
Qed.

Lemma python_dithering_palette (m : SevenColorMapper) (elapsed : Z -> bool)
    (image : grid rgb) (method : string) (w : nat) :
  wf_mapper m -> rectangular w image -> Forall (Forall u8) image ->
  String.eqb method "simple" = false ->
  (forall y, 0 <= y < Z.of_nat (length image) ->
     elapsed y = true \/ Z.of_nat (length image) / 4 <> 0) ->
  exists out,
    python_dithering m elapsed image method = Ok out
    /\ length out = length image /\ rectangular w out
    /\ Forall (Forall palette_rgb) out.
Proof.
  intros Hwf Hrect Hu8 Hm Hprog. unfold python_dithering. rewrite Hm.
  destruct (decide (image = [])) as [-> | Hne].
  - exists []. split; [reflexivity |]. split; [done |]. split; constructor.
  - destruct (initial_state_inv image w Hrect Hne) as [Hs _].
    destruct (scan_prefix_sound m (error_kernel method) image w
                (scan_order (Z.of_nat w) (Z.of_nat (length image)))
                Hwf Hrect Hne Hu8) as (st & E & (_ & _ & Hlo & Hro) & _ & _ & Hp);
      [done |].
    rewrite Hs. rewrite dither_rows_as_scan.
    2: { intros y Hy. by apply Hprog, elem_of_py_range_unit. }
    unfold initial_state in E. rewrite Hs in E. cbn [fst snd] in E.
    unfold scan_order in E. rewrite E. rsimpl. by exists (output_array st).
Qed.

(** X15: on the Python path (no accelerated backend, a method other than
    'simple') every pixel of the dithered output is one of the seven
    palette colours, and the output has the height and width of the input,
    whenever the progress test of no row raises (three seconds elapsed, or
    at least four rows). *)
Theorem dithered_output_only_palette_colors (m : SevenColorMapper)
    (elapsed : Z -> bool) (image : grid rgb) (method : string) (w : nat) :
  __init__ None = Ok m ->
  rectangular w image -> Forall (Forall u8) image ->
  String.eqb method "simple" = false ->
  (forall y, 0 <= y < Z.of_nat (length image) ->
     elapsed y = true \/ Z.of_nat (length image) / 4 <> 0) ->
  exists out,
    quantize_image_advanced_dithering m elapsed image method = Ok out
    /\ length out = length image /\ rectangular w out
    /\ Forall (Forall palette_rgb) out.
Proof.
  intros Hinit Hrect Hu8 Hm Hprog.
  destruct (init_spec _ _ Hinit) as [Hwf Hfd].
  unfold quantize_image_advanced_dithering. rewrite Hfd. rsimpl.
  by apply python_dithering_palette.
Qed.

Lemma dithered_output_only_palette_colors_witness :
  exists out,
    quantize_image_advanced_dithering default_mapper never_elapsed
      [ [ (10, 20, 30) ]; [ (200, 100, 0) ]; [ (0, 0, 0) ]; [ (255, 255, 255) ] ]
      "floyd_steinberg_7color" = Ok out
    /\ length out = 4%nat /\ rectangular 1 out
    /\ Forall (Forall palette_rgb) out.
Proof.
  apply (dithered_output_only_palette_colors default_mapper never_elapsed
           [ [ (10, 20, 30) ]; [ (200, 100, 0) ]; [ (0, 0, 0) ];
             [ (255, 255, 255) ] ] "floyd_steinberg_7color" 1
           default_mapper_init);
    [repeat constructor | repeat constructor; simpl; lia | reflexivity |].
  intros y Hy. right. vm_compute. lia.
Defined.

(** X16: the per-call memo is transparent.  At every pixel of the scan the
    colour written to the output is exactly what the cached matcher
    answers for the current working value (clamped to [0, 255] and
    truncated), whether the loop took it from the memo or asked the
    matcher; every entry of the memo agrees with the matcher. *)
Theorem local_cache_is_transparent (fast_dither : option (result backend))
    (m : SevenColorMapper) (image : grid rgb) (method : string) (w : nat)
    (done rest : list (Z * Z)) (x y : Z) :
  __init__ fast_dither = Ok m ->
  rectangular w image -> Forall (Forall u8) image ->
  scan_order (Z.of_nat w) (Z.of_nat (length image)) = done ++ (x, y) :: rest ->
  exists st st' v name c index,
    for_each done
      (pixel_step m (error_kernel method) (Z.of_nat w)
         (Z.of_nat (length image)))
      (initial_state image) = Ok st
    /\ dither_pixel m (error_kernel method) (Z.of_nat w)
         (Z.of_nat (length image)) y x st = Ok st'
    /\ grid_get (img_array st) y x = Ok v
    /\ find_closest_eink_color m (astype_int_px (clip_px v)) true
       = Ok (Some (name, c, index))
    /\ pixel_at (output_array st') (Z.to_nat y) (Z.to_nat x) = Some c
    /\ memo_agrees m (local_cache st').
Proof.
  intros Hinit Hrect Hu8 Hscan.
  destruct (init_spec _ _ Hinit) as [Hwf _].
  assert (Hne : image <> []).
  { intros ->. cbn in Hscan. by destruct done. }
  destruct (scan_prefix_sound m (error_kernel method) image w done
              Hwf Hrect Hne Hu8) as (st & E & Hst).
  { intros p Hp. rewrite Hscan. apply elem_of_app. by left. }
  assert (Hxy : (x, y) ∈ scan_order (Z.of_nat w) (Z.of_nat (length image))).
  { rewrite Hscan. apply elem_of_app. right. left. }
  apply elem_of_scan_order in Hxy as (Hx & Hy).
  destruct (dither_pixel_sound m (error_kernel method) w (length image) x y st
              Hwf Hst Hx Hy)
    as (st' & v & n & c & i & E' & Hst' & Eg & Hf & Hout).
  exists st, st', v, n, c, i. repeat (split; [done |]). apply Hst'.
Qed.

Lemma local_cache_is_transparent_witness :
  exists st st' v name c index,
    for_each [ (0, 0) ]
      (pixel_step default_mapper (error_kernel "floyd_steinberg_7color") 2 1)
      (initial_state gray_2x1) = Ok st
    /\ dither_pixel default_mapper (error_kernel "floyd_steinberg_7color")
         2 1 0 1 st = Ok st'
    /\ grid_get (img_array st) 0 1 = Ok v
    /\ find_closest_eink_color default_mapper (astype_int_px (clip_px v)) true
       = Ok (Some (name, c, index))
    /\ pixel_at (output_array st') (Z.to_nat 0) (Z.to_nat 1) = Some c
    /\ memo_agrees default_mapper (local_cache st').
Proof.
  apply (local_cache_is_transparent None default_mapper gray_2x1
           "floyd_steinberg_7color" 2 [ (0, 0) ] [] 1 0 default_mapper_init);
    [repeat constructor | repeat constructor; simpl; lia | reflexivity].
Defined.

(** ** The scan visits every pixel once *)

Lemma py_range_unit_NoDup (n : Z) : NoDup (py_range 0 n 1).
Proof.
  unfold py_range.
  change (map ?f ?l) with (f <$> l).
  apply NoDup_fmap_2_strong; [| apply NoDup_seq].
  intros i j _ _ Hij. lia.
Qed.

Lemma py_range_down_NoDup (start : Z) : NoDup (py_range_down start).
Proof.
  unfold py_range_down.
  change (map ?f ?l) with (f <$> l).
  apply NoDup_fmap_2_strong; [| apply NoDup_seq].
  intros i j _ _ Hij. lia.
Qed.

Lemma x_range_NoDup (y width : Z) : NoDup (x_range y width).
Proof.
  unfold x_range. destruct (y mod 2 =? 0);
    [apply py_range_unit_NoDup | apply py_range_down_NoDup].
Qed.

Lemma rows_NoDup (row : Z -> list Z) (ys : list Z) :
  NoDup ys -> (forall y, NoDup (row y)) ->
  NoDup (concat (map (fun y => map (fun x => (x, y)) (row y)) ys)).
Proof.
  intros Hys Hrow. induction Hys as [| y ys Hy Hys IH]; cbn [map concat].
  - constructor.
  - apply NoDup_app. split; [| split; [| exact IH]].
    + change (map ?f ?l) with (f <$> l).
      apply NoDup_fmap_2_strong; [| apply Hrow].
      by intros x1 x2 _ _ [= ->].
    + intros [x y'] Hin Hrest.
      apply list_elem_of_In, in_map_iff in Hin as (x0 & [= <- <-] & _).
      apply list_elem_of_In, in_concat in Hrest as (l & Hl & Hxl).
      apply in_map_iff in Hl as (y0 & <- & Hy0).
      apply in_map_iff in Hxl as (x1 & [= _ ->] & _).
      by apply Hy, list_elem_of_In.
Qed.

Lemma concat_uniform_length {A} (n : nat) (ls : list (list A)) :
  Forall (fun l => length l = n) ls ->
  length (concat ls) = (length ls * n)%nat.
Proof.
  induction 1 as [| l ls Hl _ IH]; [done |].
  cbn [concat length]. rewrite length_app, IH, Hl. lia.
Qed.

Lemma scan_order_elem (width height x y : Z) :
  (x, y) ∈ scan_order width height <-> 0 <= x < width /\ 0 <= y < height.
Proof.
  split; [apply elem_of_scan_order |]. intros [Hx Hy].
  eapply list_elem_of_lookup_2. by apply scan_order_lookup.
Qed.

(** X17: the serpentine scan visits every pixel of a [width] x [height]
    image exactly once: its list of positions has no repetition and
    contains [(x, y)] if and only if [0 <= x < width] and
    [0 <= y < height] (for a width or a height of zero or less it is
    empty). *)
Theorem scan_visits_every_pixel_once (width height : Z) :
  NoDup (scan_order width height)
  /\ (forall x y,
        (x, y) ∈ scan_order width height
        <-> 0 <= x < width /\ 0 <= y < height)
  /\ length (scan_order width height)
     = (Z.to_nat width * Z.to_nat height)%nat.
Proof.
  split; [| split].
  - unfold scan_order.
    apply (rows_NoDup (fun y => x_range y width));
      [apply py_range_unit_NoDup | intros y; apply x_range_NoDup].
  - intros x y. apply scan_order_elem.
  - unfold scan_order.
    rewrite (concat_uniform_length (Z.to_nat width)).
    + rewrite length_map, py_range_unit_length. lia.
    + apply Forall_forall. intros l Hl.
      apply list_elem_of_In, in_map_iff in Hl as (y & <- & _).
      by rewrite length_map, x_range_length.
Qed.

(** ** Dithering an image of palette colours *)

Section PaletteImage.
Local Open Scope R_scope.

Lemma px_add_no_error (v u : rgbf) (weight : R) :
  px_add_scaled v (px_sub u u) weight = v.
Proof.
  destruct v as [[r g] b], u as [[r' g'] b']. unfold px_sub, px_add_scaled.
  f_equal; [f_equal |]; ring.
Qed.
End PaletteImage.

Lemma palette_rgb_u8 (c : rgb) : palette_rgb c -> u8 c.
Proof.
  unfold palette_rgb, EINK_COLORS. cbn [map snd].
  rewrite !elem_of_cons, elem_of_nil.
  intros H. repeat destruct H as [H | H]; try done; subst c; cbn; lia.
Qed.

(** With no error to hand on, the loop over the kernel changes nothing. *)
Lemma no_error_kernel (kernel : list (Z * Z * R)) (w : nat) (height x y : Z)
    (u : rgbf) (arr : grid rgbf) :
  rectangular w arr -> height = Z.of_nat (length arr) ->
  Forall (Forall in_range_px) arr ->
  for_each kernel
    (distribute_error (Z.of_nat w) height x y (px_sub u u)) arr = Ok arr.
Proof.
  intros Hrect Hh Hin. induction kernel as [| [[dx dy] weight] kernel IH];
    [done |].
  cbn [for_each].
  destruct (distribute_error_spec w height x y (px_sub u u) dx dy weight arr
              Hrect Hh) as [(_ & _ & row & v & Hrow & Hv & ->) | (_ & ->)];
    rsimpl; [| exact IH].
  rewrite px_add_no_error, clip_px_id.
  - by rewrite (list_insert_id row), (list_insert_id arr).
  - rewrite Forall_lookup in Hin. specialize (Hin _ _ Hrow).
    rewrite Forall_lookup in Hin. by eapply Hin.
Qed.

Lemma pixel_at_float (image : grid rgb) (y x : nat) :
  pixel_at (np_array_float32 image) y x = to_float <$> pixel_at image y x.
Proof.
  unfold pixel_at, np_array_float32.
  change (map (map to_float) image) with (map to_float <$> image).
  rewrite list_lookup_fmap. destruct (image !! y) as [row |]; [| done].
  cbn. change (map to_float row) with (to_float <$> row).
  by rewrite list_lookup_fmap.
Qed.

Lemma grid_get_pixel_at {A} (g : grid A) (y x : Z) (v : A) :
  grid_get g y x = Ok v -> pixel_at g (Z.to_nat y) (Z.to_nat x) = Some v.
Proof.
  unfold grid_get, pixel_at. destruct ((y <? 0) || (x <? 0)); [done |].
  destruct (g !! Z.to_nat y) as [row |]; [| done].
  destruct (row !! Z.to_nat x) as [v' |]; [| done]. by intros [= ->].
Qed.

Lemma palette_pixel (image : grid rgb) (y x : nat) (c : rgb) :
  Forall (Forall palette_rgb) image -> pixel_at image y x = Some c ->
  palette_rgb c.
Proof.
  intros Hpal. unfold pixel_at. destruct (image !! y) as [row |] eqn:Hrow;
    [| done].
  rewrite Forall_lookup in Hpal. specialize (Hpal _ _ Hrow).
  rewrite Forall_lookup in Hpal. apply Hpal.
Qed.

Lemma palette_image_scan (fast_dither : option (result backend))
    (m : SevenColorMapper) (kernel : list (Z * Z * R)) (image : grid rgb)
    (w : nat) (positions : list (Z * Z)) :
  __init__ fast_dither = Ok m ->
  rectangular w image -> image <> [] ->
  Forall (Forall palette_rgb) image ->
  (forall p, p ∈ positions ->
     p ∈ scan_order (Z.of_nat w) (Z.of_nat (length image))) ->
  exists st,
    for_each positions
      (pixel_step m kernel (Z.of_nat w) (Z.of_nat (length image)))
      (initial_state image) = Ok st
    /\ dither_sound m w (length image) st
    /\ img_array st = np_array_float32 image
    /\ forall p, p ∈ positions ->
         pixel_at (output_array st) (Z.to_nat p.2) (Z.to_nat p.1)
         = pixel_at image (Z.to_nat p.2) (Z.to_nat p.1).
Proof.
  intros Hinit Hrect Hne Hpal Hpos.
  destruct (init_spec _ _ Hinit) as [Hwf _].
  assert (Hu8 : Forall (Forall u8) image).
  { eapply Forall_impl; [exact Hpal |]. intros row Hrow.
    eapply Forall_impl; [exact Hrow |]. apply palette_rgb_u8. }
  match goal with
  | |- context [@for_each ?A ?S ?ps ?body ?s0] =>
      destruct (for_each_invariant (A:=A) (S:=S)
        (fun done st =>
           dither_sound m w (length image) st
           /\ img_array st = np_array_float32 image
           /\ forall p, p ∈ done ->
                pixel_at (output_array st) (Z.to_nat p.2) (Z.to_nat p.1)
                = pixel_at image (Z.to_nat p.2) (Z.to_nat p.1))
        body ps s0) as (st & E & Hst)
  end.
  - split; [by apply initial_state_sound |]. split; [done |].
    intros p Hp. by apply elem_of_nil in Hp.
  - intros done [x y] st (Hst & Himg & Hout) Hp.
    apply Hpos, elem_of_scan_order in Hp as (Hx & Hy).
    destruct (dither_pixel_sound m kernel w (length image) x y st Hwf Hst Hx Hy)
      as (st' & v & n & c & i & E' & Hst' & Eg & Hf & Hc).
    destruct Hst as (Hinv & Hin & Hmemo & _).
    destruct (dither_pixel_spec m kernel w (length image) x y st Hwf Hinv Hx Hy)
      as (v0 & n0 & c0 & i0 & orow & arr & Eg0 & Hf0 & _ & Horow & Hxl & Ek & E0).
    rewrite Eg in Eg0. injection Eg0 as <-.
    rewrite Hf in Hf0. injection Hf0 as <- <- <-.
    assert (Hchosen :
      default c (local_cache st !! astype_int_px (clip_px v)) = c).
    { destruct (local_cache st !! _) as [c1 |] eqn:Ec; [| done].
      cbn [default from_option Datatypes.id].
      destruct (Hmemo _ _ Ec) as (n1 & i1 & Hf1). rewrite Hf1 in Hf.
      by injection Hf as _ -> _. }
    rewrite Hchosen in Ek, E0.
    (* the pixel read is the input pixel, a palette colour *)
    apply grid_get_pixel_at in Eg. rewrite Himg, pixel_at_float in Eg.
    destruct (pixel_at image (Z.to_nat y) (Z.to_nat x)) as [ci |] eqn:Hci;
      [| done].
    injection Eg as <-.
    pose proof (palette_pixel _ _ _ _ Hpal Hci) as Hpi.
    rewrite current_rgb_of_u8 in Hf by (by apply palette_rgb_u8).
    unfold palette_rgb in Hpi. apply list_elem_of_In, in_map_iff in Hpi
      as ([ni ci'] & Hci' & Hini%list_elem_of_In). cbn [snd] in Hci'. subst ci'.
    destruct (palette_matched _ m ni ci true Hinit Hini) as (ii & _ & _ & Hfi).
    rewrite Hfi in Hf. injection Hf as <- <- <-.
    rewrite no_error_kernel in Ek.
    2: { destruct Hinv as (_ & Hr & _). by rewrite Himg in Hr |- *. }
    2: { destruct Hinv as (Hl & _). by rewrite Hl. }
    2: { done. }
    injection Ek as <-.
    exists st'. split; [exact E' |]. split; [done |].
    rewrite E' in E0. injection E0 as ->. cbn [img_array output_array].
    split; [done |].
    intros [x' y'] Hp'. cbn [fst snd].
    rewrite (pixel_at_insert _ _ _ _ _ orow ci) by done.
    case_decide as Hxy.
    + destruct Hxy as [-> ->]. done.
    + apply elem_of_app in Hp' as [Hp' | Hp']; [by apply (Hout (x', y')) |].
      apply list_elem_of_singleton in Hp'. injection Hp' as -> ->.
      by destruct Hxy.
  - exists st. split; [exact E |]. exact Hst.
Qed.

Lemma palette_image_dithering (fast_dither : option (result backend))
    (m : SevenColorMapper) (elapsed : Z -> bool) (image : grid rgb)
    (method : string) (w : nat) :
  __init__ fast_dither = Ok m ->
  rectangular w image -> Forall (Forall palette_rgb) image ->
  String.eqb method "simple" = false ->
  (forall y, 0 <= y < Z.of_nat (length image) ->
     elapsed y = true \/ Z.of_nat (length image) / 4 <> 0) ->
  python_dithering m elapsed image method = Ok image.
Proof.
  intros Hinit Hrect Hpal Hm Hprog. unfold python_dithering. rewrite Hm.
  destruct (decide (image = [])) as [-> | Hne]; [reflexivity |].
  destruct (initial_state_inv image w Hrect Hne) as [Hs _].
  destruct (palette_image_scan fast_dither m (error_kernel method) image w
              (scan_order (Z.of_nat w) (Z.of_nat (length image)))
              Hinit Hrect Hne Hpal)
    as (st & E & ((_ & _ & Hlo & Hro) & _) & _ & Hout); [done |].
  rewrite Hs. rewrite dither_rows_as_scan.
  2: { intros y Hy. by apply Hprog, elem_of_py_range_unit. }
  unfold initial_state in E. rewrite Hs in E. cbn [fst snd] in E.
  unfold scan_order in E. rewrite E. rsimpl. f_equal.
  apply (grid_eq_pixels w); try done. intros y x.
  destruct (decide (y < length image /\ x < w)%nat) as [[Hy Hx] | Hout'].
  - specialize (Hout (Z.of_nat x, Z.of_nat y)). cbn [fst snd] in Hout.
    rewrite !Nat2Z.id in Hout. apply Hout. apply scan_order_elem. lia.
  - destruct (pixel_at (output_array st) y x) as [c |] eqn:Hc.
    { destruct (pixel_at_lt w _ _ _ c Hro Hc). lia. }
    destruct (pixel_at image y x) as [c |] eqn:Hc'; [| done].
    destruct (pixel_at_lt w _ _ _ c Hrect Hc'). lia.
Qed.

(** X18: on the Python path, dithering an image that already consists of
    palette colours returns the image unchanged, for both kernels: every
    pixel is matched to itself, the error handed on is zero and the
    working buffer never changes (stated for runs whose progress test does
    not raise). *)
Theorem dithering_keeps_palette_images (m : SevenColorMapper)
    (elapsed : Z -> bool) (image : grid rgb) (method : string) (w : nat) :
  __init__ None = Ok m ->
  rectangular w image -> Forall (Forall palette_rgb) image ->
  String.eqb method "simple" = false ->
  (forall y, 0 <= y < Z.of_nat (length image) ->
     elapsed y = true \/ Z.of_nat (length image) / 4 <> 0) ->
  quantize_image_advanced_dithering m elapsed image method = Ok image.
Proof.
  intros Hinit Hrect Hpal Hm Hprog.
  destruct (init_spec _ _ Hinit) as [_ Hfd].
  unfold quantize_image_advanced_dithering. rewrite Hfd. rsimpl.
  by apply (palette_image_dithering None _ _ _ _ w).
Qed.

Lemma dithering_keeps_palette_images_witness :
  quantize_image_advanced_dithering default_mapper never_elapsed
    [ [ (255, 165, 0); (0, 0, 0) ]; [ (0, 0, 255); (255, 255, 255) ];
      [ (255, 0, 0); (0, 255, 0) ]; [ (255, 255, 0); (0, 0, 0) ] ]
    "jarvis_judice_ninke_7color"
  = Ok [ [ (255, 165, 0); (0, 0, 0) ]; [ (0, 0, 255); (255, 255, 255) ];
         [ (255, 0, 0); (0, 255, 0) ]; [ (255, 255, 0); (0, 0, 0) ] ].
Proof.
  apply (dithering_keeps_palette_images default_mapper never_elapsed
           [ [ (255, 165, 0); (0, 0, 0) ]; [ (0, 0, 255); (255, 255, 255) ];
             [ (255, 0, 0); (0, 255, 0) ]; [ (255, 255, 0); (0, 0, 0) ] ]
           "jarvis_judice_ninke_7color" 2 default_mapper_init);
    [repeat constructor | | reflexivity |].
  - repeat constructor; unfold palette_rgb; vm_compute;
      repeat (first [left | right; left | right]).
  - intros y Hy. right. vm_compute. lia.
Defined.

(** * Further properties of the random-threshold mode *)

Section SortedDistances.
Local Open Scope R_scope.

Lemma distance_entry_ltb_le (t h : R * string * rgb) :
  (distance_entry_ltb t h = true -> distance_le t h)
  /\ (distance_entry_ltb t h = false -> distance_le h t).
Proof.
  destruct t as [[d1 n1] c1], h as [[d2 n2] c2].
  unfold distance_entry_ltb, distance_le. cbn [fst].
  destruct (Req_dec_T d1 d2) as [-> | Hne]; [split; intros _; lra |].
  unfold Rltb. destruct (Rlt_dec d1 d2); split; intros; try done; lra.
Qed.

Lemma insert_sorted_perm (t : R * string * rgb) (l : list (R * string * rgb)) :
  insert_sorted t l ≡ₚ t :: l.
Proof.
  induction l as [| h l IH]; [done |]. cbn [insert_sorted].
  destruct (distance_entry_ltb t h); [done |].
  rewrite IH. apply Permutation_swap.
Qed.

Lemma list_sort_perm (l : list (R * string * rgb)) : list_sort l ≡ₚ l.
Proof.
  unfold list_sort.
  assert (H : forall acc,
    fold_left (fun acc t => insert_sorted t acc) l acc ≡ₚ acc ++ l).
  { induction l as [| t l IH]; intros acc; cbn [fold_left].
    - by rewrite app_nil_r.
    - rewrite IH, insert_sorted_perm. cbn [app]. apply Permutation_middle. }
  by rewrite H.
Qed.

Lemma insert_sorted_sorted (t : R * string * rgb)
    (l : list (R * string * rgb)) :
  StronglySorted distance_le l -> StronglySorted distance_le (insert_sorted t l).
Proof.
  induction 1 as [| h l Hl IH Hh]; cbn [insert_sorted].
  - repeat constructor.
  - destruct (distance_entry_ltb t h) eqn:E.
    + apply distance_entry_ltb_le in E.
      constructor; [by constructor |]. constructor; [done |].
      eapply Forall_impl; [exact Hh |]. intros x Hx.
      unfold distance_le in *. lra.
    + apply distance_entry_ltb_le in E. constructor; [done |].
      rewrite insert_sorted_perm. by constructor.
Qed.

Lemma list_sort_sorted (l : list (R * string * rgb)) :
  StronglySorted distance_le (list_sort l).
Proof.
  unfold list_sort.
  assert (H : forall acc, StronglySorted distance_le acc ->
    StronglySorted distance_le
      (fold_left (fun acc t => insert_sorted t acc) l acc)).
  { induction l as [| t l IH]; intros acc Hacc; cbn [fold_left]; [done |].
    by apply IH, insert_sorted_sorted. }
  apply H. constructor.
Qed.
End SortedDistances.

Lemma EINK_COLORS_NoDup : NoDup EINK_COLORS.
Proof. apply (bool_decide_unpack _). by vm_compute. Qed.

Lemma two_closest_spec (c : rgb) :
  exists n1 c1 n2 c2,
    two_closest c
    = Ok (distance_entry c n1 c1, distance_entry c n2 c2)
    /\ (n1, c1) ∈ EINK_COLORS /\ (n2, c2) ∈ EINK_COLORS
    /\ (n1, c1) <> (n2, c2)
    /\ forall n e, (n, e) ∈ EINK_COLORS ->
         distance_le (distance_entry c n1 c1) (distance_entry c n e)
         /\ ((n, e) <> (n1, c1) ->
             distance_le (distance_entry c n2 c2) (distance_entry c n e)).
Proof.
  unfold two_closest. rewrite distances_loop. rsimpl. cbn [app].
  set (ds := map _ EINK_COLORS).
  assert (Hds : ds = map (fun p => distance_entry c p.1 p.2) EINK_COLORS).
  { unfold ds. apply map_ext. by intros [n e]. }
  clearbody ds. subst ds.
  set (ds := map _ EINK_COLORS).
  pose proof (list_sort_perm ds) as Hperm.
  pose proof (list_sort_sorted ds) as Hsort.
  assert (Hlen : length (list_sort ds) = 7%nat)
    by (by rewrite list_sort_length).
  assert (Hnodup : NoDup ds).
  { unfold ds. change (map ?f ?l) with (f <$> l).
    apply NoDup_fmap_2_strong.
    - intros [n e] [n' e'] _ _. unfold distance_entry. cbn [fst snd].
      by intros [= _ -> ->].
    - exact EINK_COLORS_NoDup. }
  rewrite <- Hperm in Hnodup.
  assert (Hmem : forall t, t ∈ list_sort ds ->
    exists n e, (n, e) ∈ EINK_COLORS /\ t = distance_entry c n e).
  { intros t Ht. rewrite Hperm in Ht. unfold ds in Ht.
    apply list_elem_of_In, in_map_iff in Ht as ([n e] & <- & Hin).
    exists n, e. split; [by apply list_elem_of_In | done]. }
  assert (Hall : forall n e, (n, e) ∈ EINK_COLORS ->
    distance_entry c n e ∈ list_sort ds).
  { intros n e Hin. rewrite Hperm. unfold ds.
    apply list_elem_of_In, in_map_iff. exists (n, e).
    split; [done | by apply list_elem_of_In]. }
  destruct (list_sort ds) as [| t1 [| t2 rest]] eqn:Es; try done.
  destruct (Hmem t1) as (n1 & c1 & Hin1 & ->); [left |].
  destruct (Hmem t2) as (n2 & c2 & Hin2 & ->); [right; left |].
  exists n1, c1, n2, c2. cbn. split; [done |]. split; [done |].
  split; [done |]. split.
  { intros [= -> ->]. apply NoDup_cons in Hnodup as [Hnot _].
    apply Hnot. left. }
  apply StronglySorted_inv in Hsort as [Hsort2 H1].
  apply StronglySorted_inv in Hsort2 as [_ H2].
  rewrite Forall_forall in H1, H2.
  intros n e Hin. specialize (Hall n e Hin).
  apply elem_of_cons in Hall as [Heq | Hall].
  - split; [rewrite Heq; unfold distance_le; lra |].
    intros Hne. exfalso. apply Hne. unfold distance_entry in Heq.
    by injection Heq as _ -> ->.
  - split; [by apply H1 |].
    intros _. apply elem_of_cons in Hall as [-> | Hall];
      [unfold distance_le; lra | by apply H2].
Qed.

(** X19: for every pixel the random-threshold mode chooses between the two
    nearest palette colours: [two_closest] returns, with their distances,
    two different palette colours of which the first is at least as near
    as every palette colour and the second at least as near as every
    other one. *)
Theorem two_closest_are_the_two_nearest (c : rgb) :
  exists n1 c1 n2 c2,
    two_closest c
    = Ok (distance_entry c n1 c1, distance_entry c n2 c2)
    /\ (n1, c1) ∈ EINK_COLORS /\ (n2, c2) ∈ EINK_COLORS
    /\ (n1, c1) <> (n2, c2)
    /\ forall n e, (n, e) ∈ EINK_COLORS ->
         distance_le (distance_entry c n1 c1) (distance_entry c n e)
         /\ ((n, e) <> (n1, c1) ->
             distance_le (distance_entry c n2 c2) (distance_entry c n e)).
Proof. apply two_closest_spec. Qed.

Section BlueNoiseOutput.
Variable rng_state : Type.
Variable np_random_seed : Z -> rng_state.
Variable np_random_random : rng_state -> R * rng_state.

Lemma blue_noise_spec (self : SevenColorMapper) (image : grid rgb) (w : nat) :
  rectangular w image ->
  exists out rng',
    (forall rng,
       quantize_image_blue_noise rng_state np_random_seed np_random_random
         self rng image = Ok (out, rng'))
    /\ length out = length image
    /\ rectangular w out
    /\ Forall (Forall palette_rgb) out
    /\ rng' = Nat.iter (length image * w)
                (fun s => snd (np_random_random s)) (np_random_seed 42).
Proof.
  intros Hrect. unfold quantize_image_blue_noise.
  destruct image as [| row rest].
  - exists [], (np_random_seed 42). split; [done |]. split; [done |].
    split; [constructor |]. split; [constructor | done].
  - assert (Hw : length row = w) by (by inversion Hrect).
    unfold shape. rewrite Hw.
    set (h := length (row :: rest)) in *.
    set (next := fun s => snd (np_random_random s)).
    match goal with
    | |- context [@for_each ?A ?S ?ys ?body ?s0] =>
        destruct (for_each_invariant (A:=A) (S:=S)
          (fun done st =>
             length st.1 = h /\ rectangular w st.1
             /\ Forall (Forall palette_rgb) st.1
             /\ st.2 = Nat.iter (length done * w) next (np_random_seed 42))
          body ys s0) as ([out rng'] & E & Hlen & Hr & Hp & Hrng)
    end.
    + cbn [fst snd]. destruct (np_zeros_shape h w) as (? & ? & ?). done.
    + intros done y st (Hlen & Hr & Hp & Hrng) Hy%elem_of_py_range_unit.
      match goal with
      | |- context [@for_each ?A ?S ?xs ?body ?s0] =>
          destruct (for_each_invariant (A:=A) (S:=S)
            (fun donex st' =>
               length st'.1 = h /\ rectangular w st'.1
               /\ Forall (Forall palette_rgb) st'.1
               /\ st'.2 = Nat.iter (length done * w + length donex) next
                            (np_random_seed 42))
            body xs s0) as (st' & E' & Hlen' & Hr' & Hp' & Hrng')
      end.
      * rewrite Nat.add_0_r. done.
      * intros donex x [out rng] (Hlen' & Hr' & Hp' & Hrng')
          Hx%elem_of_py_range_unit. cbn [fst snd] in *.
        destruct (grid_get_ok w (row :: rest) y x Hrect Hy Hx)
          as (r0 & c & _ & _ & ->).
        rsimpl. destruct (two_closest_spec c)
          as (n1 & c1 & n2 & c2 & -> & Hin1 & Hin2 & _).
        rsimpl. destruct (np_random_random rng) as [threshold rng2] eqn:Er.
        destruct (grid_set_ok w out y x c1 Hr') as (r1 & Hr1 & E1); [lia | lia |].
        destruct (grid_set_ok w out y x c2 Hr') as (r2 & Hr2 & E2); [lia | lia |].
        cbn [distance_entry snd]. rewrite E1, E2.
        assert (Hrng2 : rng2 = Nat.iter (length done * w + length (donex ++ [x]))
                                 next (np_random_seed 42)).
        { rewrite length_app. cbn [length].
          replace (length done * w + (length donex + 1))%nat
            with (S (length done * w + length donex)) by lia.
          rewrite Nat.iter_succ, <- Hrng'. unfold next. by rewrite Er. }
        assert (Hpal : forall n e, (n, e) ∈ EINK_COLORS -> palette_rgb e).
        { intros n e Hin. unfold palette_rgb.
          apply list_elem_of_In, in_map_iff. exists (n, e).
          split; [done | by apply list_elem_of_In]. }
        destruct (Rltb threshold 0.7); rsimpl; eexists;
          (split; [reflexivity |]); cbn [fst snd];
          (split; [by rewrite length_insert |]);
          (split; [by apply rectangular_insert |]);
          (split; [| done]); apply Forall2d_insert; eauto.
      * exists st'. split; [exact E' |]. split; [done |]. split; [done |].
        split; [done |]. rewrite Hrng', length_app, py_range_unit_length.
        cbn [length]. f_equal. lia.
    + exists out, rng'. cbn [fst snd] in *. split; [intros rng; exact E |].
      split; [done |]. split; [done |]. split; [done |].
      rewrite Hrng, py_range_unit_length. f_equal. unfold h. lia.
Qed.

(** X20: the random-threshold mode returns an array of the input's height
    and width whose pixels are palette colours, and it draws exactly one
    threshold per pixel: the generator is left in the state reached from
    seed 42 after [height * width] draws. *)
Theorem blue_noise_output_and_draws (self : SevenColorMapper)
    (image : grid rgb) (w : nat) :
  rectangular w image ->
  exists out rng',
    (forall rng,
       quantize_image_blue_noise rng_state np_random_seed np_random_random
         self rng image = Ok (out, rng'))
    /\ length out = length image
    /\ rectangular w out
    /\ Forall (Forall palette_rgb) out
    /\ rng' = Nat.iter (length image * w)
                (fun s => snd (np_random_random s)) (np_random_seed 42).
Proof. apply blue_noise_spec. Qed.
End BlueNoiseOutput.

Lemma blue_noise_output_and_draws_witness :
  exists out rng',
    (forall rng,
       quantize_image_blue_noise Z lcg_seed lcg_random default_mapper rng
         gray_2x1 = Ok (out, rng'))
    /\ length out = length gray_2x1
    /\ rectangular 2 out
    /\ Forall (Forall palette_rgb) out
    /\ rng' = Nat.iter (length gray_2x1 * 2)
                (fun s => snd (lcg_random s)) (lcg_seed 42).
Proof.
  apply (blue_noise_output_and_draws Z lcg_seed lcg_random default_mapper
           gray_2x1 2).
  repeat constructor.
Defined.

(** * Further properties of the constructor and of the palette indices *)

Lemma palette_entry_position (n : string) (c : rgb) (i : Z) :
  is_palette_entry (n, c, i) ->
  0 <= i <= 6
  /\ EINK_COLORS !! Z.to_nat i = Some (n, c)
  /\ get_palette_for_waveshare !! Z.to_nat i = Some i.
Proof.
  intros [Hin Hi]. unfold EINK_COLORS in Hin.
  rewrite !elem_of_cons, elem_of_nil in Hin.
  destruct Hin as [H | [H | [H | [H | [H | [H | [H | []]]]]]]];
    injection H as -> ->; cbn in Hi; injection Hi as <-;
    (split; [lia |]); split; reflexivity.
Qed.

(** X21: the index the matcher returns is the position of the returned
    colour in the palette: for every colour the cached matcher returns
    [(name, rgb, index)] with [0 <= index <= 6], [(name, rgb)] the entry
    number [index] of [EINK_COLORS], and [index] the entry number [index]
    of [get_palette_for_waveshare()], which is [[0, 1, 2, 3, 4, 5, 6]]. *)
Theorem matcher_index_is_palette_position
    (fast_dither : option (result backend)) (m : SevenColorMapper) (c : rgb)
    (use_ciede2000 : bool) :
  __init__ fast_dither = Ok m ->
  exists name rgb_val index,
    find_closest_eink_color m c use_ciede2000
    = Ok (Some (name, rgb_val, index))
    /\ 0 <= index <= 6
    /\ EINK_COLORS !! Z.to_nat index = Some (name, rgb_val)
    /\ get_palette_for_waveshare !! Z.to_nat index = Some index
    /\ get_palette_for_waveshare = [ 0; 1; 2; 3; 4; 5; 6 ].
Proof.
  intros Hinit. destruct (init_spec _ _ Hinit) as [Hwf _].
  destruct (find_closest_total m c use_ciede2000 Hwf)
    as ([[n rv] i] & E & Hp).
  destruct (palette_entry_position n rv i Hp) as (Hi & He & Hg).
  exists n, rv, i. by repeat (split; [done |]).
Qed.

Lemma matcher_index_is_palette_position_witness :
  exists name rgb_val index,
    find_closest_eink_color default_mapper (17, 230, 99) true
    = Ok (Some (name, rgb_val, index))
    /\ 0 <= index <= 6
    /\ EINK_COLORS !! Z.to_nat index = Some (name, rgb_val)
    /\ get_palette_for_waveshare !! Z.to_nat index = Some index
    /\ get_palette_for_waveshare = [ 0; 1; 2; 3; 4; 5; 6 ].
Proof.
  apply (matcher_index_is_palette_position None default_mapper (17, 230, 99)
           true).
  exact default_mapper_init.
Defined.

(** X22: the constructor has the same handler as the dithering entry
    point.  When the extension module is importable but
    [FastSevenColorDitherer()] raises, whatever it raises, the handler's
    [logging.warning] raises [NameError] (the module does not import
    [logging]) and no mapper is constructed. *)
Theorem constructor_raises_when_backend_constructor_fails (e : exn) :
  __init__ (Some (Raise e)) = Raise (NameError "logging").
Proof. apply init_backend_failure. Qed.

Lemma init_result (fast_dither : option (result backend)) :
  (forall e, fast_dither <> Some (Raise e)) ->
  exists m,
    __init__ fast_dither = Ok m
    /\ Forall2 (fun '(name, c) '(name', c', l) =>
                  name' = name /\ c' = c /\ _rgb_to_lab c = Ok l)
         EINK_COLORS (eink_color_list m)
    /\ fast_ditherer m = match fast_dither with
                         | Some (Ok b) => Some b
                         | _ => None
                         end
    /\ forall k e, _color_cache m !! k = Some e ->
         _find_closest_eink_color_direct m k true = Ok (Some e).
Proof.
  intros Hok. destruct (init_total fast_dither Hok) as [m Hinit].
  exists m. split; [done |].
  destruct (init_spec _ _ Hinit) as [(_ & _ & Hs & _) Hfd].
  split; [| split; [done | exact Hs]].
  rewrite (init_color_list _ _ Hinit).
  induction EINK_COLORS as [| [n c] l IH]; cbn [map]; constructor; [| done].
  by rewrite rgb_to_lab_total.
Qed.

(** X23: in every other case (the extension module missing, or its
    constructor returning) the constructor raises nothing.  The mapper it
    returns lists the seven palette colours in palette order, each with
    the LAB value [_rgb_to_lab] gives it; its [fast_ditherer] is the
    backend when there is one and [None] otherwise; and every entry of its
    lookup table is what the direct scan returns on the entry's key. *)
Theorem constructor_result (fast_dither : option (result backend)) :
  (forall e, fast_dither <> Some (Raise e)) ->
  exists m,
    __init__ fast_dither = Ok m
    /\ Forall2 (fun '(name, c) '(name', c', l) =>
                  name' = name /\ c' = c /\ _rgb_to_lab c = Ok l)
         EINK_COLORS (eink_color_list m)
    /\ fast_ditherer m = match fast_dither with
                         | Some (Ok b) => Some b
                         | _ => None
                         end
    /\ forall k e, _color_cache m !! k = Some e ->
         _find_closest_eink_color_direct m k true = Ok (Some e).
Proof. apply init_result. Qed.

Lemma constructor_result_witness :
  exists m,
    __init__ (Some (Ok black_backend)) = Ok m
    /\ Forall2 (fun '(name, c) '(name', c', l) =>
                  name' = name /\ c' = c /\ _rgb_to_lab c = Ok l)
         EINK_COLORS (eink_color_list m)
    /\ fast_ditherer m = Some black_backend
    /\ forall k e, _color_cache m !! k = Some e ->
         _find_closest_eink_color_direct m k true = Ok (Some e).
Proof.
  apply (constructor_result (Some (Ok black_backend))). intros e. discriminate.
Defined.

(** * Properties of the colour statistics *)

Lemma insert_by_count_perm (t : Z * rgb) (l : list (Z * rgb)) :
  insert_by_count t l ≡ₚ t :: l.
Proof.
  induction l as [| h l IH]; [done |]. cbn [insert_by_count].
  destruct (fst h <? fst t); [done |].
  rewrite IH. apply Permutation_swap.
Qed.

Lemma sort_by_count_perm (colors : list (Z * rgb)) :
  sort_by_count_reverse colors ≡ₚ colors.
Proof.
  unfold sort_by_count_reverse.
  assert (H : forall acc,
    fold_left (fun acc t => insert_by_count t acc) colors acc ≡ₚ acc ++ colors).
  { induction colors as [| t l IH]; intros acc; cbn [fold_left].
    - by rewrite app_nil_r.
    - rewrite IH, insert_by_count_perm. cbn [app]. apply Permutation_middle. }
  by rewrite H.
Qed.

Lemma insert_by_count_sorted (t : Z * rgb) (l : list (Z * rgb)) :
  StronglySorted (fun a b => fst b <= fst a) l ->
  StronglySorted (fun a b => fst b <= fst a) (insert_by_count t l).
Proof.
  induction 1 as [| h l Hl IH Hh]; cbn [insert_by_count].
  - repeat constructor.
  - destruct (fst h <? fst t) eqn:E.
    + apply Z.ltb_lt in E. constructor; [by constructor |].
      constructor; [lia |]. eapply Forall_impl; [exact Hh |].
      cbv beta. intros x Hx. lia.
    + apply Z.ltb_ge in E. constructor; [done |].
      rewrite insert_by_count_perm. by constructor.
Qed.

Lemma filter_none {A} (P : A -> Prop) `{!forall x, Decision (P x)}
    (l : list A) :
  Forall (fun x => ~ P x) l -> filter P l = [].
Proof.
  induction 1 as [| x l Hx _ IH]; [done |].
  by rewrite filter_cons, decide_False.
Qed.

(** An entry is inserted behind the entries of its own count. *)
Lemma insert_by_count_stable (t : Z * rgb) (l : list (Z * rgb)) (n : Z) :
  StronglySorted (fun a b => fst b <= fst a) l ->
  filter (fun e => fst e = n) (insert_by_count t l)
  = filter (fun e => fst e = n) (l ++ [t]).
Proof.
  induction 1 as [| h l Hl IH Hh]; [done |]. cbn [insert_by_count app].
  destruct (fst h <? fst t) eqn:E.
  - apply Z.ltb_lt in E.
    change (h :: l ++ [t]) with ((h :: l) ++ [t]). rewrite filter_app.
    rewrite (filter_cons _ t (h :: l)), (filter_cons _ t []), filter_nil.
    destruct (decide (fst t = n)) as [Ht | Ht]; [| by rewrite app_nil_r].
    assert (Hnone : filter (fun e => fst e = n) (h :: l) = []).
    { apply filter_none. constructor; [lia |].
      eapply Forall_impl; [exact Hh |]. cbv beta. intros x Hx. lia. }
    by rewrite Hnone.
  - rewrite !filter_cons, IH. by destruct (decide (fst h = n)).
Qed.

Lemma sort_by_count_spec (colors : list (Z * rgb)) :
  StronglySorted (fun a b => fst b <= fst a) (sort_by_count_reverse colors)
  /\ forall n,
       filter (fun e => fst e = n) (sort_by_count_reverse colors)
       = filter (fun e => fst e = n) colors.
Proof.
  unfold sort_by_count_reverse.
  assert (H : forall acc, StronglySorted (fun a b => fst b <= fst a) acc ->
    StronglySorted (fun a b => fst b <= fst a)
      (fold_left (fun acc t => insert_by_count t acc) colors acc)
    /\ forall n,
         filter (fun e => fst e = n)
           (fold_left (fun acc t => insert_by_count t acc) colors acc)
         = filter (fun e => fst e = n) (acc ++ colors)).
  { induction colors as [| t l IH]; intros acc Hacc; cbn [fold_left].
    - split; [done |]. intros n. by rewrite app_nil_r.
    - destruct (IH (insert_by_count t acc)) as [Hs Hf];
        [by apply insert_by_count_sorted |].
      split; [done |]. intros n.
      rewrite Hf, !filter_app, insert_by_count_stable by done.
      rewrite filter_app, <- app_assoc. f_equal.
      change (t :: l) with ([t] ++ l). by rewrite filter_app. }
  apply H. constructor.
Qed.

Lemma py_slice_to_take {A} (l : list A) (stop : Z) :
  exists k, py_slice_to l stop = take k l
            /\ k = if stop <? 0 then (length l - Z.to_nat (- stop))%nat
                    else Z.to_nat stop.
Proof. unfold py_slice_to. destruct (stop <? 0); by eexists. Qed.

Lemma analyze_image_colors_spec
    (getcolors : Z -> option (list (Z * rgb))) (top_n : Z)
    (colors : list (Z * rgb)) :
  getcolors (256 * 256 * 256) = Some colors ->
  exists kept dropped,
    analyze_image_colors getcolors top_n
    = map (fun color => (snd color, fst color)) kept
    /\ kept ++ dropped ≡ₚ colors
    /\ StronglySorted (fun a b => fst b <= fst a) (kept ++ dropped)
    /\ (forall n, filter (fun e => fst e = n) (kept ++ dropped)
                  = filter (fun e => fst e = n) colors)
    /\ length kept
       = if top_n <? 0 then (length colors - Z.to_nat (- top_n))%nat
         else (Z.to_nat top_n `min` length colors)%nat.
Proof.
  intros Hg. unfold analyze_image_colors. rewrite Hg. cbv zeta.
  destruct (py_slice_to_take (sort_by_count_reverse colors) top_n)
    as (k & -> & Hk).
  exists (take k (sort_by_count_reverse colors)),
         (drop k (sort_by_count_reverse colors)).
  rewrite take_drop. split; [done |]. split; [apply sort_by_count_perm |].
  destruct (sort_by_count_spec colors) as [Hs Hf].
  split; [done |]. split; [done |].
  rewrite length_take, Hk, (Permutation_length (sort_by_count_perm colors)).
  destruct (top_n <? 0); lia.
Qed.

(** X24: [analyze_image_colors] lists the most frequent colours first.
    When [getcolors] returns a list, the result is the [(colour, count)]
    form of an initial part [kept] of that list reordered by decreasing
    count: the counts of the result never increase, every colour left out
    has a count no larger than every colour kept, and colours of equal
    count stay in the order [getcolors] gave them (the sort is stable). *)
Theorem analyze_image_colors_most_frequent_first
    (getcolors : Z -> option (list (Z * rgb))) (top_n : Z)
    (colors : list (Z * rgb)) :
  getcolors (256 * 256 * 256) = Some colors ->
  exists kept dropped,
    analyze_image_colors getcolors top_n
    = map (fun color => (snd color, fst color)) kept
    /\ kept ++ dropped ≡ₚ colors
    /\ StronglySorted (fun a b => fst b <= fst a) kept
    /\ (forall a b, a ∈ kept -> b ∈ dropped -> fst b <= fst a)
    /\ (forall n, filter (fun e => fst e = n) (kept ++ dropped)
                  = filter (fun e => fst e = n) colors).
Proof.
  intros Hg.
  destruct (analyze_image_colors_spec getcolors top_n colors Hg)
    as (kept & dropped & E & Hp & Hs & Hf & _).
  exists kept, dropped. split; [done |]. split; [done |].
  split; [| split; [| done]].
  - clear -Hs. induction kept as [| a kept IH]; [constructor |].
    cbn [app] in Hs. apply StronglySorted_inv in Hs as [Hs Ha].
    constructor; [by apply IH |].
    apply Forall_app in Ha. apply Ha.
  - clear -Hs. induction kept as [| a' kept IH]; intros a b Ha Hb.
    + by apply elem_of_nil in Ha.
    + cbn [app] in Hs. apply StronglySorted_inv in Hs as [Hs Ha'].
      apply elem_of_cons in Ha as [-> | Ha]; [| by apply IH].
      rewrite Forall_forall in Ha'. apply Ha'.
      apply elem_of_app. by right.
Qed.

Lemma analyze_image_colors_most_frequent_first_witness :
  exists kept dropped,
    analyze_image_colors
      (fun _ => Some [ (3, (0, 0, 0)); (9, (255, 0, 0)); (3, (1, 2, 3)) ]) 2
    = map (fun color => (snd color, fst color)) kept
    /\ kept ++ dropped
       ≡ₚ [ (3, (0, 0, 0)); (9, (255, 0, 0)); (3, (1, 2, 3)) ]
    /\ StronglySorted (fun a b => fst b <= fst a) kept
    /\ (forall a b, a ∈ kept -> b ∈ dropped -> fst b <= fst a)
    /\ (forall n,
          filter (fun e => fst e = n) (kept ++ dropped)
          = filter (fun e => fst e = n)
              [ (3, (0, 0, 0)); (9, (255, 0, 0)); (3, (1, 2, 3)) ]).
Proof.
  apply (analyze_image_colors_most_frequent_first
           (fun _ => Some [ (3, (0, 0, 0)); (9, (255, 0, 0)); (3, (1, 2, 3)) ])
           2).
  reflexivity.
Defined.

(** X25: the length of the result of [analyze_image_colors].  When
    [getcolors] returns [None] the result is empty.  Otherwise a
    non-negative [top_n] gives [min(top_n, number of colours)] entries,
    and a negative [top_n] is not rejected: as a slice bound it counts
    from the end, so the [-top_n] least frequent colours are dropped. *)
Theorem analyze_image_colors_length
    (getcolors : Z -> option (list (Z * rgb))) (top_n : Z) :
  length (analyze_image_colors getcolors top_n)
  = match getcolors (256 * 256 * 256) with
    | None => 0%nat
    | Some colors =>
        if top_n <? 0 then (length colors - Z.to_nat (- top_n))%nat
        else (Z.to_nat top_n `min` length colors)%nat
    end.
Proof.
  destruct (getcolors (256 * 256 * 256)) as [colors |] eqn:Hg.
  - destruct (analyze_image_colors_spec getcolors top_n colors Hg)
      as (kept & dropped & -> & _ & _ & _ & Hlen).
    by rewrite length_map.
  - unfold analyze_image_colors. by rewrite Hg.
Qed.

(** * Properties of the preview and comparison images *)

(** The invariant rule for a loop that never raises, with the position of
    the current element in the list. *)
Lemma for_each_positions {A S} (P : list A -> S -> Prop)
    (body : A -> S -> result S) (xs : list A) (s : S) :
  P [] s ->
  (forall done x rest s, xs = done ++ x :: rest -> P done s ->
     exists s', body x s = Ok s' /\ P (done ++ [x]) s') ->
  exists s', for_each xs body s = Ok s' /\ P xs s'.
Proof.
  intros H0 Hstep.
  assert (H : forall rest done s, xs = done ++ rest -> P done s ->
            exists s', for_each rest body s = Ok s' /\ P xs s').
  { induction rest as [| x rest IH]; intros done t Hxs HP.
    - exists t. rewrite app_nil_r in Hxs. by subst done.
    - destruct (Hstep done x rest t Hxs HP) as (t' & E & HP').
      destruct (IH (done ++ [x]) t') as (t'' & E' & HP'');
        [by rewrite <- app_assoc | done |].
      exists t''. cbn [for_each]. rewrite E. rsimpl. done. }
  by apply (H xs [] s).
Qed.

Section PillowProperties.
Variable Image : Type.
Variable Image_new : Z * Z -> rgb -> result Image.
Variable Image_size : Image -> Z * Z.
Variable Image_paste : Image -> Image -> Z * Z -> Image.
Variable Image_getpixel : Image -> Z * Z -> option rgb.

(** What the properties below use of the library: a new image of positive
    size has that size and one colour; pasting an image that fits keeps
    the size of the target, overwrites the box and nothing else. *)
Hypothesis Image_new_spec : forall w h c,
  0 < w -> 0 < h ->
  exists im,
    Image_new (w, h) c = Ok im
    /\ Image_size im = (w, h)
    /\ forall x y, 0 <= x < w -> 0 <= y < h ->
         Image_getpixel im (x, y) = Some c.

Hypothesis Image_paste_spec : forall dst src x0 y0 W H w h,
  Image_size dst = (W, H) -> Image_size src = (w, h) ->
  0 <= x0 -> 0 <= y0 -> x0 + w <= W -> y0 + h <= H ->
  Image_size (Image_paste dst src (x0, y0)) = (W, H)
  /\ forall x y, 0 <= x < W -> 0 <= y < H ->
       Image_getpixel (Image_paste dst src (x0, y0)) (x, y)
       = if (x0 <=? x) && (x <? x0 + w) && (y0 <=? y) && (y <? y0 + h)
         then Image_getpixel src (x - x0, y - y0)
         else Image_getpixel dst (x, y).

Lemma color_preview_spec (width height : Z) :
  7 <= width -> 0 < height ->
  exists preview,
    create_color_preview Image Image_new Image_paste width height = Ok preview
    /\ Image_size preview = (width, height)
    /\ (forall x y name c,
          0 <= x < 7 * (width / 7) -> 0 <= y < height ->
          EINK_COLORS !! Z.to_nat (x / (width / 7)) = Some (name, c) ->
          Image_getpixel preview (x, y) = Some c)
    /\ (forall x y,
          7 * (width / 7) <= x < width -> 0 <= y < height ->
          Image_getpixel preview (x, y) = Some (255, 255, 255)).
Proof.
  intros Hw Hh. unfold create_color_preview.
  destruct (Image_new_spec width height (255, 255, 255)) as (p0 & -> & Hs0 & Hp0);
    [lia | lia |].
  rsimpl. change (Z.of_nat (length EINK_COLORS)) with 7. cbv zeta.
  set (cw := width / 7). assert (Hcw : 0 < cw /\ 7 * cw <= width)
    by (unfold cw; zlia).
  match goal with
  | |- context [@for_each ?A ?S ?xs ?body ?s0] =>
      destruct (for_each_positions (A:=A) (S:=S)
        (fun done st =>
           Image_size st.1 = (width, height)
           /\ st.2 = Z.of_nat (length done) * cw
           /\ forall x y, 0 <= x < width -> 0 <= y < height ->
                Image_getpixel st.1 (x, y)
                = if x <? Z.of_nat (length done) * cw
                  then snd <$> done !! Z.to_nat (x / cw)
                  else Some (255, 255, 255))
        body xs s0) as ([preview off] & E & Hsz & Hoff & Hpx)
  end.
  - cbn [fst snd length]. split; [done |]. split; [lia |].
    intros x y Hx Hy. rewrite Hp0 by done.
    destruct (x <? Z.of_nat 0 * cw) eqn:E; [apply Z.ltb_lt in E; lia | done].
  - intros done [name c] rest [preview off] Hxs (Hsz & Hoff & Hpx).
    cbn [fst snd] in *.
    assert (Hlen : (length done < 7)%nat).
    { apply (f_equal length) in Hxs. rewrite length_app in Hxs.
      cbn [length] in Hxs. change (length EINK_COLORS) with 7%nat in Hxs. lia. }
    destruct (Image_new_spec cw height c) as (block & -> & Hsb & Hpb);
      [lia | lia |].
    rsimpl. eexists. split; [reflexivity |]. cbn [fst snd].
    destruct (Image_paste_spec preview block off 0 width height cw height
                Hsz Hsb) as (Hsz' & Hpx'); [nia | lia | nia | lia |].
    split; [done |]. rewrite length_app. cbn [length].
    split; [nia |].
    intros x y Hx Hy. rewrite Hpx' by done. rewrite Hpx by done.
    subst off.
    destruct ((Z.of_nat (length done) * cw <=? x)
              && (x <? Z.of_nat (length done) * cw + cw)
              && (0 <=? y) && (y <? 0 + height)) eqn:Ein.
    + apply andb_prop in Ein as [Ein E4]. apply andb_prop in Ein as [Ein E3].
      apply andb_prop in Ein as [E1 E2].
      apply Z.leb_le in E1. apply Z.ltb_lt in E2.
      rewrite Hpb by lia.
      replace (x <? Z.of_nat (length done + 1) * cw) with true
        by (symmetry; apply Z.ltb_lt; nia).
      assert (Hq : x / cw = Z.of_nat (length done)).
      { symmetry.
        apply Z.div_unique with (r := x - Z.of_nat (length done) * cw); lia. }
      rewrite Hq, Nat2Z.id, lookup_app_r by lia.
      by rewrite Nat.sub_diag.
    + assert (Hout : x < Z.of_nat (length done) * cw
                     \/ Z.of_nat (length done) * cw + cw <= x).
      { destruct (Z.of_nat (length done) * cw <=? x) eqn:E1;
          [| apply Z.leb_gt in E1; lia].
        destruct (x <? Z.of_nat (length done) * cw + cw) eqn:E2;
          [| apply Z.ltb_ge in E2; lia].
        destruct (0 <=? y) eqn:E3; [| apply Z.leb_gt in E3; lia].
        destruct (y <? 0 + height) eqn:E4; [done |].
        apply Z.ltb_ge in E4. lia. }
      destruct Hout as [Hlt | Hge].
      * replace (x <? Z.of_nat (length done) * cw) with true
          by (symmetry; apply Z.ltb_lt; lia).
        replace (x <? Z.of_nat (length done + 1) * cw) with true
          by (symmetry; apply Z.ltb_lt; nia).
        rewrite lookup_app_l; [done |].
        assert (x / cw < Z.of_nat (length done))
          by (apply Z.div_lt_upper_bound; nia).
        assert (0 <= x / cw) by (apply Z.div_pos; lia). lia.
      * replace (x <? Z.of_nat (length done) * cw) with false
          by (symmetry; apply Z.ltb_ge; lia).
        replace (x <? Z.of_nat (length done + 1) * cw) with false
          by (symmetry; apply Z.ltb_ge; nia).
        done.
  - rewrite E. rsimpl. cbn [fst snd] in *. exists preview.
    change (Z.of_nat (length EINK_COLORS)) with 7 in Hpx.
    split; [done |]. split; [done |]. split.
    + intros x y name c Hx Hy Hc. rewrite Hpx by lia.
      replace (x <? 7 * cw) with true by (symmetry; apply Z.ltb_lt; lia).
      by rewrite Hc.
    + intros x y Hx Hy. rewrite Hpx by lia.
      by replace (x <? 7 * cw) with false by (symmetry; apply Z.ltb_ge; lia).
Qed.

(** X26: [create_color_preview(width, height)] for a width of at least 7
    and a positive height returns a [width] x [height] image made of seven
    vertical blocks of width [width // 7], one per palette colour in
    palette order: the pixel at column [x] has colour number
    [x // (width // 7)].  The [width % 7] columns on the right that the
    blocks do not reach stay white. *)
Theorem color_preview_has_seven_blocks (width height : Z) :
  7 <= width -> 0 < height ->
  exists preview,
    create_color_preview Image Image_new Image_paste width height = Ok preview
    /\ Image_size preview = (width, height)
    /\ (forall x y name c,
          0 <= x < 7 * (width / 7) -> 0 <= y < height ->
          EINK_COLORS !! Z.to_nat (x / (width / 7)) = Some (name, c) ->
          Image_getpixel preview (x, y) = Some c)
    /\ (forall x y,
          7 * (width / 7) <= x < width -> 0 <= y < height ->
          Image_getpixel preview (x, y) = Some (255, 255, 255)).
Proof. apply color_preview_spec. Qed.

Lemma color_comparison_spec (original quantized : Image) (w h : Z) :
  Image_size original = (w, h) -> Image_size quantized = (w, h) ->
  0 < w -> 0 < h ->
  exists comparison,
    create_color_comparison Image Image_new Image_size Image_paste
      original quantized = Ok comparison
    /\ Image_size comparison = (w * 2, h)
    /\ forall x y, 0 <= x < w * 2 -> 0 <= y < h ->
         Image_getpixel comparison (x, y)
         = if x <? w then Image_getpixel original (x, y)
           else Image_getpixel quantized (x - w, y).
Proof.
  intros Ho Hq Hw Hh. unfold create_color_comparison. rewrite Ho.
  destruct (Image_new_spec (w * 2) h (255, 255, 255)) as (c0 & -> & Hs0 & Hp0);
    [lia | lia |].
  rsimpl. cbv zeta.
  destruct (Image_paste_spec c0 original 0 0 (w * 2) h w h Hs0 Ho)
    as (Hs1 & Hp1); [lia | lia | lia | lia |].
  destruct (Image_paste_spec (Image_paste c0 original (0, 0)) quantized w 0
              (w * 2) h w h Hs1 Hq) as (Hs2 & Hp2); [lia | lia | lia | lia |].
  eexists. split; [reflexivity |]. split; [done |].
  intros x y Hx Hy. rewrite Hp2, Hp1 by done.
  destruct (x <? w) eqn:Exw.
  - apply Z.ltb_lt in Exw.
    replace (w <=? x) with false by (symmetry; apply Z.leb_gt; lia).
    cbn [andb].
    replace (0 <=? x) with true by (symmetry; apply Z.leb_le; lia).
    replace (x <? 0 + w) with true by (symmetry; apply Z.ltb_lt; lia).
    replace (0 <=? y) with true by (symmetry; apply Z.leb_le; lia).
    replace (y <? 0 + h) with true by (symmetry; apply Z.ltb_lt; lia).
    cbn [andb]. by rewrite !Z.sub_0_r.
  - apply Z.ltb_ge in Exw.
    replace (w <=? x) with true by (symmetry; apply Z.leb_le; lia).
    replace (x <? w + w) with true by (symmetry; apply Z.ltb_lt; lia).
    replace (0 <=? y) with true by (symmetry; apply Z.leb_le; lia).
    replace (y <? 0 + h) with true by (symmetry; apply Z.ltb_lt; lia).
    cbn [andb]. by rewrite Z.sub_0_r.
Qed.

(** X27: [create_color_comparison(original, quantized)] for two images of
    one positive size [w] x [h] returns a [2 w] x [h] image whose left half
    is the original and whose right half is the quantised image: the
    pixel at [(x, y)] is the original's there for [x < w] and the
    quantised image's pixel at [(x - w, y)] otherwise; no white
    background remains. *)
Theorem color_comparison_is_side_by_side (original quantized : Image)
    (w h : Z) :
  Image_size original = (w, h) -> Image_size quantized = (w, h) ->
  0 < w -> 0 < h ->
  exists comparison,
    create_color_comparison Image Image_new Image_size Image_paste
      original quantized = Ok comparison
    /\ Image_size comparison = (w * 2, h)
    /\ forall x y, 0 <= x < w * 2 -> 0 <= y < h ->
         Image_getpixel comparison (x, y)
         = if x <? w then Image_getpixel original (x, y)
           else Image_getpixel quantized (x - w, y).
Proof. apply color_comparison_spec. Qed.
End PillowProperties.

Lemma raster_new_spec (w h : Z) (c : rgb) :
  0 < w -> 0 < h ->
  exists im,
    raster_new (w, h) c = Ok im
    /\ raster_size im = (w, h)
    /\ forall x y, 0 <= x < w -> 0 <= y < h ->
         raster_getpixel im (x, y) = Some c.
Proof.
  intros Hw Hh. exists (w, h, fun _ _ => c). unfold raster_new.
  replace (0 <=? w) with true by (symmetry; apply Z.leb_le; lia).
  replace (0 <=? h) with true by (symmetry; apply Z.leb_le; lia).
  split; [done |]. split; [done |]. intros x y Hx Hy. unfold raster_getpixel.
  replace (0 <=? x) with true by (symmetry; apply Z.leb_le; lia).
  replace (x <? w) with true by (symmetry; apply Z.ltb_lt; lia).
  replace (0 <=? y) with true by (symmetry; apply Z.leb_le; lia).
  by replace (y <? h) with true by (symmetry; apply Z.ltb_lt; lia).
Qed.

Lemma raster_paste_spec (dst src : raster) (x0 y0 W H w h : Z) :
  raster_size dst = (W, H) -> raster_size src = (w, h) ->
  0 <= x0 -> 0 <= y0 -> x0 + w <= W -> y0 + h <= H ->
  raster_size (raster_paste dst src (x0, y0)) = (W, H)
  /\ forall x y, 0 <= x < W -> 0 <= y < H ->
       raster_getpixel (raster_paste dst src (x0, y0)) (x, y)
       = if (x0 <=? x) && (x <? x0 + w) && (y0 <=? y) && (y <? y0 + h)
         then raster_getpixel src (x - x0, y - y0)
         else raster_getpixel dst (x, y).
Proof.
  destruct dst as [[W' H'] PX], src as [[w' h'] px].
  unfold raster_size. cbn [fst]. intros [= -> ->] [= -> ->] Hx0 Hy0 Hfx Hfy.
  split; [done |]. intros x y Hx Hy. unfold raster_paste, raster_getpixel.
  replace (0 <=? x) with true by (symmetry; apply Z.leb_le; lia).
  replace (x <? W) with true by (symmetry; apply Z.ltb_lt; lia).
  replace (0 <=? y) with true by (symmetry; apply Z.leb_le; lia).
  replace (y <? H) with true by (symmetry; apply Z.ltb_lt; lia).
  cbn [andb].
  destruct ((x0 <=? x) && (x <? x0 + w) && (y0 <=? y) && (y <? y0 + h)) eqn:E;
    [| done].
  apply andb_prop in E as [E E4]. apply andb_prop in E as [E E3].
  apply andb_prop in E as [E1 E2].
  apply Z.leb_le in E1, E3. apply Z.ltb_lt in E2, E4.
  replace (0 <=? x - x0) with true by (symmetry; apply Z.leb_le; lia).
  replace (x - x0 <? w) with true by (symmetry; apply Z.ltb_lt; lia).
  replace (0 <=? y - y0) with true by (symmetry; apply Z.leb_le; lia).
  by replace (y - y0 <? h) with true by (symmetry; apply Z.ltb_lt; lia).
Qed.

Lemma color_preview_has_seven_blocks_witness :
  exists preview,
    create_color_preview raster raster_new raster_paste 800 100 = Ok preview
    /\ raster_size preview = (800, 100)
    /\ (forall x y name c,
          0 <= x < 7 * (800 / 7) -> 0 <= y < 100 ->
          EINK_COLORS !! Z.to_nat (x / (800 / 7)) = Some (name, c) ->
          raster_getpixel preview (x, y) = Some c)
    /\ (forall x y,
          7 * (800 / 7) <= x < 800 -> 0 <= y < 100 ->
          raster_getpixel preview (x, y) = Some (255, 255, 255)).
Proof.
  apply (color_preview_has_seven_blocks raster raster_new raster_size
           raster_paste raster_getpixel raster_new_spec raster_paste_spec
           800 100); lia.
Defined.

Lemma color_comparison_is_side_by_side_witness :
  exists comparison,
    create_color_comparison raster raster_new raster_size raster_paste
      (2, 1, fun _ _ => (128, 128, 128)) (2, 1, fun _ _ => (255, 255, 255))
    = Ok comparison
    /\ raster_size comparison = (2 * 2, 1)
    /\ forall x y, 0 <= x < 2 * 2 -> 0 <= y < 1 ->
         raster_getpixel comparison (x, y)
         = if x <? 2
           then raster_getpixel (2, 1, fun _ _ => (128, 128, 128)) (x, y)
           else raster_getpixel (2, 1, fun _ _ => (255, 255, 255)) (x - 2, y).
Proof.
  apply (color_comparison_is_side_by_side raster raster_new raster_size
           raster_paste raster_getpixel raster_new_spec raster_paste_spec
           (2, 1, fun _ _ => (128, 128, 128))
           (2, 1, fun _ _ => (255, 255, 255)) 2 1);
    [reflexivity | reflexivity | lia | lia].
Defined.

(** * Further properties of the conversion and of the cached matcher *)

Section Lightness.
Local Open Scope R_scope.

Lemma gamma_unit_interval (c : R) :
  0 <= c <= 1 -> 0 <= spec_gamma_decode c <= 1.
Proof.
  intros Hc. unfold spec_gamma_decode.
  destruct (Rlt_dec 0.04045 c) as [Hb | Hb]; [| lra].
  split; [unfold Rpower; apply Rlt_le, exp_pos |].
  rewrite <- (Rpower_one 2.4).
  apply Rle_Rpower_l; [lra |]. split; lra.
Qed.

Lemma cie_f_range (t : R) :
  0 <= t <= 1.0000001 -> 16 / 116 <= spec_cie_f t < 1.0000001.
Proof.
  intros Ht. destruct (Rlt_dec 0.008856 t) as [Hb | Hb].
  - split; [| apply cie_f_lt; lra].
    apply Rlt_le. apply Rlt_trans with 0.2; [lra |]. apply cie_f_gt; lra.
  - unfold spec_cie_f. destruct (Rlt_dec 0.008856 t); lra.
Qed.

Lemma lightness_range (r g b : Z) :
  (0 <= r <= 255)%Z -> (0 <= g <= 255)%Z -> (0 <= b <= 255)%Z ->
  exists L a' b',
    _rgb_to_lab (r, g, b) = Ok (L, a', b') /\ 0 <= L < 100.00002.
Proof.
  intros Hr Hg Hb. rewrite rgb_to_lab_total. unfold spec_rgb_to_lab.
  eexists _, _, _. split; [reflexivity |].
  assert (Hu : forall z, (0 <= z <= 255)%Z -> 0 <= IZR z / 255 <= 1).
  { intros z [Hz0 Hz1]. apply (IZR_le 0) in Hz0. apply (IZR_le _ 255) in Hz1.
    split; lra. }
  pose proof (gamma_unit_interval _ (Hu r Hr)) as Gr.
  pose proof (gamma_unit_interval _ (Hu g Hg)) as Gg.
  pose proof (gamma_unit_interval _ (Hu b Hb)) as Gb.
  set (rl := spec_gamma_decode (IZR r / 255)) in *.
  set (gl := spec_gamma_decode (IZR g / 255)) in *.
  set (bl := spec_gamma_decode (IZR b / 255)) in *.
  pose proof (cie_f_range
                ((rl * 0.2126729 + gl * 0.7151522 + bl * 0.0721750) / 1.0))
    as Hf.
  lapply Hf; [| lra]. lra.
Qed.

(** X28: for every 8-bit colour the lightness [L] that [_rgb_to_lab]
    returns is between 0 and 100 (up to the 0.00002 by which the Y row of
    the matrix, which sums to 1.0000001, lifts white): the conversion
    never raises and never produces a negative lightness. *)
Theorem lightness_is_between_0_and_100 (r g b : Z) :
  (0 <= r <= 255)%Z -> (0 <= g <= 255)%Z -> (0 <= b <= 255)%Z ->
  exists L a' b',
    _rgb_to_lab (r, g, b) = Ok (L, a', b') /\ 0 <= L < 100.00002.
Proof. apply lightness_range. Qed.
End Lightness.

Lemma lightness_is_between_0_and_100_witness :
  exists L a' b',
    _rgb_to_lab (200, 30, 77) = Ok (L, a', b') /\ (0 <= L < 100.00002)%R.
Proof. apply (lightness_is_between_0_and_100 200 30 77); lia. Defined.

Lemma same_key_same_answer (m : SevenColorMapper) (r g b r' g' b' : Z)
    (flag flag' : bool) :
  wf_mapper m ->
  0 <= r <= 255 -> 0 <= g <= 255 -> 0 <= b <= 255 ->
  0 <= r' <= 255 -> 0 <= g' <= 255 -> 0 <= b' <= 255 ->
  r / 4 = r' / 4 -> g / 4 = g' / 4 -> b / 4 = b' / 4 ->
  exists e,
    find_closest_eink_color m (r, g, b) flag = Ok (Some e)
    /\ find_closest_eink_color m (r', g', b') flag' = Ok (Some e)
    /\ _find_closest_eink_color_direct m (cache_key_of (r, g, b)) true
       = Ok (Some e).
Proof.
  intros Hwf Hr Hg Hb Hr' Hg' Hb' Er Eg Eb.
  destruct (find_closest_hit m r g b Hwf Hr Hg Hb) as (e & _ & Hd & Hf).
  destruct (find_closest_hit m r' g' b' Hwf Hr' Hg' Hb') as (e' & _ & Hd' & Hf').
  rewrite <- Er, <- Eg, <- Eb in Hd'. rewrite Hd in Hd'. injection Hd' as <-.
  exists e. by rewrite Hf, Hf'.
Qed.

(** X29: the cached matcher sees a colour only through its key.  Two
    8-bit colours that agree after each channel is rounded down to a
    multiple of 4 get the same answer, whatever the flags: the answer of
    the direct scan (default metric) on the rounded colour, not on the
    colour itself. *)
Theorem cached_matcher_depends_only_on_key
    (fast_dither : option (result backend)) (m : SevenColorMapper)
    (r g b r' g' b' : Z) (flag flag' : bool) :
  __init__ fast_dither = Ok m ->
  0 <= r <= 255 -> 0 <= g <= 255 -> 0 <= b <= 255 ->
  0 <= r' <= 255 -> 0 <= g' <= 255 -> 0 <= b' <= 255 ->
  r / 4 = r' / 4 -> g / 4 = g' / 4 -> b / 4 = b' / 4 ->
  exists e,
    find_closest_eink_color m (r, g, b) flag = Ok (Some e)
    /\ find_closest_eink_color m (r', g', b') flag' = Ok (Some e)
    /\ _find_closest_eink_color_direct m (cache_key_of (r, g, b)) true
       = Ok (Some e).
Proof.
  intros Hinit. apply same_key_same_answer. by destruct (init_spec _ _ Hinit).
Qed.

Lemma cached_matcher_depends_only_on_key_witness :
  exists e,
    find_closest_eink_color default_mapper (129, 66, 255) true = Ok (Some e)
    /\ find_closest_eink_color default_mapper (131, 64, 252) false
       = Ok (Some e)
    /\ _find_closest_eink_color_direct default_mapper
         (cache_key_of (129, 66, 255)) true = Ok (Some e).
Proof.
  apply (cached_matcher_depends_only_on_key None default_mapper
           129 66 255 131 64 252 true false default_mapper_init);
    first [lia | reflexivity].
Defined.

(** * The failing backend, in general *)

Lemma backend_failure (self : SevenColorMapper) (elapsed : Z -> bool)
    (image : grid rgb) (method : string) (fd : backend) (e : exn) :
  fast_ditherer self = Some fd ->
  (if String.eqb method "floyd_steinberg_7color"
   then floyd_steinberg_dither fd (np_array_float32 image)
   else jarvis_judice_ninke_dither fd (np_array_float32 image)) = Raise e ->
  quantize_image_advanced_dithering self elapsed image method
  = Raise (NameError "logging").
Proof.
  intros Hfd Hout. unfold quantize_image_advanced_dithering, fast_attempt.
  rewrite Hfd.
  destruct (String.eqb method "jarvis_judice_ninke_7color") eqn:Ej.
  - apply String.eqb_eq in Ej. subst method. cbn in Hout. by rewrite Hout.
  - destruct (String.eqb method "floyd_steinberg_7color"); by rewrite Hout.
Qed.

(** X30: whenever the backend entry point selected by the method raises,
    on any image and for any method name ('simple' included), the caller
    gets [NameError] for the name [logging]: the Python path is not
    entered and the backend's own exception is lost. *)
Theorem backend_failure_is_always_NameError (self : SevenColorMapper)
    (elapsed : Z -> bool) (image : grid rgb) (method : string) (fd : backend)
    (e : exn) :
  fast_ditherer self = Some fd ->
  (if String.eqb method "floyd_steinberg_7color"
   then floyd_steinberg_dither fd (np_array_float32 image)
   else jarvis_judice_ninke_dither fd (np_array_float32 image)) = Raise e ->
  quantize_image_advanced_dithering self elapsed image method
  = Raise (NameError "logging").
Proof. apply backend_failure. Qed.

Lemma backend_failure_is_always_NameError_witness :
  quantize_image_advanced_dithering
    (constructed_mapper (Some (Ok failing_backend))) never_elapsed
    [ [ (1, 2, 3) ]; [ (4, 5, 6) ]; [ (7, 8, 9) ]; [ (0, 0, 0) ] ] "simple"
  = Raise (NameError "logging").
Proof.
  apply (backend_failure_is_always_NameError
           (constructed_mapper (Some (Ok failing_backend))) never_elapsed
           [ [ (1, 2, 3) ]; [ (4, 5, 6) ]; [ (7, 8, 9) ]; [ (0, 0, 0) ] ]
           "simple" failing_backend (BackendError "MemoryError"));
    [| reflexivity].
  apply (init_spec (Some (Ok failing_backend))).
  by apply constructed_mapper_init.
Defined.
